(** * videolib: clip playback cache and live-capture file rotation

    A shallow embedding of [python/ClipReader.py], the parts of
    [python/FfMpegClipReader.py] it drives, and the segment rotation and
    background mover of [python/StreamReader.py]; then the clip makers of
    [python/ClipUtils.py], the timestamp flags and the debug configuration
    of [python/VideoLibUtils.py], and the camera list, the device list and
    the memory-map parameters of [python/StreamReader.py].

    Conventions.
    - Python integers and the C [long long] millisecond stamps are [Z].
    - [None] is [option]'s [None]; a NULL [c_void_p] is falsy, so a native
      handle is an [option] too.
    - A Python object held in a slot of another object is the value of that
      slot: a method called on it writes the new value back to the slot it
      was read from (the slots of one object never alias each other).
    - Calls into the native clip library are the fields of an interface
      record.  What the outside world decides is an input: whether a clip
      opens depends on how many opens came before, whether a move works
      and whether a thread is still alive are read from queues kept next
      to the object, and what a poll of the stream gives is an argument.
    - Logging, timers and statistics do not touch the state and are left
      out. *)

From Stdlib Require Import ZArith List String Ascii Bool Lia.
From Stdlib Require Import DecimalString Sorted Permutation.
Import ListNotations.

Set Implicit Arguments.

(* ================================================================== *)
(** ** Python string helpers used by the stream reader *)

Module PyStr.

Local Open Scope string_scope.

(** [c.lower()] on one byte of a [str]: only A-Z change. *)
Definition lower_ascii (c : ascii) : ascii :=
  let n := nat_of_ascii c in
  if (Nat.leb 65 n && Nat.leb n 90)%bool then ascii_of_nat (n + 32) else c.

Definition is_upper (c : ascii) : bool :=
  let n := nat_of_ascii c in (Nat.leb 65 n && Nat.leb n 90)%bool.

(** [s.lower()] *)
Fixpoint lower (s : string) : string :=
  match s with
  | EmptyString => EmptyString
  | String c r => String (lower_ascii c) (lower r)
  end.

Fixpoint has_upper (s : string) : bool :=
  match s with
  | EmptyString => false
  | String c r => is_upper c || has_upper r
  end.

Definition slash : ascii := "/"%char.

Fixpoint has_slash (s : string) : bool :=
  match s with
  | EmptyString => false
  | String c r => Ascii.eqb c slash || has_slash r
  end.

(** [s.startswith('/')] *)
Definition startswith_slash (s : string) : bool :=
  match s with
  | String c _ => Ascii.eqb c slash
  | EmptyString => false
  end.

(** [s.endswith('/')] *)
Fixpoint endswith_slash (s : string) : bool :=
  match s with
  | EmptyString => false
  | String c EmptyString => Ascii.eqb c slash
  | String _ r => endswith_slash r
  end.

(** [os.path.join(a, b)] of posixpath, two components. *)
Definition join (a b : string) : string :=
  if startswith_slash b then b
  else if String.eqb a "" || endswith_slash a then a ++ b
  else a ++ "/" ++ b.

(** [os.path.split(p)[1]]: what follows the last slash. *)
Fixpoint split_tail (p : string) : string :=
  match p with
  | EmptyString => EmptyString
  | String c r =>
      if has_slash r then split_tail r
      else if Ascii.eqb c slash then r else p
  end.

(** [s[:n]] *)
Definition take (n : nat) (s : string) : string := substring 0 n s.

(** Truth value of a [str]: the empty string is falsy. *)
Definition truthy (s : string) : bool := negb (String.eqb s "").

End PyStr.

(* ================================================================== *)
(** ** ClipReader.py over FfMpegClipReader.py *)

Module ClipReader_py.

Local Open Scope Z_scope.

(** [FfMpegClipFrame]: the stamp and the output size it was decoded at. *)
Record ClipFrame := mkClipFrame {
  ms : Z;
  frame_width : option Z;
  frame_height : option Z
}.

(** The [extras] dictionary handed to [open]; this layer only passes it on
    and reads ['audioMute']. *)
Definition Extras := list (string * Z).

Fixpoint extras_get (k : string) (e : Extras) : option Z :=
  match e with
  | [] => None
  | (k', v) :: r => if String.eqb k k' then Some v else extras_get k r
  end.

(** The native clip functions of videolib that the readers call.  [Clip]
    is the state behind one [open_clip] handle (its decode position).
    [open_clip n ...] is the outcome of the call made after [n] earlier
    ones: reopening one path may fail although an earlier open worked. *)
Class ClipLib := {
  Clip : Type;
  open_clip : nat -> option string -> Z -> Z -> Z -> option Extras -> option Clip;
  get_output_width : Clip -> Z;
  get_output_height : Clip -> Z;
  get_input_width : Clip -> Z;
  get_input_height : Clip -> Z;
  clip_has_audio : Clip -> Z;
  get_clip_length : Clip -> Z;
  get_next_frame : Clip -> option Z * Clip;
  get_prev_frame : Clip -> option Z * Clip;
  get_next_frame_offset : Clip -> Z;
  get_frame_at : Clip -> Z -> option Z * Clip;
  get_ms_list : Clip -> option (list Z) * Clip;
  set_output_size : Clip -> Z -> Z -> Clip;
  set_mute_audio : Clip -> Z -> Clip
}.


(** How often the native library was asked to open a clip, how many handles
    it gave out and how many were freed: instrumentation, not program
    state. *)
Record LibUse := mkLibUse {
  open_calls : nat;
  handles_opened : nat;
  handles_freed : nat
}.

Section Readers.

Context {L : ClipLib}.

(** *** FfMpegClipReader *)

Record FfMpegClipReader := mkFfReader {
  _clip : option Clip;
  _mute : bool;
  _width : option Z;
  _height : option Z
}.

(** [FfMpegClipReader.__init__] *)
Definition ff_init : FfMpegClipReader :=
  mkFfReader None false None None.

(** [FfMpegClipReader.setMute] *)
Definition ff_setMute (mute : bool) (r : FfMpegClipReader) : FfMpegClipReader :=
  match _clip r with
  | None => mkFfReader None mute (_width r) (_height r)
  | Some c =>
      mkFfReader (Some (set_mute_audio c (if mute then 1 else 0))) mute
                 (_width r) (_height r)
  end.

(** [FfMpegClipReader.close] *)
Definition ff_close (r : FfMpegClipReader) (u : LibUse)
  : FfMpegClipReader * LibUse :=
  (mkFfReader None (_mute r) (Some 0) (Some 0),
   match _clip r with
   | Some _ => mkLibUse (open_calls u) (handles_opened u) (S (handles_freed u))
   | None => u
   end).

(** [FfMpegClipReader.open]; an exception of the native call is the
    [None] outcome of [open_clip], as both end in [return False]. *)
Definition ff_open (filename : option string) (width height firstMs : Z)
    (extras : option Extras) (r : FfMpegClipReader) (u : LibUse)
  : bool * FfMpegClipReader * LibUse :=
  let '(r, u) := match _clip r with
                 | Some _ => ff_close r u
                 | None => (r, u)
                 end in
  let mute := match extras with
              | Some e => match extras_get "audioMute" e with
                          | Some v => negb (v =? 0)
                          | None => _mute r
                          end
              | None => _mute r
              end in
  let n := open_calls u in
  match open_clip n filename width height firstMs extras with
  | Some c =>
      (true,
       ff_setMute mute
         (mkFfReader (Some c) mute (Some (get_output_width c))
                     (Some (get_output_height c))),
       mkLibUse (S n) (S (handles_opened u)) (handles_freed u))
  | None =>
      (false, mkFfReader None mute (_width r) (_height r),
       mkLibUse (S n) (handles_opened u) (handles_freed u))
  end.

(** The three frame getters share one shape: no handle, no frame; else the
    native call moves the handle and may give a stamp. *)
Definition ff_frame (call : Clip -> option Z * Clip) (r : FfMpegClipReader)
  : option ClipFrame * FfMpegClipReader :=
  match _clip r with
  | None => (None, r)
  | Some c =>
      let '(res, c') := call c in
      let r' := mkFfReader (Some c') (_mute r) (_width r) (_height r) in
      match res with
      | None => (None, r')
      | Some t => (Some (mkClipFrame t (_width r) (_height r)), r')
      end
  end.

(** [FfMpegClipReader.getNextFrame] *)
Definition ff_getNextFrame := ff_frame get_next_frame.

(** [FfMpegClipReader.getPrevFrame] *)
Definition ff_getPrevFrame := ff_frame get_prev_frame.

(** [FfMpegClipReader.getFrameAt] *)
Definition ff_getFrameAt (msOffset : Z) :=
  ff_frame (fun c => get_frame_at c msOffset).

(** [FfMpegClipReader.seek]: [return self.getFrameAt(msOffset)] *)
Definition ff_seek (msOffset : Z) := ff_getFrameAt msOffset.

(** [FfMpegClipReader.getDuration] *)
Definition ff_getDuration (r : FfMpegClipReader) : Z :=
  match _clip r with
  | None => -1
  | Some c => get_clip_length c
  end.

(** [FfMpegClipReader.getMsList] *)
Definition ff_getMsList (r : FfMpegClipReader) : list Z * FfMpegClipReader :=
  match _clip r with
  | None => ([], r)
  | Some c =>
      let '(res, c') := get_ms_list c in
      (match res with Some l => l | None => [] end,
       mkFfReader (Some c') (_mute r) (_width r) (_height r))
  end.

(** [FfMpegClipReader.getNextFrameOffset] *)
Definition ff_getNextFrameOffset (r : FfMpegClipReader) : Z :=
  match _clip r with
  | None => -1
  | Some c => get_next_frame_offset c
  end.

(** [FfMpegClipReader.hasAudio] *)
Definition ff_hasAudio (r : FfMpegClipReader) : bool :=
  match _clip r with
  | None => false
  | Some c => negb (clip_has_audio c =? 0)
  end.

(** *** ClipReader *)

Record ClipReader := mkClipReader {
  _seqReader : option FfMpegClipReader;
  _randReader : option FfMpegClipReader;
  _firstReader : option FfMpegClipReader;
  path : option string;
  width : Z;
  height : Z;
  firstMs : Z;
  extras : option Extras;
  prevMs : Z;
  _readerPrevMs : Z;
  isDone : bool;
  _duration : option Z;
  _msList : option (list Z)
}.

(** The object together with the library's counters. *)
Record State := mkState {
  self : ClipReader;
  lib : LibUse
}.

Definition set_seqReader (v : option FfMpegClipReader) (o : ClipReader) :=
  mkClipReader v (_randReader o) (_firstReader o) (path o) (width o)
    (height o) (firstMs o) (extras o) (prevMs o) (_readerPrevMs o)
    (isDone o) (_duration o) (_msList o).

Definition set_randReader (v : option FfMpegClipReader) (o : ClipReader) :=
  mkClipReader (_seqReader o) v (_firstReader o) (path o) (width o)
    (height o) (firstMs o) (extras o) (prevMs o) (_readerPrevMs o)
    (isDone o) (_duration o) (_msList o).

Definition set_firstReader (v : option FfMpegClipReader) (o : ClipReader) :=
  mkClipReader (_seqReader o) (_randReader o) v (path o) (width o)
    (height o) (firstMs o) (extras o) (prevMs o) (_readerPrevMs o)
    (isDone o) (_duration o) (_msList o).

(** [self._readerPrevMs = a; self.prevMs = b] *)
Definition set_position (rp p : Z) (o : ClipReader) :=
  mkClipReader (_seqReader o) (_randReader o) (_firstReader o) (path o)
    (width o) (height o) (firstMs o) (extras o) p rp
    (isDone o) (_duration o) (_msList o).

Definition set_isDone (v : bool) (o : ClipReader) :=
  mkClipReader (_seqReader o) (_randReader o) (_firstReader o) (path o)
    (width o) (height o) (firstMs o) (extras o) (prevMs o) (_readerPrevMs o)
    v (_duration o) (_msList o).

Definition set_duration (v : option Z) (o : ClipReader) :=
  mkClipReader (_seqReader o) (_randReader o) (_firstReader o) (path o)
    (width o) (height o) (firstMs o) (extras o) (prevMs o) (_readerPrevMs o)
    (isDone o) v (_msList o).

Definition set_msList (v : option (list Z)) (o : ClipReader) :=
  mkClipReader (_seqReader o) (_randReader o) (_firstReader o) (path o)
    (width o) (height o) (firstMs o) (extras o) (prevMs o) (_readerPrevMs o)
    (isDone o) (_duration o) v.

Definition set_size (w h : Z) (o : ClipReader) :=
  mkClipReader (_seqReader o) (_randReader o) (_firstReader o) (path o)
    w h (firstMs o) (extras o) (prevMs o) (_readerPrevMs o)
    (isDone o) (_duration o) (_msList o).

(** The values [_reset] assigns. *)
Definition reset_values : ClipReader :=
  mkClipReader None None None None 0 0 (-1) None (-1) (-1) false None None.

(** [rdr.close()] for one slot of the loop in [_reset]. *)
Definition close_slot (rdr : option FfMpegClipReader) (u : LibUse) : LibUse :=
  match rdr with
  | Some r => snd (ff_close r u)
  | None => u
  end.

(** [ClipReader._reset] *)
Definition _reset (forClose : bool) (s : State) : State :=
  let u := if forClose
           then close_slot (_seqReader (self s))
                  (close_slot (_randReader (self s))
                     (close_slot (_firstReader (self s)) (lib s)))
           else lib s in
  mkState reset_values u.

(** [ClipReader.__init__] *)
Definition init : State := mkState reset_values (mkLibUse 0 0 0).

(** [ClipReader.close] *)
Definition close (s : State) : State := _reset true s.

(** [ClipReader._allocReader] *)
Definition _allocReader (s : State) : option FfMpegClipReader * State :=
  let o := self s in
  let '(success, reader, u) :=
    ff_open (path o) (width o) (height o) (firstMs o) (extras o)
            ff_init (lib s) in
  (if success then Some reader else None, mkState o u).

(** [ClipReader.open] *)
Definition open (filename : string) (w h fMs : Z) (ex : option Extras)
    (s : State) : bool * State :=
  let s := close s in
  let o := self s in
  let o := mkClipReader (_seqReader o) (_randReader o) (_firstReader o)
             (Some filename) w h fMs ex (prevMs o) (_readerPrevMs o)
             (isDone o) (_duration o) (_msList o) in
  let '(r, s) := _allocReader (mkState o (lib s)) in
  (match r with Some _ => true | None => false end,
   mkState (set_firstReader r (self s)) (lib s)).

(** [ClipReader._getAnyReader] *)
Definition _getAnyReader (o : ClipReader) : option FfMpegClipReader :=
  match _firstReader o with
  | Some r => Some r
  | None => match _randReader o with
            | Some r => Some r
            | None => _seqReader o
            end
  end.

(** [ClipReader._getSeqReader] *)
Definition _getSeqReader (s : State) : option FfMpegClipReader * State :=
  match _seqReader (self s) with
  | Some r => (Some r, s)
  | None =>
      match _firstReader (self s) with
      | Some f =>
          (Some f,
           mkState (set_firstReader None (set_seqReader (Some f) (self s)))
                   (lib s))
      | None =>
          let '(r, s1) := _allocReader s in
          (r, mkState (set_seqReader r (self s1)) (lib s1))
      end
  end.

(** [ClipReader._getRandReader] *)
Definition _getRandReader (s : State) : option FfMpegClipReader * State :=
  match _randReader (self s) with
  | Some r => (Some r, s)
  | None =>
      match _firstReader (self s) with
      | Some f =>
          (Some f,
           mkState (set_firstReader None (set_randReader (Some f) (self s)))
                   (lib s))
      | None =>
          let '(r, s1) := _allocReader s in
          (r, mkState (set_randReader r (self s1)) (lib s1))
      end
  end.

(** [ClipReader.getDuration] *)
Definition getDuration (s : State) : Z * State :=
  match _duration (self s) with
  | Some d => (d, s)
  | None =>
      match _getAnyReader (self s) with
      | None => (-1, s)
      | Some reader =>
          let d := ff_getDuration reader in
          (d, mkState (set_duration (Some d) (self s)) (lib s))
      end
  end.

(** [not self._msList]: [None] and the empty list are both falsy. *)
Definition msList_falsy (m : option (list Z)) : bool :=
  match m with
  | None | Some [] => true
  | Some (_ :: _) => false
  end.

(** [ClipReader.getMsList] *)
Definition getMsList (s : State) : list Z * State :=
  if msList_falsy (_msList (self s)) then
    let '(reader, s1) := _getRandReader s in
    match reader with
    | None => ([], s1)
    | Some r =>
        let '(l, r') := ff_getMsList r in
        (l, mkState (set_msList (Some l) (set_randReader (Some r') (self s1)))
                    (lib s1))
    end
  else (match _msList (self s) with Some l => l | None => [] end, s).

(** [ClipReader.seek] *)
Definition seek (msOffset : Z) (s : State) : option ClipFrame * State :=
  let '(reader, s1) := _getSeqReader s in
  match reader with
  | None => (None, s1)
  | Some r =>
      let '(clipFrame, r') := ff_seek msOffset r in
      let o := set_seqReader (Some r') (self s1) in
      match clipFrame with
      | None => (None, mkState (set_position (-1) (-1) o) (lib s1))
      | Some f => (Some f, mkState (set_position (ms f) (ms f) o) (lib s1))
      end
  end.

(** The test [self._readerPrevMs != self.prevMs] followed by
    [self.seek(self.prevMs)], whose result is dropped. *)
Definition resync (s : State) : State :=
  if negb (_readerPrevMs (self s) =? prevMs (self s))
  then snd (seek (prevMs (self s)) s)
  else s.

(** [ClipReader.getNextFrame] *)
Definition getNextFrame (s : State) : option ClipFrame * State :=
  let s0 := resync s in
  let '(reader, s1) := _getSeqReader s0 in
  match reader with
  | None => (None, s1)
  | Some r =>
      let '(clipFrame, r') := ff_getNextFrame r in
      let o := set_seqReader (Some r') (self s1) in
      match clipFrame with
      | None =>
          (None, mkState (set_isDone true (set_position (-1) (-1) o)) (lib s1))
      | Some f => (Some f, mkState (set_position (ms f) (ms f) o) (lib s1))
      end
  end.

(** [ClipReader.getPrevFrame] *)
Definition getPrevFrame (s : State) : option ClipFrame * State :=
  let s0 := resync s in
  let '(reader, s1) := _getSeqReader s0 in
  match reader with
  | None => (None, s1)
  | Some r =>
      let '(clipFrame, r') := ff_getPrevFrame r in
      let o := set_seqReader (Some r') (self s1) in
      match clipFrame with
      | None => (None, mkState (set_position (-1) (-1) o) (lib s1))
      | Some f =>
          (Some f,
           mkState (set_position (ms f) (ms f) (set_isDone false o)) (lib s1))
      end
  end.

(** [ClipReader.getNextFrameOffset] *)
Definition getNextFrameOffset (s : State) : Z * State :=
  let '(reader, s1) := _getSeqReader s in
  match reader with
  | None => (-1, s1)
  | Some r => (ff_getNextFrameOffset r, s1)
  end.

(** [ClipReader.setMute] *)
Definition setMute (mute : bool) (s : State) : State :=
  let o := self s in
  let o := set_seqReader (option_map (ff_setMute mute) (_seqReader o)) o in
  let o := set_randReader (option_map (ff_setMute mute) (_randReader o)) o in
  mkState o (lib s).

(** [ClipReader.getFrameAt] *)
Definition getFrameAt (msOffset : Z) (s : State) : option ClipFrame * State :=
  let '(reader, s1) := _getRandReader s in
  match reader with
  | None => (None, s1)
  | Some r =>
      let '(clipFrame, r') := ff_getFrameAt msOffset r in
      (clipFrame, mkState (set_randReader (Some r') (self s1)) (lib s1))
  end.

(** [ClipReader.markDone] *)
Definition markDone (s : State) : State :=
  mkState (set_isDone true (self s)) (lib s).

(** [ClipReader.getPrevMs] *)
Definition getPrevMs (s : State) : Z := prevMs (self s).

(** [FfMpegClipReader.setOutputSize]; the slots of a [ClipReader] only hold
    readers whose open succeeded, so the handle is there. *)
Definition ff_setOutputSize (w h : Z) (r : FfMpegClipReader) : FfMpegClipReader :=
  match _clip r with
  | None => r
  | Some c =>
      let c' := set_output_size c w h in
      mkFfReader (Some c') (_mute r) (Some (get_output_width c'))
                 (Some (get_output_height c'))
  end.

(** [ClipReader.setOutputSize] *)
Definition setOutputSize (w h : Z) (s : State) : State :=
  let o := set_size w h (self s) in
  let o := set_firstReader (option_map (ff_setOutputSize w h) (_firstReader o)) o in
  let o := set_randReader (option_map (ff_setOutputSize w h) (_randReader o)) o in
  let o := set_seqReader (option_map (ff_setOutputSize w h) (_seqReader o)) o in
  mkState o (lib s).

(** [ClipReader.hasAudio] *)
Definition hasAudio (s : State) : bool :=
  match _getAnyReader (self s) with
  | Some r => ff_hasAudio r
  | None => false
  end.

(** *** Client calls as data *)

(** The two accessors of the cursor pair. *)
Inductive Accessor := Sequential | Random.

Definition accessor_eqb (a b : Accessor) : bool :=
  match a, b with
  | Sequential, Sequential | Random, Random => true
  | _, _ => false
  end.

Definition call_accessor (a : Accessor) (s : State) : State :=
  match a with
  | Sequential => snd (_getSeqReader s)
  | Random => snd (_getRandReader s)
  end.

Definition call_accessors (l : list Accessor) (s : State) : State :=
  fold_left (fun s a => call_accessor a s) l s.

(** The slot an accessor fills. *)
Definition slot (a : Accessor) (o : ClipReader) : option FfMpegClipReader :=
  match a with
  | Sequential => _seqReader o
  | Random => _randReader o
  end.

(** The calls a client can make on an open clip that neither close nor
    reopen it. *)
Inductive Call :=
| CGetNextFrame
| CGetPrevFrame
| CSeek (msOffset : Z)
| CGetFrameAt (msOffset : Z)
| CGetDuration
| CGetMsList
| CGetNextFrameOffset
| CSetMute (mute : bool)
| CMarkDone
| CSetOutputSize (w h : Z).

(** The frame a call returns, if it is one that returns frames. *)
Definition call (c : Call) (s : State) : option ClipFrame * State :=
  match c with
  | CGetNextFrame => getNextFrame s
  | CGetPrevFrame => getPrevFrame s
  | CSeek m => seek m s
  | CGetFrameAt m => getFrameAt m s
  | CGetDuration => (None, snd (getDuration s))
  | CGetMsList => (None, snd (getMsList s))
  | CGetNextFrameOffset => (None, snd (getNextFrameOffset s))
  | CSetMute m => (None, setMute m s)
  | CMarkDone => (None, markDone s)
  | CSetOutputSize w h => (None, setOutputSize w h s)
  end.

Definition calls (l : list Call) (s : State) : State :=
  fold_left (fun s c => snd (call c s)) l s.

End Readers.

(** *** A small library instance to run the readers on

    A clip is the list of its frame stamps and the index of the next frame
    to decode.  Opening works on the attempts listed in [ok]. *)

Record ToyClip := mkToy {
  stamps : list Z;
  next : nat
}.

Definition toy_frame_at (c : ToyClip) (t : Z) : option Z * ToyClip :=
  let before := filter (fun x => x <=? t) (stamps c) in
  match rev before with
  | [] => (None, c)
  | x :: _ => (Some x, mkToy (stamps c) (List.length before))
  end.

Definition toy_lib (frames : list Z) (ok : nat -> bool) : ClipLib := {|
  Clip := ToyClip;
  open_clip := fun n _ _ _ _ _ => if ok n then Some (mkToy frames 0) else None;
  get_output_width := fun _ => 320;
  get_output_height := fun _ => 240;
  get_input_width := fun _ => 640;
  get_input_height := fun _ => 480;
  clip_has_audio := fun _ => 0;
  get_clip_length := fun c => last (stamps c) 0;
  get_next_frame := fun c =>
    match nth_error (stamps c) (next c) with
    | Some x => (Some x, mkToy (stamps c) (S (next c)))
    | None => (None, c)
    end;
  get_prev_frame := fun c =>
    match next c with
    | S (S k) => match nth_error (stamps c) k with
                 | Some x => (Some x, mkToy (stamps c) (S k))
                 | None => (None, c)
                 end
    | _ => (None, c)
    end;
  get_next_frame_offset := fun c =>
    match nth_error (stamps c) (next c) with Some x => x | None => -1 end;
  get_frame_at := toy_frame_at;
  get_ms_list := fun c => (Some (stamps c), c);
  set_output_size := fun c _ _ => c;
  set_mute_audio := fun c _ => c
|}.

(** *** Where a cursor pair stands

    [Stands base bS bR s]: [s] is the clip opened as [base] after accessor
    calls of which some were sequential iff [bS] and some random iff
    [bR]. *)
Definition Stands {L : ClipLib} (base : State) (bS bR : bool) (s : State)
  : Prop :=
  (path (self s) = path (self base)
   /\ width (self s) = width (self base)
   /\ height (self s) = height (self base)
   /\ firstMs (self s) = firstMs (self base)
   /\ extras (self s) = extras (self base))
  /\ _firstReader (self s)
     = (if bS || bR then None else _firstReader (self base))
  /\ (if bS then _seqReader (self s) <> None else _seqReader (self s) = None)
  /\ (if bR then _randReader (self s) <> None
      else _randReader (self s) = None)
  /\ handles_opened (lib s)
     = ((if bS && bR then 1 else 0) + handles_opened (lib base))%nat
  /\ (if bS && bR then True else open_calls (lib s) = open_calls (lib base)).

(** *** Clips to run the reader on

    A three-frame and a two-frame clip that always open. *)
Definition lib3 : ClipLib := toy_lib [0; 100; 200] (fun _ => true).
Definition lib2 : ClipLib := toy_lib [0; 100] (fun _ => true).

Definition opened3 : @State lib3 :=
  snd (@open lib3 "clip.mp4" 320 240 0 None (@init lib3)).

Definition opened2 : @State lib2 :=
  snd (@open lib2 "clip.mp4" 320 240 0 None (@init lib2)).

(** The index of the frame the sequential reader of a [lib3] clip will
    decode next, if that reader is there. *)
Definition seq_next3 (s : @State lib3) : option nat :=
  match @_seqReader lib3 (self s) with
  | Some r => match @_clip lib3 r with
              | Some c => Some (next c)
              | None => None
              end
  | None => None
  end.

(** [opened2] read to its end: two frames, then the failing read. *)
Definition at_end2 : @State lib2 :=
  snd (@getNextFrame lib2
         (snd (@getNextFrame lib2 (snd (@getNextFrame lib2 opened2))))).

(** The three-frame clip on a library that opens a clip once and refuses
    every later open. *)
Definition lib_once : ClipLib := toy_lib [0; 100; 200] (Nat.eqb 0).

Definition opened_once : @State lib_once :=
  snd (@open lib_once "clip.mp4" 320 240 0 None (@init lib_once)).

End ClipReader_py.

(* ================================================================== *)
(** ** StreamReader.py: segment rotation and the background mover *)

Module StreamReader_py.

Local Open Scope Z_scope.
Local Open Scope string_scope.

(** [StreamFrameStruct], the fields the reader looks at.  [filename] is a
    [c_char_p] that the adapter fills with the path of the file being
    written. *)
Record StreamFrameStruct := mkFrame {
  sf_ms : Z;
  sf_filename : string;
  sf_isRunning : Z
}.

(** What one [_videolib.get_new_frame] gives: NULL, and then
    [_videolib.is_running] is asked, or a frame. *)
Inductive Poll :=
| NoFrame (is_running : Z)
| Frame (f : StreamFrameStruct).

(** The native stream behind [_stream]; of its state only the processing
    size is read back. *)
Record Stream := mkStream {
  get_proc_width : Z;
  get_proc_height : Z
}.

(** [ThreadedFileMover]: the copy of the owner's fields taken in
    [__init__].  [_clipManager] and [_moveFailedFn] are objects of the
    caller; here only whether they are there. *)
Record ThreadedFileMover := mkMover {
  m_curFilename : string;
  m_storageDir : string;
  m_curDirPath : string;
  m_recordDir : string;
  m_prevDirPath : string;
  m_prevFilename : string;
  m_procSize : Z * Z;
  m_curStartMs : Z;
  m_curLastMs : Z;
  m_recordInMemory : bool;
  m_clipManager : bool;
  m_moveFailedFn : bool;
  m_locationName : string
}.

(** What the outside sees the session and its mover do. *)
Inductive Event :=
| FlushOutput
| FreeStreamData
| FreeFrameData
| KillableCallback
| ThreadStart (job : ThreadedFileMover)
| EnsureDir (targetFolder : string)
| MoveFile (inMemory : bool) (src dst : string) (ok : bool)
| MoveFailedFn (relPath : string)
| ThreadRaised
| ThreadEnd
| ThreadJoin
| AddClip (relPath locationName : string) (startMs lastMs : Z)
          (prevFile : string) (w h : Z).

(** The fields [_initVariables] sets. *)
Record Vars := mkVars {
  _stream : option Stream;
  isRunning : bool;
  _prevFilename : string;
  _prevDirPath : string;
  _curFilePath : string;
  _curFilename : string;
  _curDirPath : string;
  _curStartMs : Z;
  _curLastMs : Z;
  _isMmapLargeView : Z;
  _mmapViewWidth : Z;
  _mmapViewHeight : Z;
  _mmapViewFps : Z
}.

Record StreamReader := mkStreamReader {
  locationName : string;
  _clipManager : bool;
  _record : bool;
  _recordDir : string;
  _storageDir : string;
  _configDir : string;
  _moveFailedFn : bool;
  _recordInMemory : bool;
  _cachedProcSize : Z * Z;
  _moverThread : option ThreadedFileMover;
  vars : Vars
}.

(** The world around one session: the log of events, newest first, and what
    it will answer.  [alive_q] holds the answers of the coming
    [isAlive()] calls, [move_q] the outcomes of the coming file moves; an
    empty queue answers "finished" and "moved". *)
Record World := mkWorld {
  log : list Event;
  alive_q : list bool;
  move_q : list bool
}.

Record State := mkState {
  self : StreamReader;
  world : World
}.

Definition emit (es : list Event) (w : World) : World :=
  mkWorld (rev es ++ log w) (alive_q w) (move_q w).

Definition ask_alive (w : World) : bool * World :=
  match alive_q w with
  | [] => (false, w)
  | a :: q => (a, mkWorld (log w) q (move_q w))
  end.

Definition ask_move (w : World) : bool * World :=
  match move_q w with
  | [] => (true, w)
  | a :: q => (a, mkWorld (log w) (alive_q w) q)
  end.

(** The log in the order things happened. *)
Definition history (s : State) : list Event := rev (log (world s)).

Definition set_vars (v : Vars) (o : StreamReader) : StreamReader :=
  mkStreamReader (locationName o) (_clipManager o) (_record o) (_recordDir o)
    (_storageDir o) (_configDir o) (_moveFailedFn o) (_recordInMemory o)
    (_cachedProcSize o) (_moverThread o) v.

Definition set_moverThread (t : option ThreadedFileMover) (o : StreamReader) :=
  mkStreamReader (locationName o) (_clipManager o) (_record o) (_recordDir o)
    (_storageDir o) (_configDir o) (_moveFailedFn o) (_recordInMemory o)
    (_cachedProcSize o) t (vars o).

Definition set_cachedProcSize (p : Z * Z) (o : StreamReader) :=
  mkStreamReader (locationName o) (_clipManager o) (_record o) (_recordDir o)
    (_storageDir o) (_configDir o) (_moveFailedFn o) (_recordInMemory o)
    p (_moverThread o) (vars o).

Definition set_recordInMemory (b : bool) (o : StreamReader) :=
  mkStreamReader (locationName o) (_clipManager o) (_record o) (_recordDir o)
    (_storageDir o) (_configDir o) (_moveFailedFn o) b
    (_cachedProcSize o) (_moverThread o) (vars o).

Definition set_isRunning (b : bool) (v : Vars) : Vars :=
  mkVars (_stream v) b (_prevFilename v) (_prevDirPath v) (_curFilePath v)
    (_curFilename v) (_curDirPath v) (_curStartMs v) (_curLastMs v)
    (_isMmapLargeView v) (_mmapViewWidth v) (_mmapViewHeight v)
    (_mmapViewFps v).

Definition set_stream (st : option Stream) (v : Vars) : Vars :=
  mkVars st (isRunning v) (_prevFilename v) (_prevDirPath v) (_curFilePath v)
    (_curFilename v) (_curDirPath v) (_curStartMs v) (_curLastMs v)
    (_isMmapLargeView v) (_mmapViewWidth v) (_mmapViewHeight v)
    (_mmapViewFps v).

Definition set_curFilePath (p : string) (v : Vars) : Vars :=
  mkVars (_stream v) (isRunning v) (_prevFilename v) (_prevDirPath v) p
    (_curFilename v) (_curDirPath v) (_curStartMs v) (_curLastMs v)
    (_isMmapLargeView v) (_mmapViewWidth v) (_mmapViewHeight v)
    (_mmapViewFps v).

Definition set_curLastMs (t : Z) (v : Vars) : Vars :=
  mkVars (_stream v) (isRunning v) (_prevFilename v) (_prevDirPath v)
    (_curFilePath v) (_curFilename v) (_curDirPath v) (_curStartMs v) t
    (_isMmapLargeView v) (_mmapViewWidth v) (_mmapViewHeight v)
    (_mmapViewFps v).

(** [StreamReader._initVariables] *)
Definition initial_vars : Vars :=
  mkVars None false "" "" "" "" "" 0 0 0 0 0 0.

Definition _initVariables (s : State) : State :=
  mkState (set_vars initial_vars (self s)) (world s).

(** [StreamReader.__init__]; the two directories are taken as the
    constructor leaves them (absolute, with the trailing separator). *)
Definition init (name : string) (clipManager : bool)
    (recordDir storageDir configDir : string) (record : bool)
    (moveFailedCallback : bool) (w : World) : State :=
  mkState
    (mkStreamReader name clipManager record recordDir storageDir configDir
       moveFailedCallback false (0, 0) None initial_vars)
    w.

(** [StreamReader.getProcSize] *)
Definition getProcSize (s : State) : (Z * Z) * State :=
  let o := self s in
  match isRunning (vars o), _stream (vars o) with
  | true, Some st =>
      let p := (get_proc_width st, get_proc_height st) in
      (p, mkState (set_cachedProcSize p o) (world s))
  | _, _ => (_cachedProcSize o, s)
  end.

(** [StreamReader.flush] *)
Definition flush (msNeeded : option Z) (s : State) : State :=
  let v := vars (self s) in
  match _stream v with
  | Some _ =>
      if isRunning v
         && match msNeeded with
            | None => true
            | Some m => m >=? _curStartMs v
            end
      then mkState (self s) (emit [FlushOutput] (world s))
      else s
  | None => s
  end.

(** [ThreadedFileMover.__init__]: the copy of the owner's fields;
    [owner.getProcSize()] may refresh the owner's cached size. *)
Definition mover_init (s : State) : ThreadedFileMover * State :=
  let '(procSize, s1) := getProcSize s in
  let o := self s1 in
  let v := vars o in
  (mkMover (_curFilename v) (_storageDir o) (_curDirPath v) (_recordDir o)
     (_prevDirPath v) (_prevFilename v) procSize (_curStartMs v)
     (_curLastMs v) (_recordInMemory o) (_clipManager o) (_moveFailedFn o)
     (locationName o),
   s1).

(** The path [run] hands to the failure callback. *)
Definition failed_path (t : ThreadedFileMover) : string :=
  PyStr.join (m_curDirPath t) (m_curFilename t).

(** The path [addFileToDb] commits under. *)
Definition committed_path (t : ThreadedFileMover) : string :=
  PyStr.join (m_curDirPath t) (PyStr.lower (m_curFilename t)).

(** [ThreadedFileMover.run], given whether the move works.  Both
    [shutil.move] and [move_recorded_file] end in the same two ways; a
    failed [makedirs] is only logged.  Calling a [_moveFailedFn] that is
    [None] raises out of the handler and ends the thread. *)
Definition run (t : ThreadedFileMover) (moved : bool) : list Event :=
  if negb (PyStr.truthy (m_curFilename t)) || negb (m_clipManager t)
  then [ThreadEnd]
  else
    let targetFolder := PyStr.join (m_storageDir t) (m_curDirPath t) in
    let src := PyStr.join (m_recordDir t) (m_curFilename t) in
    let dst := PyStr.join targetFolder (PyStr.lower (m_curFilename t)) in
    [EnsureDir targetFolder; MoveFile (m_recordInMemory t) src dst moved]
    ++ (if moved then []
        else if m_moveFailedFn t then [MoveFailedFn (failed_path t)]
        else [ThreadRaised])
    ++ [ThreadEnd].

(** Does [run] reach the move at all (it returns at once otherwise). *)
Definition moves (t : ThreadedFileMover) : bool :=
  PyStr.truthy (m_curFilename t) && m_clipManager t.

(** [ThreadedFileMover.addFileToDb]: the [addClip] call (its two constant
    arguments left out). *)
Definition addFileToDb (t : ThreadedFileMover) : Event :=
  let prevFile := if PyStr.truthy (m_prevFilename t)
                  then PyStr.join (m_prevDirPath t) (m_prevFilename t)
                  else "" in
  AddClip (committed_path t) (m_locationName t) (m_curStartMs t)
          (m_curLastMs t) prevFile (fst (m_procSize t)) (snd (m_procSize t)).

(** The thread's own steps enter the log when the session learns that the
    thread has ended: they took place between [ThreadStart] and then. *)
Definition thread_ran (t : ThreadedFileMover) (w : World) : World :=
  if moves t
  then let '(moved, w1) := ask_move w in emit (run t moved) w1
  else emit (run t true) w.

(** [StreamReader._finalizeMoverThread] *)
Definition _finalizeMoverThread (blockIfRunning : bool) (s : State) : State :=
  match _moverThread (self s) with
  | None => s
  | Some t =>
      let '(alive, w1) := ask_alive (world s) in
      if alive && negb blockIfRunning then mkState (self s) w1
      else
        let w2 := thread_ran t w1 in
        let w3 := if alive then emit [ThreadJoin] w2 else w2 in
        mkState (set_moverThread None (self s)) (emit [addFileToDb t] w3)
  end.

(** [StreamReader._terminateMoverThread] *)
Definition _terminateMoverThread (s : State) : State :=
  _finalizeMoverThread true s.

(** [StreamReader._addFileToDb] *)
Definition _addFileToDb (s : State) : State :=
  if negb (PyStr.truthy (_curFilename (vars (self s))))
     || negb (_clipManager (self s))
  then s
  else
    let s1 := _terminateMoverThread s in
    let '(t, s2) := mover_init s1 in
    mkState (set_moverThread (Some t) (self s2))
            (emit [ThreadStart t] (world s2)).

(** [StreamReader.close] *)
Definition close (killableCallback : bool) (s : State) : State :=
  let s := flush None s in
  let s := mkState (set_vars (set_isRunning false (vars (self s))) (self s))
                   (world s) in
  let s := match _stream (vars (self s)) with
           | Some _ => mkState (self s) (emit [FreeStreamData] (world s))
           | None => s
           end in
  let s := if PyStr.truthy (_curFilename (vars (self s)))
           then _addFileToDb s else s in
  let s := _terminateMoverThread s in
  let s := if killableCallback
           then mkState (self s) (emit [KillableCallback] (world s))
           else s in
  _initVariables s.

(** [StreamReader.open].  Of [extras] only the record-in-memory switch
    lives on in the object; [native] is what [open_stream] returned. *)
Definition open (recordInMemory : bool) (native : option Stream) (s : State)
  : bool * State :=
  let s := match _stream (vars (self s)) with
           | Some _ => close false s
           | None => s
           end in
  let o := set_recordInMemory recordInMemory (self s) in
  let v := set_stream native (vars o) in
  let v := match native with
           | Some _ => set_isRunning true v
           | None => v
           end in
  (isRunning v, mkState (set_vars v o) (world s)).

(** The rollover branch of [getNewFrame]. *)
Definition rollover (f : StreamFrameStruct) (s : State) : State :=
  let s := mkState (set_vars (set_curFilePath (sf_filename f) (vars (self s)))
                             (self s)) (world s) in
  let s := _addFileToDb s in
  let v := vars (self s) in
  let curFilename := PyStr.split_tail (_curFilePath v) in
  let curDirPath :=
    PyStr.lower (PyStr.join (locationName (self s))
                            (PyStr.take 5 curFilename)) in
  mkState
    (set_vars
       (mkVars (_stream v) (isRunning v) (_curFilename v) (_curDirPath v)
          (_curFilePath v) curFilename curDirPath (sf_ms f) (_curLastMs v)
          (_isMmapLargeView v) (_mmapViewWidth v) (_mmapViewHeight v)
          (_mmapViewFps v))
       (self s))
    (world s).

(** [StreamReader.getNewFrame]; [p] is what the native poll gives if it is
    made.  After [free_frame_data(byref(result))] the pointer is NULL, so a
    stopped stream returns [None] as the comment in the source says. *)
Definition getNewFrame (p : Poll) (s : State) : option StreamFrameStruct * State :=
  let v := vars (self s) in
  match _stream v with
  | None => (None, s)
  | Some _ =>
      if negb (isRunning v) then (None, s)
      else
        let running := match p with
                       | NoFrame r => r
                       | Frame f => sf_isRunning f
                       end in
        if (running =? 0)%Z then
          let s := close false s in
          (None,
           match p with
           | Frame _ => mkState (self s) (emit [FreeFrameData] (world s))
           | NoFrame _ => s
           end)
        else
          match p with
          | NoFrame _ => (None, s)
          | Frame f =>
              let s := if _clipManager (self s)
                          && negb (String.eqb (sf_filename f) (_curFilePath v))
                       then rollover f s else s in
              let s := mkState (set_vars (set_curLastMs (sf_ms f)
                                            (vars (self s))) (self s))
                               (world s) in
              let s := _finalizeMoverThread false s in
              (Some f, s)
          end
  end.

(** *** Runs of a session *)

Inductive Op :=
| OOpen (recordInMemory : bool) (native : option Stream)
| OClose (killableCallback : bool)
| OGetNewFrame (p : Poll)
| OFlush (msNeeded : option Z)
| OGetProcSize.

Definition exec (op : Op) (s : State) : State :=
  match op with
  | OOpen m n => snd (open m n s)
  | OClose k => close k s
  | OGetNewFrame p => snd (getNewFrame p s)
  | OFlush m => flush m s
  | OGetProcSize => snd (getProcSize s)
  end.

Definition execs (ops : list Op) (s : State) : State :=
  fold_left (fun s op => exec op s) ops s.

(** Polling through a list of native results. *)
Definition polls (ps : list Poll) (s : State) : State :=
  fold_left (fun s p => snd (getNewFrame p s)) ps s.

(** *** Vocabulary for reading a run *)

(** The frames a run of polls hands to the segment tracker: those that come
    before the adapter first reports that it has stopped. *)
Definition stops (p : Poll) : bool :=
  match p with
  | NoFrame r => (r =? 0)%Z
  | Frame f => (sf_isRunning f =? 0)%Z
  end.

Fixpoint delivered (ps : list Poll) : list StreamFrameStruct :=
  match ps with
  | [] => []
  | p :: q =>
      if stops p then []
      else match p with
           | Frame f => f :: delivered q
           | NoFrame _ => delivered q
           end
  end.

(** Frames cut into segments: a segment is a maximal run of frames with
    one file path, kept as the path with the stamps of its first and last
    frame.  [segs p a b fs] goes on from an open segment. *)
Fixpoint segs (p : string) (a b : Z) (fs : list StreamFrameStruct)
  : list (string * Z * Z) :=
  match fs with
  | [] => [(p, a, b)]
  | f :: r =>
      if String.eqb (sf_filename f) p then segs p a (sf_ms f) r
      else (p, a, b) :: segs (sf_filename f) (sf_ms f) (sf_ms f) r
  end.

Definition segments (fs : list StreamFrameStruct) : list (string * Z * Z) :=
  match fs with
  | [] => []
  | f :: r => segs (sf_filename f) (sf_ms f) (sf_ms f) r
  end.

(** How often the file path changes from one frame to the next;
    [changes p fs] counts from a frame with path [p] on. *)
Fixpoint changes (p : string) (fs : list StreamFrameStruct) : nat :=
  match fs with
  | [] => 0
  | f :: r =>
      (if String.eqb (sf_filename f) p then 0 else 1)
      + changes (sf_filename f) r
  end.

Definition transitions (fs : list StreamFrameStruct) : nat :=
  match fs with
  | [] => 0
  | f :: r => changes (sf_filename f) r
  end.

(** The segments of the frames to come, seen from a tracker that has no
    segment yet or has one open. *)
Definition segs_from (cur : option (string * Z * Z))
    (fs : list StreamFrameStruct) : list (string * Z * Z) :=
  match cur with
  | None => segments fs
  | Some (p, a, b) => segs p a b fs
  end.

(** The jobs submitted in a history, oldest first. *)
Fixpoint submitted (h : list Event) : list ThreadedFileMover :=
  match h with
  | [] => []
  | ThreadStart t :: r => t :: submitted r
  | _ :: r => submitted r
  end.

(** File name, start and end stamp of a job, and of a segment. *)
Definition job_key (t : ThreadedFileMover) : string * Z * Z :=
  (m_curFilename t, m_curStartMs t, m_curLastMs t).

Definition segment_key (g : string * Z * Z) : string * Z * Z :=
  let '(p, a, b) := g in (PyStr.split_tail p, a, b).

(** A reported path names a file: something follows its last slash. *)
Definition names_file (f : StreamFrameStruct) : Prop :=
  PyStr.split_tail (sf_filename f) <> "".

(** Counting in a history. *)
Definition is_start (e : Event) : bool :=
  match e with ThreadStart _ => true | _ => false end.

Definition is_end (e : Event) : bool :=
  match e with ThreadEnd => true | _ => false end.

Definition is_commit (e : Event) : bool :=
  match e with AddClip _ _ _ _ _ _ _ => true | _ => false end.

Definition count (p : Event -> bool) (h : list Event) : nat :=
  List.length (filter p h).

(** The mover slot as a history shows it: no job, a job whose thread runs,
    a job whose thread has ended and whose commit is due. *)
Inductive Slot := Idle | Running | Ended.

(** One event seen from a slot; [None] when it could not happen there. *)
Definition slot_step (st : option Slot) (e : Event) : option Slot :=
  match st with
  | None => None
  | Some q =>
      match e, q with
      | ThreadStart _, Idle => Some Running
      | ThreadStart _, _ => None
      | (EnsureDir _ | MoveFile _ _ _ _ | MoveFailedFn _ | ThreadRaised),
        Running => Some Running
      | (EnsureDir _ | MoveFile _ _ _ _ | MoveFailedFn _ | ThreadRaised), _ =>
          None
      | ThreadEnd, Running => Some Ended
      | ThreadEnd, _ => None
      | ThreadJoin, Ended => Some Ended
      | ThreadJoin, _ => None
      | AddClip _ _ _ _ _ _ _, Ended => Some Idle
      | AddClip _ _ _ _ _ _ _, _ => None
      | (FlushOutput | FreeStreamData | FreeFrameData | KillableCallback), _ =>
          Some q
      end
  end.

Definition slot_after (h : list Event) : option Slot :=
  fold_left slot_step h (Some Idle).

(** The slot the object is in. *)
Definition slot_of (o : StreamReader) : Slot :=
  match _moverThread o with
  | Some _ => Running
  | None => Idle
  end.

(** [Tracking s cur]: [s] is an open, running session with a clip manager
    whose segment fields stand for [cur], the open segment if there is
    one. *)
Definition Tracking (s : State) (cur : option (string * Z * Z)) : Prop :=
  _clipManager (self s) = true
  /\ _stream (vars (self s)) <> None
  /\ isRunning (vars (self s)) = true
  /\ match cur with
     | None =>
         _curFilePath (vars (self s)) = "" /\ _curFilename (vars (self s)) = ""
     | Some (p, a, b) =>
         _curFilePath (vars (self s)) = p
         /\ _curFilename (vars (self s)) = PyStr.split_tail p
         /\ PyStr.split_tail p <> ""
         /\ _curStartMs (vars (self s)) = a
         /\ _curLastMs (vars (self s)) = b
     end.

(** The jobs submitted so far. *)
Definition jobs_of (s : State) : list ThreadedFileMover :=
  submitted (history s).

(** Whether the move of the job in the slot works, as the world will say
    when the session next looks at the thread. *)
Definition move_outcome (t : ThreadedFileMover) (s : State) : bool :=
  if moves t then fst (ask_move (snd (ask_alive (world s)))) else true.

(** What the session sees of the thread when it looks. *)
Definition seen_alive (s : State) : bool := fst (ask_alive (world s)).

(** The history agrees with the slot of the object. *)
Definition Agrees (s : State) : Prop :=
  slot_after (history s) = Some (slot_of (self s)).

(** An event of the session itself, which leaves the slot alone. *)
Definition aside (e : Event) : bool :=
  match e with
  | FlushOutput | FreeStreamData | FreeFrameData | KillableCallback => true
  | _ => false
  end.

(** *** A camera session to run *)

Definition cam (moves : list bool) : State :=
  snd (open false (Some (mkStream 320 240))
         (init "Cam" true "/rec/Cam/" "/store/" "/cfg" true true
               (mkWorld [] [] moves))).

Definition clip1 (t : Z) : Poll := Frame (mkFrame t "/rec/Cam/Clip001.mp4" 1).
Definition clip2 (t : Z) : Poll := Frame (mkFrame t "/rec/Cam/Clip002.mp4" 1).

(** The job of [Clip001.mp4] recorded from 0 to 100. *)
Definition job1 : ThreadedFileMover :=
  mkMover "Clip001.mp4" "/store/" "cam/clip0" "/rec/Cam/" "" "" (320, 240)
          0 100 false true true "Cam".

(** A session in its first segment, started at 100. *)
Definition cam_at_100 : State := polls [clip1 100; clip1 120] (cam []).

(** The session of the witness and counterexample on C1: two frames of
    [Clip001.mp4], then the first frame of [Clip002.mp4], and the move of
    the first file fails.  When that third frame has been handled: *)
Definition after_rollover : State :=
  polls [clip1 0; clip1 100; clip2 200] (cam [false]).

(** The same session just after the job was started, before the session
    has looked at the thread. *)
Definition job1_started : State :=
  _addFileToDb (polls [clip1 0; clip1 100] (cam [false])).

(** A session in which the mover is still alive each time the session
    looks, so that the next submission and the close have to wait. *)
Definition slow_mover_run : State :=
  execs [OOpen false (Some (mkStream 320 240));
         OGetNewFrame (clip1 0); OGetNewFrame (clip1 100);
         OGetNewFrame (clip2 200); OGetNewFrame (clip2 300);
         OGetNewFrame (clip1 400); OClose false]
        (init "Cam" true "/rec/Cam/" "/store/" "/cfg" true true
              (mkWorld [] [true; true; true; true; true] [false])).

(** Three frames of one file and a first frame of the next, with a poll
    in between that brings nothing. *)
Definition two_files : list Poll :=
  [clip1 0; clip1 100; NoFrame 1; clip1 200; clip2 300].

End StreamReader_py.

(* ================================================================== *)
(** ** Whole sessions of a clip reader *)

Module ClipSession.

Import ClipReader_py.
Local Open Scope Z_scope.

Section Session.

Context {L : ClipLib}.

(** What a client can ask of a [ClipReader]: to open a clip, to close it,
    or one of the calls on an open clip. *)
Inductive Request :=
| ROpen (filename : string) (w h fMs : Z) (ex : option Extras)
| RClose
| RCall (c : Call).

Definition request (r : Request) (s : State) : State :=
  match r with
  | ROpen f w h m ex => snd (open f w h m ex s)
  | RClose => close s
  | RCall c => snd (call c s)
  end.

Definition requests (l : list Request) (s : State) : State :=
  fold_left (fun s r => request r s) l s.

(** How many of the three reader slots are filled. *)
Definition filled (r : option FfMpegClipReader) : nat :=
  match r with Some _ => 1 | None => 0 end.

Definition live (o : ClipReader) : nat :=
  filled (_firstReader o) + filled (_randReader o) + filled (_seqReader o).

(** A reader in a slot holds a native handle. *)
Definition holds_handle (r : option FfMpegClipReader) : Prop :=
  match r with
  | Some x => _clip x <> None
  | None => True
  end.

(** The state of the slots and of the library's counters that every
    session keeps: filled slots hold handles, the handles opened and not
    yet freed are those in the slots, and the first slot is only filled
    while the other two are empty. *)
Definition Accounted (s : State) : Prop :=
  holds_handle (_firstReader (self s))
  /\ holds_handle (_randReader (self s))
  /\ holds_handle (_seqReader (self s))
  /\ handles_opened (lib s) = (handles_freed (lib s) + live (self s))%nat
  /\ (_firstReader (self s) <> None ->
      _randReader (self s) = None /\ _seqReader (self s) = None).

(** The two positions agree. *)
Definition Synced (s : State) : Prop :=
  _readerPrevMs (self s) = prevMs (self s).

End Session.

End ClipSession.

(* ================================================================== *)
(** ** Reading the jobs of a stream session *)

Module StreamSession.

Import StreamReader_py.
Local Open Scope Z_scope.
Local Open Scope string_scope.

(** The commits of a history, oldest first. *)
Definition commits (h : list Event) : list Event := filter is_commit h.

(** The job in the slot, if any. *)
Definition pending (o : StreamReader) : list ThreadedFileMover :=
  match _moverThread o with
  | Some t => [t]
  | None => []
  end.

(** The session with the slow mover before its close. *)
Definition slow_mover_polls : State :=
  execs [OOpen false (Some (mkStream 320 240));
         OGetNewFrame (clip1 0); OGetNewFrame (clip1 100);
         OGetNewFrame (clip2 200); OGetNewFrame (clip2 300);
         OGetNewFrame (clip1 400)]
        (init "Cam" true "/rec/Cam/" "/store/" "/cfg" true true
              (mkWorld [] [true; true; true; true; true] [false])).

(** The predecessor path a job commits: the fifth argument of
    [addClip]. *)
Definition prev_file (t : ThreadedFileMover) : string :=
  if PyStr.truthy (m_prevFilename t)
  then PyStr.join (m_prevDirPath t) (m_prevFilename t)
  else "".

(** What [getProcSize] answers on an object. *)
Definition proc_size_now (o : StreamReader) : Z * Z :=
  match isRunning (vars o), _stream (vars o) with
  | true, Some st => (get_proc_width st, get_proc_height st)
  | _, _ => _cachedProcSize o
  end.

(** The mover that [ThreadedFileMover(owner)] makes of an object. *)
Definition snapshot (o : StreamReader) : ThreadedFileMover :=
  mkMover (_curFilename (vars o)) (_storageDir o) (_curDirPath (vars o))
    (_recordDir o) (_prevDirPath (vars o)) (_prevFilename (vars o))
    (proc_size_now o) (_curStartMs (vars o)) (_curLastMs (vars o))
    (_recordInMemory o) (_clipManager o) (_moveFailedFn o) (locationName o).

(** Jobs in a row, each naming as its predecessor the path of the one
    before, spelled as that one's file was reported; [last] is the job
    before the first of the list. *)
Fixpoint chain (last : option ThreadedFileMover) (js : list ThreadedFileMover)
  : Prop :=
  match js with
  | [] => True
  | t :: r =>
      prev_file t = match last with
                    | None => ""
                    | Some t0 => failed_path t0
                    end
      /\ chain (Some t) r
  end.

(** The predecessor fields of a session stand for the job [last]. *)
Definition Linked (s : State) (last : option ThreadedFileMover) : Prop :=
  match last with
  | None => _prevFilename (vars (self s)) = ""
  | Some t =>
      _prevFilename (vars (self s)) = m_curFilename t
      /\ _prevDirPath (vars (self s)) = m_curDirPath t
      /\ m_curFilename t <> ""
  end.

(** Two objects made with the same constructor arguments and opened with
    the same record-in-memory switch. *)
Definition same_config (o o' : StreamReader) : Prop :=
  locationName o' = locationName o
  /\ _clipManager o' = _clipManager o
  /\ _record o' = _record o
  /\ _recordDir o' = _recordDir o
  /\ _storageDir o' = _storageDir o
  /\ _configDir o' = _configDir o
  /\ _moveFailedFn o' = _moveFailedFn o
  /\ _recordInMemory o' = _recordInMemory o.

(** The object with its mover slot emptied and its stream marked as not
    running: what [close] makes a snapshot of. *)
Definition stopped (o : StreamReader) : StreamReader :=
  set_vars (set_isRunning false (vars o)) o.

End StreamSession.

(* ================================================================== *)
(** ** VideoLibUtils.py: the timestamp flags *)

Module VideoLibUtils_py.

Local Open Scope Z_scope.
Local Open Scope string_scope.

(** An [extras] dictionary as far as conditions go: its keys, each with
    the truth value of what is stored under it. *)
Definition Truths := list (string * bool).

(** [extras.get(k, False)] taken as a condition. *)
Fixpoint get_truth (k : string) (d : Truths) : bool :=
  match d with
  | [] => false
  | (k', v) :: r => if String.eqb k k' then v else get_truth k r
  end.

(** [class TSOption] *)
Definition ENABLE : Z := 1.
Definition USE_12HR_TIME : Z := 2.
Definition USE_US_DATE : Z := 4.

(** [getTimestampFlags] *)
Definition getTimestampFlags (extras : option Truths) : Z :=
  match extras with
  | None => 0
  | Some e =>
      let enableTimestamps :=
        if get_truth "enableTimestamps" e then ENABLE else 0 in
      if negb (enableTimestamps =? 0)%Z then
        let enableTimestamps :=
          if get_truth "use12HrTime" e
          then Z.lor enableTimestamps USE_12HR_TIME else enableTimestamps in
        if get_truth "useUSDate" e
        then Z.lor enableTimestamps USE_US_DATE else enableTimestamps
      else enableTimestamps
  end.

(** *** The debug configuration *)

Definition _kEnableFFmpegLogging : string := "Enable FFmpeg Logging".
Definition _kKeepManyLargeLogFilesAround : string :=
  "Keep Many Large Log Files Around".
Definition _kLogLevelTrace : string := "Trace".
Definition _kLogLevelDebug : string := "Debug".
Definition _kLogLevelInfo : string := "Info".
Definition _kLogLevelWarning : string := "Warning".
Definition _kLogLevelError : string := "Error".

(** What [SetVideoLibDebugConfig] asks of the library and of the
    logging utilities. *)
Inductive LibCall :=
| FfmpegLogResume
| FfmpegLogPause
| SetModuleTraceLevel (name : string) (level : Z)
| SetLogParams (level : string) (size count : Z).

(** The local variables of [SetVideoLibDebugConfig], and the calls made
    so far, oldest first. *)
Record Locals := mkLocals {
  logLevel : string;
  logCount : Z;
  logSize : Z;
  enableAllTracing : bool;
  called : list LibCall
}.

Definition call (c : LibCall) (a : Locals) : Locals :=
  mkLocals (logLevel a) (logCount a) (logSize a) (enableAllTracing a)
           (called a ++ [c])%list.

(** The body of [for key in dict]; of a value only its truth is used. *)
Definition loop_body (a : Locals) (item : string * bool) : Locals :=
  let (key, val) := item in
  if key =? _kEnableFFmpegLogging then
    if val then call FfmpegLogResume a else call FfmpegLogPause a
  else if key =? _kKeepManyLargeLogFilesAround then
    mkLocals (logLevel a) 20 (20 * 1024 * 1024) (enableAllTracing a)
             (called a)
  else if (key =? _kLogLevelTrace) && val then
    mkLocals key (logCount a) (logSize a) true (called a)
  else if existsb (String.eqb key)
            [_kLogLevelInfo; _kLogLevelError; _kLogLevelWarning;
             _kLogLevelDebug] && val then
    mkLocals key (logCount a) (logSize a) (enableAllTracing a) (called a)
  else if negb (key =? "") && negb (enableAllTracing a) then
    call (SetModuleTraceLevel key (if val then 100 else 0)) a
  else a.

(** [SetVideoLibDebugConfig]: [dict] is the dictionary in the order the
    loop meets its keys, [modules] what [GetVideolibModulesList] gives. *)
Definition SetVideoLibDebugConfig (modules : list string)
    (dict : list (string * bool)) : list LibCall :=
  let a := fold_left loop_body dict
             (mkLocals _kLogLevelInfo (-1) (-1) false []) in
  (called a
   ++ (if enableAllTracing a
       then map (fun item => SetModuleTraceLevel item 100) modules
       else [])
   ++ [SetLogParams (logLevel a) (logSize a) (logCount a)])%list.

(** [dict[k] = v] *)
Fixpoint dict_set (k : string) (v : bool) (d : list (string * bool))
  : list (string * bool) :=
  match d with
  | [] => [(k, v)]
  | (k', v') :: r =>
      if k =? k' then (k, v) :: r else (k', v') :: dict_set k v r
  end.

(** [s.split(',')] *)
Fixpoint split_comma (s : string) : list string :=
  match s with
  | EmptyString => [""]
  | String c r =>
      if Ascii.eqb c ","%char then "" :: split_comma r
      else match split_comma r with
           | [] => [String c ""]
           | h :: t => String c h :: t
           end
  end.

(** [s.strip()] of a [str]: blanks, tabs, line ends, vertical tabs and
    form feeds go from both ends. *)
Definition is_space (c : ascii) : bool :=
  let n := nat_of_ascii c in
  Nat.eqb n 32 || (Nat.leb 9 n && Nat.leb n 13).

Fixpoint lstrip (s : string) : string :=
  match s with
  | EmptyString => EmptyString
  | String c r => if is_space c then lstrip r else s
  end.

Fixpoint rstrip (s : string) : string :=
  match s with
  | EmptyString => EmptyString
  | String c r =>
      match rstrip r with
      | EmptyString => if is_space c then EmptyString else String c ""
      | r' => String c r'
      end
  end.

Definition strip (s : string) : string := rstrip (lstrip s).

(** The dictionary [SetVideoLibDebugConfigSimple] hands to
    [SetVideoLibDebugConfig].  The order of its entries here is the order
    they were put in, which need not be the order a loop meets them. *)
Definition simple_dict (enableFfmpegLogging : bool)
    (modules : option string) (get_module_names : list string)
  : list (string * bool) :=
  let dict :=
    [(_kEnableFFmpegLogging, enableFfmpegLogging);
     (_kLogLevelTrace, match modules with None => true | Some _ => false end);
     (_kLogLevelDebug, match modules with None => false | Some _ => true end);
     (_kKeepManyLargeLogFilesAround, true)] in
  match modules with
  | None => dict
  | Some modules =>
      let modules := PyStr.lower modules in
      let modulesList := split_comma modules in
      let existingModules := map PyStr.lower get_module_names in
      fold_left
        (fun dict item =>
           let item := strip item in
           if existsb (String.eqb item) existingModules
           then dict_set item true dict else dict)
        modulesList dict
  end.

End VideoLibUtils_py.

(* ================================================================== *)
(** ** ClipUtils.py: making clips by remuxing or transcoding *)

Module ClipUtils_py.

Import VideoLibUtils_py.
Local Open Scope Z_scope.
Local Open Scope string_scope.

(** [_kCreateClipError = c_uint64(-1).value] *)
Definition _kCreateClipError : Z := 2 ^ 64 - 1.

(** A native result read as [c_uint64]. *)
Definition c_uint64 (z : Z) : Z := z mod 2 ^ 64.

Section Clips.

(** The type of the one [c_float] field of the codec configuration. *)
Context {F : Type}.

(** [CodecConfig] of StreamReader.py. *)
Record CodecConfig := mkCodecConfig {
  bit_rate_multiplier : F;
  max_bit_rate : Z;
  gop_size : Z;
  keyint_min : Z;
  preset : string;
  max_width : Z;
  max_height : Z;
  sv_profile : Z
}.

(** The [extras] dictionary of this module: the keys it reads, at the
    types its callers store under them.  [boxList], [format], the
    quality profile, [fps] and [maxSize] are [None] when the key is not
    there; the keys read as conditions are in [conditions]. *)
Record ClipExtras := mkClipExtras {
  boxList : option (list (Z * string));
  format : option string;
  qualityProfile : option Z;
  fps : option Z;
  maxSize : option (Z * Z);
  conditions : Truths
}.

(** [{}] *)
Definition no_extras : ClipExtras := mkClipExtras None None None None None [].

Definition set_qualityProfile (q : Z) (e : ClipExtras) : ClipExtras :=
  mkClipExtras (boxList e) (format e) (Some q) (fps e) (maxSize e)
               (conditions e).

(** [extras.get(k, d)] *)
Definition get {A : Type} (v : option A) (d : A) : A :=
  match v with Some x => x | None => d end.

(** What [create_clip] is called with. *)
Record CreateArgs := mkCreateArgs {
  ca_files : list (string * Z);
  ca_firstMs : Z;
  ca_lastMs : Z;
  ca_newFile : string;
  ca_config : CodecConfig;
  ca_enableTimestamps : Z;
  ca_boxes : list (Z * string);
  ca_fmt : string;
  ca_fps : Z
}.

(** What [fast_create_clip] is called with. *)
Record FastArgs := mkFastArgs {
  fa_files : list (string * Z);
  fa_firstMs : Z;
  fa_lastMs : Z;
  fa_newFile : string;
  fa_fmt : string
}.

Inductive NativeCall :=
| CreateClip (a : CreateArgs)
| FastCreateClip (a : FastArgs).

(** What a call gives back: its answer, the native call it made and the
    [extras] dictionary as it leaves it. *)
Record Outcome := mkOutcome {
  answer : Z;
  made : NativeCall;
  extras_after : ClipExtras
}.

(** The native library: what each call returns. *)
Variable videolib : NativeCall -> Z.

(** [-1] for the error value, else the value. *)
Definition result_of (res : Z) : Z :=
  if (res =? _kCreateClipError)%Z then -1 else res.

(** [createClip]; [config] is what [getCodecConfig(configDir)] read. *)
Definition createClip (origFiles : list (string * Z)) (newFile : string)
    (firstMs lastMs : Z) (config : CodecConfig) (extras : ClipExtras)
  : Outcome :=
  let boxes := get (boxList extras) [] in
  let enableTimestamps := getTimestampFlags (Some (conditions extras)) in
  let profile := get (qualityProfile extras) (sv_profile config) in
  let '(mw, mh) := match maxSize extras with
                   | Some (w, h) => (w, h)
                   | None => (max_width config, max_height config)
                   end in
  let config := mkCodecConfig (bit_rate_multiplier config)
                  (max_bit_rate config) (gop_size config)
                  (keyint_min config) (preset config) mw mh profile in
  let call := CreateClip
                (mkCreateArgs origFiles firstMs lastMs newFile config
                   enableTimestamps boxes (get (format extras) "mp4")
                   (get (fps extras) 0)) in
  mkOutcome (result_of (c_uint64 (videolib call))) call extras.

(** The test at the head of [remuxClip]: does the clip need more than a
    remux. *)
Definition needs_transcoding (extras : ClipExtras) : bool :=
  (0 <? Z.of_nat (List.length (get (boxList extras) [])))%Z
  || get_truth "enableTimestamps" (conditions extras)
  || negb (String.eqb (get (format extras) "mp4") "mp4")
  || negb (get (qualityProfile extras) 0 =? 0)%Z
  || (get (fps extras) 0 >? 0)%Z
  || match maxSize extras with
     | Some (w, h) => negb ((w =? 0)%Z && (h =? 0)%Z)
     | None => false
     end.

(** [remuxClip] *)
Definition remuxClip (origFiles : list (string * Z)) (newFile : string)
    (firstMs lastMs : Z) (config : CodecConfig) (extras : ClipExtras)
  : Outcome :=
  if needs_transcoding extras then
    let extras := match qualityProfile extras with
                  | Some _ => extras
                  | None => set_qualityProfile 5 extras
                  end in
    createClip origFiles newFile firstMs lastMs config extras
  else
    let call := FastCreateClip
                  (mkFastArgs origFiles firstMs lastMs newFile
                     (get (format extras) "mp4")) in
    mkOutcome (result_of (c_uint64 (videolib call))) call extras.

(** [remuxSubClip] *)
Definition remuxSubClip (origFile newFile : string) (firstMs lastMs : Z)
    (config : CodecConfig) : Outcome :=
  remuxClip [(origFile, 0)] newFile firstMs lastMs config no_extras.

(** [createSubClip] *)
Definition createSubClip (origFile newFile : string) (firstMs lastMs : Z)
    (config : CodecConfig) : Outcome :=
  createClip [(origFile, 0)] newFile firstMs lastMs config no_extras.

End Clips.

Arguments CodecConfig : clear implicits.
Arguments ClipExtras : clear implicits.

End ClipUtils_py.

(* ================================================================== *)
(** ** StreamReader.py: cameras, devices and the memory-map parameters *)

Module StreamControls_py.

Import StreamReader_py.
Local Open Scope Z_scope.
Local Open Scope string_scope.

(** *** getLocalCameraNames *)

(** The native camera functions.  [None] is a call that raises; for a
    resolution pair it is also a NULL pointer, whose fields cannot be
    read.  A camera name may be NULL, which [str] turns into ["None"]. *)
Record CameraLib := mkCameraLib {
  get_local_camera_count : option Z;
  get_local_camera_count_without_resolution_cache : option Z;
  get_local_camera_name : nat -> option (option string);
  get_number_of_supported_resolutions_of_local_camera : nat -> option Z;
  get_supported_resolution_pair_of_device : nat -> nat -> option (Z * Z)
}.

(** [str(i)] *)
Definition str_of_nat (i : nat) : string :=
  NilZero.string_of_uint (Nat.to_uint i).

(** The order of Python on pairs of integers. *)
Definition pair_ltb (a b : Z * Z) : bool :=
  (fst a <? fst b)%Z || ((fst a =? fst b)%Z && (snd a <? snd b)%Z).

Definition pair_eqb (a b : Z * Z) : bool :=
  (fst a =? fst b)%Z && (snd a =? snd b)%Z.

(** [sorted(list(set(l)))]: the elements of [l], each once, in rising
    order. *)
Fixpoint insert_pair (p : Z * Z) (l : list (Z * Z)) : list (Z * Z) :=
  match l with
  | [] => [p]
  | q :: r =>
      if pair_ltb p q then p :: l
      else if pair_eqb p q then l
      else q :: insert_pair p r
  end.

Definition sorted_set (l : list (Z * Z)) : list (Z * Z) :=
  fold_right insert_pair [] l.

(** Is a resolution kept: [width >= 320 and height >= 240]. *)
Definition large_enough (p : Z * Z) : bool :=
  (fst p >=? 320)%Z && (snd p >=? 240)%Z.

(** The loop over [j]: a pair that cannot be had empties the list and
    ends the loop. *)
Fixpoint collect_pairs (pair : nat -> option (Z * Z)) (js : list nat)
    (resPairs : list (Z * Z)) : list (Z * Z) :=
  match js with
  | [] => resPairs
  | j :: r =>
      match pair j with
      | None => []
      | Some p =>
          collect_pairs pair r
            (if large_enough p then resPairs ++ [p] else resPairs)
      end
  end.

(** [xrange(0, n)] *)
Definition xrange (n : Z) : list nat := seq 0 (Z.to_nat n).

(** The body of the loop over [i]. *)
Definition camera_entry (lib : CameraLib) (i : nat)
  : string * list (Z * Z) :=
  let name := match get_local_camera_name lib i with
              | Some (Some n) => n
              | Some None => "None"
              | None => "Unknown Device " ++ str_of_nat i
              end in
  let numResPairs :=
    match get_number_of_supported_resolutions_of_local_camera lib i with
    | Some n => n
    | None => 0
    end in
  let resPairs :=
    collect_pairs (get_supported_resolution_pair_of_device lib i)
                  (xrange numResPairs) [] in
  (name, sorted_set resPairs).

(** [getLocalCameraNames] *)
Definition getLocalCameraNames (lib : CameraLib)
  : list (string * list (Z * Z)) :=
  match get_local_camera_count lib with
  | Some n => map (camera_entry lib) (xrange n)
  | None =>
      match get_local_camera_count_without_resolution_cache lib with
      | Some n => map (camera_entry lib) (xrange n)
      | None => []
      end
  end.

(** *** getHardwareDevicesList *)

(** [arr[i]] on a ctypes array; [None] is the [IndexError]. *)
Fixpoint read_all {A : Type} (arr : list A) (ixs : list nat)
  : option (list A) :=
  match ixs with
  | [] => Some []
  | i :: r =>
      match nth_error arr i with
      | None => None
      | Some x =>
          match read_all arr r with
          | Some l => Some (x :: l)
          | None => None
          end
      end
  end.

(** [getHardwareDevicesList]; [count] is what the native call returned
    and [arr] the array of [maxLen = 32] entries as it left it.  [None] is
    the [IndexError] of reading past the array. *)
Definition getHardwareDevicesList (count : Z) (arr : list (option string))
  : option (list (option string)) :=
  if (count >? 0)%Z then read_all arr (xrange count) else Some [].

(** *** The memory-map parameters *)

(** [StreamReader.setMmapParams]: the new state and the call of
    [set_mmap_params] if there is a stream. *)
Definition setMmapParams (isLargeView : bool) (width height fps : Z)
    (s : State) : State * option (Z * Z * Z * Z) :=
  let v := vars (self s) in
  let large := if isLargeView then 1 else 0 in
  let v' := mkVars (_stream v) (isRunning v) (_prevFilename v)
              (_prevDirPath v) (_curFilePath v) (_curFilename v)
              (_curDirPath v) (_curStartMs v) (_curLastMs v)
              large width height fps in
  (mkState (set_vars v' (self s)) (world s),
   match _stream v with
   | Some _ => Some (large, width, height, fps)
   | None => None
   end).

(** The call of [set_mmap_params] that [open] makes when the stream
    opens: with the fields as they are once [open] has closed what was
    open. *)
Definition open_set_mmap_params (recordInMemory : bool)
    (native : option Stream) (s : State) : option (Z * Z * Z * Z) :=
  match native with
  | None => None
  | Some _ =>
      let v := vars (self (snd (open recordInMemory native s))) in
      Some (_isMmapLargeView v, _mmapViewWidth v, _mmapViewHeight v,
            _mmapViewFps v)
  end.

(** *** _avoidBlankPasswordBug *)

(** What [urlparse.urlsplit] gives and [urlparse.urlunsplit] takes. *)
Record SplitResult := mkSplitResult {
  scheme : string;
  netloc : string;
  path : string;
  query : string;
  fragment : string
}.

(** [c in s] for one character. *)
Fixpoint contains (c : ascii) (s : string) : bool :=
  match s with
  | EmptyString => false
  | String a r => Ascii.eqb a c || contains c r
  end.

(** [s.split(c, 1)] of a string that has [c]: what is before the first
    [c] and what is after it. *)
Fixpoint split_once (c : ascii) (s : string) : string * string :=
  match s with
  | EmptyString => ("", "")
  | String a r =>
      if Ascii.eqb a c then ("", r)
      else let (x, y) := split_once c r in (String a x, y)
  end.

(** [StreamReader._avoidBlankPasswordBug]; the two functions of
    [urlparse] are taken as they come. *)
Definition _avoidBlankPasswordBug (urlsplit : string -> SplitResult)
    (urlunsplit : SplitResult -> string) (url : string) : string :=
  if negb (String.prefix "device:" url) then
    let u := urlsplit url in
    if existsb (String.eqb (scheme u)) ["http"; "https"]
       && contains "@" (netloc u) then
      let (authPart, hostPart) := split_once "@" (netloc u) in
      if PyStr.truthy authPart && negb (contains ":" authPart) then
        let netloc := authPart ++ ":@" ++ hostPart in
        urlunsplit (mkSplitResult (scheme u) netloc (path u) (query u)
                                  (fragment u))
      else url
    else url
  else url.

End StreamControls_py.

(* ================================================================== *)
(** ** Facts about the clip reader *)

Module ClipReaderFacts.

Import ClipReader_py.
Local Open Scope Z_scope.

Section Facts.

Context {L : ClipLib}.

Lemma getSeqReader_untouched (s : State) :
  let s' := snd (_getSeqReader s) in
  _randReader (self s') = _randReader (self s)
  /\ prevMs (self s') = prevMs (self s)
  /\ _readerPrevMs (self s') = _readerPrevMs (self s)
  /\ isDone (self s') = isDone (self s)
  /\ _duration (self s') = _duration (self s)
  /\ _msList (self s') = _msList (self s).
Proof.
  unfold _getSeqReader, _allocReader.
  destruct (_seqReader (self s)); [cbn; tauto|].
  destruct (_firstReader (self s)); [cbn; tauto|].
  destruct (ff_open _ _ _ _ _ _ _) as [[ok r] u]; cbn; tauto.
Qed.

Lemma getRandReader_untouched (s : State) :
  let s' := snd (_getRandReader s) in
  _seqReader (self s') = _seqReader (self s)
  /\ prevMs (self s') = prevMs (self s)
  /\ _readerPrevMs (self s') = _readerPrevMs (self s)
  /\ isDone (self s') = isDone (self s)
  /\ _duration (self s') = _duration (self s)
  /\ _msList (self s') = _msList (self s).
Proof.
  unfold _getRandReader, _allocReader.
  destruct (_randReader (self s)); [cbn; tauto|].
  destruct (_firstReader (self s)); [cbn; tauto|].
  destruct (ff_open _ _ _ _ _ _ _) as [[ok r] u]; cbn; tauto.
Qed.

(** What [getFrameAt] leaves alone: everything but the random slot, the
    first slot and the library counters. *)
Lemma getFrameAt_frame (msOffset : Z) (s : State) :
  let s' := snd (getFrameAt msOffset s) in
  _seqReader (self s') = _seqReader (self s)
  /\ prevMs (self s') = prevMs (self s)
  /\ _readerPrevMs (self s') = _readerPrevMs (self s)
  /\ isDone (self s') = isDone (self s)
  /\ _duration (self s') = _duration (self s)
  /\ _msList (self s') = _msList (self s).
Proof.
  pose proof (getRandReader_untouched s) as H.
  unfold getFrameAt.
  destruct (_getRandReader s) as [[r|] s1]; cbn in *; [|exact H].
  destruct (ff_getFrameAt msOffset r) as [f r']; cbn. exact H.
Qed.

(** What [seek] leaves alone. *)
Lemma seek_frame (msOffset : Z) (s : State) :
  let s' := snd (seek msOffset s) in
  _randReader (self s') = _randReader (self s)
  /\ isDone (self s') = isDone (self s)
  /\ _duration (self s') = _duration (self s)
  /\ _msList (self s') = _msList (self s).
Proof.
  pose proof (getSeqReader_untouched s) as H.
  unfold seek.
  destruct (_getSeqReader s) as [[r|] s1]; cbn in *; [|tauto].
  destruct (ff_seek msOffset r) as [[f|] r']; cbn; tauto.
Qed.

(** C9.  On every state of the reader and for every offset, [getFrameAt]
    leaves the playback position alone: [prevMs], [_readerPrevMs],
    [isDone] and the memoized duration and stamp list are after the call
    what they were before it, with or without a frame returned. *)
Theorem getFrameAt_keeps_playback_state (msOffset : Z) (s : State) :
  prevMs (self (snd (getFrameAt msOffset s))) = prevMs (self s)
  /\ _readerPrevMs (self (snd (getFrameAt msOffset s))) = _readerPrevMs (self s)
  /\ isDone (self (snd (getFrameAt msOffset s))) = isDone (self s)
  /\ _duration (self (snd (getFrameAt msOffset s))) = _duration (self s)
  /\ _msList (self (snd (getFrameAt msOffset s))) = _msList (self s).
Proof.
  destruct (getFrameAt_frame msOffset s) as (_ & Hp & Hr & Hd & Hu & Hm).
  repeat split; assumption.
Qed.

(** C2, as the code has it.  On every state and for every offset:
    [getFrameAt] works on the random reader - the one in the random slot;
    if that slot is empty, the handle [open] made, which then leaves the
    first slot; if that is gone too, a reader newly opened on the clip.
    Its frame is the frame of the native call on that reader, the moved
    reader is what the random slot holds afterwards, and the sequential
    slot is as it was, so [getFrameAt] neither allocates nor moves the
    sequential reader.  [seek] does the same on the sequential reader and
    the sequential slot, and leaves the random slot as it was.  When a new
    reader is needed and the native open fails, the call answers [None] and
    the slot stays empty. *)
Theorem getFrameAt_random_seek_sequential (msOffset : Z) (s : State) :
  let g := getFrameAt msOffset s in
  let k := seek msOffset s in
  _seqReader (self (snd g)) = _seqReader (self s)
  /\ match _randReader (self s), _firstReader (self s) with
     | Some r, _ =>
         fst g = fst (ff_getFrameAt msOffset r)
         /\ _randReader (self (snd g)) = Some (snd (ff_getFrameAt msOffset r))
         /\ _firstReader (self (snd g)) = _firstReader (self s)
         /\ lib (snd g) = lib s
     | None, Some f =>
         fst g = fst (ff_getFrameAt msOffset f)
         /\ _randReader (self (snd g)) = Some (snd (ff_getFrameAt msOffset f))
         /\ _firstReader (self (snd g)) = None
         /\ lib (snd g) = lib s
     | None, None =>
         match fst (_allocReader s) with
         | Some r =>
             fst g = fst (ff_getFrameAt msOffset r)
             /\ _randReader (self (snd g))
                = Some (snd (ff_getFrameAt msOffset r))
         | None => fst g = None /\ _randReader (self (snd g)) = None
         end
         /\ _firstReader (self (snd g)) = None
         /\ lib (snd g) = lib (snd (_allocReader s))
     end
  /\ _randReader (self (snd k)) = _randReader (self s)
  /\ match _seqReader (self s), _firstReader (self s) with
     | Some r, _ =>
         fst k = fst (ff_seek msOffset r)
         /\ _seqReader (self (snd k)) = Some (snd (ff_seek msOffset r))
         /\ _firstReader (self (snd k)) = _firstReader (self s)
         /\ lib (snd k) = lib s
     | None, Some f =>
         fst k = fst (ff_seek msOffset f)
         /\ _seqReader (self (snd k)) = Some (snd (ff_seek msOffset f))
         /\ _firstReader (self (snd k)) = None
         /\ lib (snd k) = lib s
     | None, None =>
         match fst (_allocReader s) with
         | Some r =>
             fst k = fst (ff_seek msOffset r)
             /\ _seqReader (self (snd k)) = Some (snd (ff_seek msOffset r))
         | None => fst k = None /\ _seqReader (self (snd k)) = None
         end
         /\ _firstReader (self (snd k)) = None
         /\ lib (snd k) = lib (snd (_allocReader s))
     end.
Proof.
  cbv zeta.
  split; [apply (getFrameAt_frame msOffset s)|].
  split.
  { unfold getFrameAt, _getRandReader.
    destruct (_randReader (self s)) as [r|] eqn:Er.
    - destruct (ff_getFrameAt msOffset r) as [f r']; cbn; auto.
    - destruct (_firstReader (self s)) as [f|] eqn:Ef.
      + destruct (ff_getFrameAt msOffset f) as [fr r']; cbn; auto.
      + unfold _allocReader.
        destruct (ff_open _ _ _ _ _ _ _) as [[ok r] u].
        destruct ok; cbn; rewrite ?Ef; [|auto].
        destruct (ff_getFrameAt msOffset r) as [fr r']; cbn.
        rewrite ?Ef. auto. }
  split; [apply (seek_frame msOffset s)|].
  unfold seek, _getSeqReader.
  destruct (_seqReader (self s)) as [r|] eqn:Es.
  - destruct (ff_seek msOffset r) as [[fr|] r']; cbn; auto.
  - destruct (_firstReader (self s)) as [f|] eqn:Ef.
    + destruct (ff_seek msOffset f) as [[fr|] r']; cbn; auto.
    + unfold _allocReader.
      destruct (ff_open _ _ _ _ _ _ _) as [[ok r] u].
      destruct ok; cbn; rewrite ?Ef; [|auto].
      destruct (ff_seek msOffset r) as [[fr|] r']; cbn; rewrite ?Ef; auto.
Qed.

Lemma resync_keeps_done (s : State) :
  isDone (self (resync s)) = isDone (self s).
Proof.
  unfold resync.
  destruct (negb (_readerPrevMs (self s) =? prevMs (self s))); [|reflexivity].
  apply (seek_frame (prevMs (self s)) s).
Qed.

Lemma getSeqReader_after_resync_done (s : State) :
  isDone (self (snd (_getSeqReader (resync s)))) = isDone (self s).
Proof.
  rewrite <- (resync_keeps_done s).
  apply (getSeqReader_untouched (resync s)).
Qed.

(** A read that comes back empty from the native reader sets the flag and
    clears the position. *)
Lemma getNextFrame_at_end (s s1 : State) (r : FfMpegClipReader) :
  _getSeqReader (resync s) = (Some r, s1) ->
  fst (ff_getNextFrame r) = None ->
  fst (getNextFrame s) = None
  /\ isDone (self (snd (getNextFrame s))) = true
  /\ prevMs (self (snd (getNextFrame s))) = -1
  /\ _readerPrevMs (self (snd (getNextFrame s))) = -1.
Proof.
  intros H E. unfold getNextFrame. rewrite H.
  destruct (ff_getNextFrame r) as [[f|] r']; cbn in *; [discriminate|auto].
Qed.

Lemma getNextFrame_keeps_done (s : State) :
  isDone (self s) = true -> isDone (self (snd (getNextFrame s))) = true.
Proof.
  intros H. pose proof (getSeqReader_after_resync_done s) as G.
  unfold getNextFrame.
  destruct (_getSeqReader (resync s)) as [[r|] s1]; cbn in *; [|congruence].
  destruct (ff_getNextFrame r) as [[f|] r']; cbn; congruence.
Qed.

(** [getPrevFrame] clears the flag when it returns a frame and leaves it
    otherwise. *)
Lemma getPrevFrame_done (s : State) :
  match fst (getPrevFrame s) with
  | Some _ => isDone (self (snd (getPrevFrame s))) = false
  | None => isDone (self (snd (getPrevFrame s))) = isDone (self s)
  end.
Proof.
  pose proof (getSeqReader_after_resync_done s) as G.
  unfold getPrevFrame.
  destruct (_getSeqReader (resync s)) as [[r|] s1]; cbn in *; [|congruence].
  destruct (ff_getPrevFrame r) as [[f|] r']; cbn; congruence.
Qed.

Lemma call_keeps_done (c : Call) (s : State) :
  c <> CGetPrevFrame ->
  isDone (self s) = true -> isDone (self (snd (call c s))) = true.
Proof.
  intros Hc H. destruct c; cbn [call snd].
  - now apply getNextFrame_keeps_done.
  - congruence.
  - rewrite <- H. apply (seek_frame msOffset s).
  - rewrite <- H. apply (getFrameAt_frame msOffset s).
  - unfold getDuration. destruct (_duration (self s)); [exact H|].
    destruct (_getAnyReader (self s)); exact H.
  - pose proof (getRandReader_untouched s) as G. unfold getMsList.
    destruct (msList_falsy _); [|exact H].
    destruct (_getRandReader s) as [[r|] s1]; cbn in *; [|intuition congruence].
    destruct (ff_getMsList r) as [l r']; cbn. intuition congruence.
  - pose proof (getSeqReader_untouched s) as G. unfold getNextFrameOffset.
    destruct (_getSeqReader s) as [[r|] s1]; cbn in *; intuition congruence.
  - exact H.
  - reflexivity.
  - exact H.
Qed.

Lemma calls_keep_done (l : list Call) (s : State) :
  (forall c, In c l -> c <> CGetPrevFrame) ->
  isDone (self s) = true -> isDone (self (calls l s)) = true.
Proof.
  revert s. induction l as [|c l IH]; intros s Hl H; [exact H|].
  cbn. apply IH.
  - intros c' Hc'. apply Hl. now right.
  - apply call_keeps_done; [apply Hl; now left|exact H].
Qed.

(** C5, as the code has it.  When the native reader has no next frame,
    [getNextFrame] returns [None], sets [isDone] and puts [prevMs] and
    [_readerPrevMs] back to -1.  From then on the flag stays set through
    every run of calls without [getPrevFrame], [seek] among them;
    [getPrevFrame] clears it exactly when it returns a frame, and [close]
    (so [open] too) clears it. *)
Theorem done_flag_set_at_end_and_kept (s s1 : State) (r : FfMpegClipReader) :
  _getSeqReader (resync s) = (Some r, s1) ->
  fst (ff_getNextFrame r) = None ->
  fst (getNextFrame s) = None
  /\ isDone (self (snd (getNextFrame s))) = true
  /\ prevMs (self (snd (getNextFrame s))) = -1
  /\ _readerPrevMs (self (snd (getNextFrame s))) = -1
  /\ (forall l, (forall c, In c l -> c <> CGetPrevFrame) ->
        isDone (self (calls l (snd (getNextFrame s)))) = true)
  /\ (forall l,
        match fst (getPrevFrame (calls l (snd (getNextFrame s)))) with
        | Some _ =>
            isDone (self (snd (getPrevFrame (calls l (snd (getNextFrame s))))))
            = false
        | None =>
            isDone (self (snd (getPrevFrame (calls l (snd (getNextFrame s))))))
            = isDone (self (calls l (snd (getNextFrame s))))
        end)
  /\ (forall l, isDone (self (close (calls l (snd (getNextFrame s))))) = false).
Proof.
  intros H E.
  destruct (getNextFrame_at_end s H E) as (Hn & Hd & Hp & Hr).
  repeat split; try assumption.
  - intros l Hl. now apply calls_keep_done.
  - intros l. apply getPrevFrame_done.
Qed.

Lemma close_slot_opened (rdr : option FfMpegClipReader) (u : LibUse) :
  handles_opened (close_slot rdr u) = handles_opened u.
Proof.
  destruct rdr as [r|]; [|reflexivity]. cbn. now destruct (_clip r).
Qed.

(** What a successful [open] leaves behind. *)
Lemma open_succeeded (filename : string) (w h fMs : Z) (ex : option Extras)
    (s s1 : State) :
  open filename w h fMs ex s = (true, s1) ->
  _firstReader (self s1) <> None
  /\ _seqReader (self s1) = None
  /\ _randReader (self s1) = None
  /\ path (self s1) = Some filename
  /\ width (self s1) = w
  /\ height (self s1) = h
  /\ firstMs (self s1) = fMs
  /\ extras (self s1) = ex
  /\ handles_opened (lib s1) = S (handles_opened (lib s)).
Proof.
  unfold open, close, _reset, _allocReader, ff_open. cbn.
  destruct (open_clip _ _ _ _ _ _) as [c|]; cbn; intros H;
    inversion H; subst; clear H; cbn.
  rewrite !close_slot_opened. repeat split; congruence.
Qed.

(** An allocation on an unchanged clip, at the library's next open. *)
Lemma allocReader_next (base s : State) :
  path (self s) = path (self base) ->
  width (self s) = width (self base) ->
  height (self s) = height (self base) ->
  firstMs (self s) = firstMs (self base) ->
  extras (self s) = extras (self base) ->
  open_calls (lib s) = open_calls (lib base) ->
  open_clip (open_calls (lib base)) (path (self base)) (width (self base))
    (height (self base)) (firstMs (self base)) (extras (self base)) <> None ->
  fst (_allocReader s) <> None
  /\ self (snd (_allocReader s)) = self s
  /\ handles_opened (lib (snd (_allocReader s))) = S (handles_opened (lib s)).
Proof.
  intros Hp Hw Hh Hm He Hc Hre. unfold _allocReader, ff_open. cbn.
  rewrite Hp, Hw, Hh, Hm, He, Hc.
  destruct (open_clip _ _ _ _ _ _) as [c|]; [|congruence].
  cbn. repeat split. discriminate.
Qed.

(** One accessor call moves the pair as [Stands] says; a second handle is
    opened only on the step that makes both modes used. *)
Lemma call_accessor_stands (base s : State) (bS bR : bool) (a : Accessor) :
  _firstReader (self base) <> None ->
  ((bS || accessor_eqb a Sequential) && (bR || accessor_eqb a Random) = true ->
   open_clip (open_calls (lib base)) (path (self base)) (width (self base))
     (height (self base)) (firstMs (self base)) (extras (self base)) <> None) ->
  Stands base bS bR s ->
  Stands base (bS || accessor_eqb a Sequential) (bR || accessor_eqb a Random)
         (call_accessor a s).
Proof.
  intros Hf Hre ((Hp & Hw & Hh & Hm & He) & H1 & Hs & Hr & Hn & Hc).
  destruct (_firstReader (self base)) as [f0|] eqn:Ef; [clear Hf|congruence].
  destruct a, bS, bR; cbn [accessor_eqb orb andb] in *;
    unfold call_accessor, _getSeqReader, _getRandReader;
    try (destruct (_seqReader (self s)) as [rs|] eqn:Es; [|congruence]);
    try (destruct (_randReader (self s)) as [rr|] eqn:Er; [|congruence]);
    try rewrite Hs; try rewrite Hr; try rewrite H1; cbn;
    try (unfold Stands; cbn; rewrite ?Es, ?Er, ?H1;
         repeat split; auto; congruence).
  - destruct (allocReader_next base s Hp Hw Hh Hm He Hc (Hre eq_refl))
      as (Ha & Hself & Hopen).
    destruct (_allocReader s) as [[r|] s']; cbn in *; [|congruence].
    unfold Stands; cbn. rewrite Hself, Er, H1, Hopen, Hn.
    repeat split; auto; congruence.
  - destruct (allocReader_next base s Hp Hw Hh Hm He Hc (Hre eq_refl))
      as (Ha & Hself & Hopen).
    destruct (_allocReader s) as [[r|] s']; cbn in *; [|congruence].
    unfold Stands; cbn. rewrite Hself, Es, H1, Hopen, Hn.
    repeat split; auto; congruence.
Qed.

Lemma call_accessors_stands (base : State) (l : list Accessor) :
  _firstReader (self base) <> None ->
  forall (s : State) (bS bR : bool),
  ((bS || existsb (accessor_eqb Sequential) l)
   && (bR || existsb (accessor_eqb Random) l) = true ->
   open_clip (open_calls (lib base)) (path (self base)) (width (self base))
     (height (self base)) (firstMs (self base)) (extras (self base)) <> None) ->
  Stands base bS bR s ->
  Stands base (bS || existsb (accessor_eqb Sequential) l)
         (bR || existsb (accessor_eqb Random) l) (call_accessors l s).
Proof.
  intros Hf. induction l as [|a l IH]; intros s bS bR Hre H.
  - cbn. now rewrite !orb_false_r.
  - assert (ES : bS || existsb (accessor_eqb Sequential) (a :: l)
                 = (bS || accessor_eqb a Sequential)
                   || existsb (accessor_eqb Sequential) l)
      by (cbn; destruct a, bS; reflexivity).
    assert (ER : bR || existsb (accessor_eqb Random) (a :: l)
                 = (bR || accessor_eqb a Random)
                   || existsb (accessor_eqb Random) l)
      by (cbn; destruct a, bR; reflexivity).
    rewrite ES, ER in *. cbn [call_accessors fold_left].
    apply IH; [exact Hre|].
    apply call_accessor_stands; [exact Hf| |exact H].
    intros E. apply Hre.
    apply andb_true_iff in E. destruct E as [E1 E2].
    now rewrite E1, E2.
Qed.

Lemma existsb_accessor (a : Accessor) (l : list Accessor) :
  In a l -> existsb (accessor_eqb a) l = true.
Proof.
  intros H. apply existsb_exists. exists a. split; [exact H|].
  now destruct a.
Qed.

Lemma existsb_only_sequential (l : list Accessor) :
  Forall (eq Sequential) l -> existsb (accessor_eqb Random) l = false.
Proof.
  induction 1 as [|a l <- _ IH]; [reflexivity|]. cbn. exact IH.
Qed.

(** No accessor ever refills the first slot. *)
Lemma first_slot_stays_empty (l : list Accessor) (s : State) :
  _firstReader (self s) = None ->
  _firstReader (self (call_accessors l s)) = None.
Proof.
  revert s. induction l as [|a l IH]; intros s H; [exact H|].
  cbn. apply IH.
  destruct a; unfold call_accessor, _getSeqReader, _getRandReader, _allocReader;
    rewrite H;
    [destruct (_seqReader (self s))|destruct (_randReader (self s))];
    try exact H;
    destruct (ff_open _ _ _ _ _ _ _) as [[ok r] u]; cbn; exact H.
Qed.

(** The first call takes the handle made by [open] and empties the first
    slot. *)
Lemma first_call_claims (a : Accessor) (s : State) :
  _seqReader (self s) = None ->
  _randReader (self s) = None ->
  _firstReader (self s) <> None ->
  slot a (self (call_accessor a s)) = _firstReader (self s)
  /\ _firstReader (self (call_accessor a s)) = None.
Proof.
  intros Hs Hr Hf.
  destruct (_firstReader (self s)) as [f|] eqn:E; [|congruence].
  destruct a; unfold call_accessor, _getSeqReader, _getRandReader;
    rewrite ?Hs, ?Hr, E; cbn; auto.
Qed.

(** C6, as the code has it.  Let [open] succeed.  Then any run of
    sequential accessor calls leaves the library with exactly one handle
    opened for this clip.  A run that uses both accessors leaves it with
    exactly two if the clip opens a second time; if that open fails, the
    accessor called second gets no reader and the count stays at one.
    Whichever accessor is called first gets the handle [open] made, the
    first slot being empty from then on. *)
Theorem cursor_pair_allocates_one_or_two
    (filename : string) (w h fMs : Z) (ex : option Extras) (s s1 : State) :
  open filename w h fMs ex s = (true, s1) ->
  (forall l, Forall (eq Sequential) l ->
     handles_opened (lib (call_accessors l s1)) = S (handles_opened (lib s)))
  /\ (open_clip (open_calls (lib s1)) (Some filename) w h fMs ex <> None ->
      forall l, In Sequential l -> In Random l ->
      handles_opened (lib (call_accessors l s1))
      = S (S (handles_opened (lib s))))
  /\ (open_clip (open_calls (lib s1)) (Some filename) w h fMs ex = None ->
      forall a b, a <> b ->
      handles_opened (lib (call_accessors [a; b] s1))
      = S (handles_opened (lib s))
      /\ slot b (self (call_accessors [a; b] s1)) = None)
  /\ _firstReader (self s1) <> None
  /\ (forall a l,
        slot a (self (call_accessor a s1)) = _firstReader (self s1)
        /\ _firstReader (self (call_accessors (a :: l) s1)) = None).
Proof.
  intros Ho.
  destruct (open_succeeded _ _ _ _ _ _ Ho)
    as (Hf & Hs & Hr & Hp & Hw & Hh & Hm & He & Hn).
  assert (H0 : Stands s1 false false s1).
  { unfold Stands. cbn. repeat split; auto. }
  split; [|split; [|split; [|split; [exact Hf|]]]].
  - intros l Hl.
    pose proof (@call_accessors_stands s1 l Hf s1 false false) as H.
    cbn [orb] in H. rewrite (existsb_only_sequential Hl) in H.
    rewrite andb_false_r in H.
    destruct (H ltac:(discriminate) H0) as (_ & _ & _ & _ & Hc & _).
    rewrite andb_false_r in Hc. rewrite Hc, Hn. reflexivity.
  - intros Hre l HS HR.
    pose proof (@call_accessors_stands s1 l Hf s1 false false) as H.
    cbn [orb] in H.
    rewrite (existsb_accessor _ _ HS), (existsb_accessor _ _ HR) in H.
    rewrite Hp, Hw, Hh, Hm, He in H.
    destruct (H (fun _ => Hre) H0) as (_ & _ & _ & _ & Hc & _).
    rewrite Hc, Hn. reflexivity.
  - intros Hfail a b Hab.
    destruct (_firstReader (self s1)) as [f|] eqn:Ef; [|congruence].
    destruct a, b; try congruence;
      unfold call_accessors; cbn [fold_left];
      unfold call_accessor, _getSeqReader, _getRandReader;
      rewrite ?Hs, ?Hr, Ef; cbn; rewrite ?Hs, ?Hr;
      unfold _allocReader, ff_open; cbn;
      rewrite Hp, Hw, Hh, Hm, He, Hfail; cbn; auto.
  - intros a l.
    destruct (first_call_claims a s1 Hs Hr Hf) as [Hc He0].
    split; [exact Hc|].
    cbn. now apply first_slot_stays_empty.
Qed.

End Facts.

(** C2 as stated fails for [seek].  On the three-frame clip, after one
    [getNextFrame] the sequential reader stands at frame 1; [seek 200]
    moves that reader to frame 3 and no random reader comes into being. *)
Lemma seek_moves_the_sequential_reader :
  let s := snd (@getNextFrame lib3 opened3) in
  let s' := snd (@seek lib3 200 s) in
  seq_next3 s = Some 1%nat
  /\ seq_next3 s' = Some 3%nat
  /\ _seqReader (self s') <> _seqReader (self s)
  /\ _randReader (self s) = None
  /\ _randReader (self s') = None.
Proof.
  cbv zeta. repeat split; try reflexivity.
  intro H.
  assert (E : seq_next3 (snd (@seek lib3 200 (snd (@getNextFrame lib3 opened3))))
              = seq_next3 (snd (@getNextFrame lib3 opened3))).
  { unfold seq_next3. rewrite H. reflexivity. }
  vm_compute in E. discriminate E.
Qed.

(** The theorem on C5 at the two-frame clip after two reads. *)
Lemma done_flag_set_at_end_and_kept_witness :
  let s := snd (@getNextFrame lib2 (snd (@getNextFrame lib2 opened2))) in
  fst (@getNextFrame lib2 s) = None
  /\ isDone (self (snd (@getNextFrame lib2 s))) = true
  /\ isDone (self (@calls lib2 [CSeek 0; CGetNextFrame]
                     (snd (@getNextFrame lib2 s)))) = true.
Proof.
  cbv zeta.
  pose (s := snd (@getNextFrame lib2 (snd (@getNextFrame lib2 opened2)))).
  pose (g := @_getSeqReader lib2 (@resync lib2 s)).
  pose (r := match fst g with Some r => r | None => @ff_init lib2 end).
  destruct (@done_flag_set_at_end_and_kept lib2 s (snd g) r)
    as (H1 & H2 & _ & _ & H5 & _).
  - vm_compute. reflexivity.
  - vm_compute. reflexivity.
  - split; [exact H1|]. split; [exact H2|].
    apply H5. intros c [<-|[<-|[]]]; discriminate.
Defined.

(** C5 as stated fails for [seek].  On the two-frame clip read to its end
    the flag is set; [seek 0] returns the frame at 0 and the flag is still
    set, and it stays set while [getNextFrame] goes on to return the frame
    at 100. *)
Lemma seek_does_not_clear_done :
  isDone (self at_end2) = true
  /\ option_map ms (fst (@seek lib2 0 at_end2)) = Some 0
  /\ isDone (self (snd (@seek lib2 0 at_end2))) = true
  /\ option_map ms (fst (@getNextFrame lib2 (snd (@seek lib2 0 at_end2))))
     = Some 100
  /\ isDone (self (snd (@getNextFrame lib2 (snd (@seek lib2 0 at_end2)))))
     = true.
Proof. vm_compute. repeat split; reflexivity. Qed.

(** C6 as stated fails when the clip does not open a second time.  On a
    library that opens a clip once, [open] succeeds; the sequential
    accessor takes its handle; the random accessor then gets no reader,
    and one handle is all there is - while every further call of the
    random accessor asks the library to open the clip again. *)
Lemma second_open_can_fail :
  fst (@open lib_once "clip.mp4" 320 240 0 None (@init lib_once)) = true
  /\ handles_opened
       (lib (@call_accessors lib_once [Sequential; Random] opened_once))
     = 1%nat
  /\ @_randReader lib_once
       (self (@call_accessors lib_once [Sequential; Random] opened_once))
     = None
  /\ open_calls
       (lib (@call_accessors lib_once [Sequential; Random; Random; Random]
               opened_once))
     = 4%nat
  /\ handles_opened
       (lib (@call_accessors lib_once [Sequential; Random; Random; Random]
               opened_once))
     = 1%nat.
Proof. vm_compute. repeat split; reflexivity. Qed.

(** The theorem on C6 at the three-frame clip. *)
Lemma cursor_pair_allocates_one_or_two_witness :
  handles_opened (lib (@call_accessors lib3 [Sequential; Sequential] opened3))
  = 1%nat
  /\ handles_opened
       (lib (@call_accessors lib3 [Random; Sequential; Random] opened3))
     = 2%nat
  /\ slot Random (self (@call_accessor lib3 Random opened3))
     = _firstReader (self opened3).
Proof.
  destruct (@cursor_pair_allocates_one_or_two lib3 "clip.mp4" 320 240 0 None
              (@init lib3) opened3 eq_refl) as (H1 & H2 & _ & _ & H4).
  split; [|split].
  - apply H1. repeat constructor.
  - apply H2.
    + discriminate.
    + right; left; reflexivity.
    + left; reflexivity.
  - apply (H4 Random []).
Defined.

End ClipReaderFacts.

(* ================================================================== *)
(** ** Facts about the stream reader *)

Module StreamReaderFacts.

Import StreamReader_py.
Local Open Scope Z_scope.

(** *** Histories *)

Lemma history_emit (o o' : StreamReader) (es : list Event) (w : World) :
  history (mkState o (emit es w)) = history (mkState o' w) ++ es.
Proof.
  unfold history, emit. cbn. now rewrite rev_app_distr, rev_involutive.
Qed.

Lemma history_world (o o' : StreamReader) (w : World) :
  history (mkState o w) = history (mkState o' w).
Proof. reflexivity. Qed.

Lemma ask_alive_log (w : World) : log (snd (ask_alive w)) = log w.
Proof. unfold ask_alive. now destruct (alive_q w). Qed.

Lemma ask_move_log (w : World) : log (snd (ask_move w)) = log w.
Proof. unfold ask_move. now destruct (move_q w). Qed.

Lemma app_one_neq {A : Type} (l : list A) (x : A) : l <> l ++ [x].
Proof.
  intros H. apply (f_equal (@List.length A)) in H.
  rewrite length_app in H. cbn in H. lia.
Qed.

(** *** flush *)

(** C7.  On an open, running session [flush msNeeded] calls the native
    flush exactly when [msNeeded] is [None] or not before the start stamp
    of the current segment, and does nothing otherwise; with the segment
    started at 100, [flush 50] does nothing and [flush 150] flushes. *)
Theorem flush_iff_needed (s : State) (st : Stream) (msNeeded : option Z) :
  _stream (vars (self s)) = Some st ->
  isRunning (vars (self s)) = true ->
  (history (flush msNeeded s) = history s ++ [FlushOutput]
   <-> msNeeded = None
       \/ exists m, msNeeded = Some m /\ (_curStartMs (vars (self s)) <= m)%Z)
  /\ (history (flush msNeeded s) = history s ++ [FlushOutput]
      \/ flush msNeeded s = s)
  /\ self (flush msNeeded s) = self s
  /\ (_curStartMs (vars (self s)) = 100%Z ->
      flush (Some 50%Z) s = s
      /\ history (flush (Some 150%Z) s) = history s ++ [FlushOutput]).
Proof.
  intros Hs Hr. destruct s as [o w]. cbn in Hs, Hr.
  unfold flush. cbn [self world]. rewrite Hs, Hr. cbn [andb].
  split; [|split; [|split]].
  - destruct msNeeded as [m|].
    + destruct (Z.geb_spec m (_curStartMs (vars o))) as [G|G].
      * split; [intros _; right; exists m; split; [reflexivity|lia]|].
        intros _. apply history_emit.
      * split.
        -- intros H. exfalso. exact (@app_one_neq _ _ _ H).
        -- intros [H|(m' & H & Hm)]; [discriminate|].
           inversion H; subst. lia.
    + split; [intros _; now left|]. intros _. apply history_emit.
  - destruct msNeeded as [m|]; [destruct (m >=? _)%Z|];
      first [left; apply history_emit | now right].
  - destruct msNeeded as [m|]; [destruct (m >=? _)%Z|]; reflexivity.
  - intros ->. split; [reflexivity|]. apply history_emit.
Qed.

(** The theorem on C7 at a session whose segment started at 100. *)
Lemma flush_iff_needed_witness :
  flush (Some 50%Z) cam_at_100 = cam_at_100
  /\ history (flush (Some 150%Z) cam_at_100)
     = history cam_at_100 ++ [FlushOutput].
Proof.
  apply (@flush_iff_needed cam_at_100 (mkStream 320 240) None).
  - reflexivity.
  - reflexivity.
  - reflexivity.
Defined.

(** *** close *)

Lemma finalize_blocking_empties (s : State) :
  _moverThread (self (_finalizeMoverThread true s)) = None.
Proof.
  unfold _finalizeMoverThread.
  destruct (_moverThread (self s)) as [t|] eqn:E; [|exact E].
  destruct (ask_alive (world s)) as [alive w1].
  rewrite andb_false_r. reflexivity.
Qed.

Lemma close_resets (k : bool) (s : State) :
  vars (self (close k s)) = initial_vars
  /\ _moverThread (self (close k s)) = None.
Proof.
  unfold close, _initVariables. cbn [self vars set_vars _moverThread].
  split; [reflexivity|].
  destruct k; cbn [self]; apply finalize_blocking_empties.
Qed.

(** On a session in its reset state [close] does nothing but call the
    callback it was given. *)
Lemma close_when_closed (k : bool) (s : State) :
  vars (self s) = initial_vars ->
  _moverThread (self s) = None ->
  close k s
  = if k then mkState (self s) (emit [KillableCallback] (world s)) else s.
Proof.
  destruct s as [[n cm rc rd sd cd mf rim cps mt v] w]. cbn.
  intros -> ->. destruct k; reflexivity.
Qed.

(** C8.  After a [close] every field that [_initVariables] sets has its
    reset value and no mover is left; a second [close] then changes
    nothing: it neither flushes, nor frees the stream, nor starts a mover.
    All it can still do is call the callback handed to it. *)
Theorem close_is_idempotent (k1 k2 : bool) (s : State) :
  vars (self (close k1 s)) = initial_vars
  /\ _moverThread (self (close k1 s)) = None
  /\ close false (close k1 s) = close k1 s
  /\ self (close k2 (close k1 s)) = self (close k1 s)
  /\ history (close k2 (close k1 s))
     = history (close k1 s) ++ (if k2 then [KillableCallback] else []).
Proof.
  destruct (close_resets k1 s) as [Hv Hm].
  repeat split; try assumption.
  - now apply close_when_closed.
  - rewrite (close_when_closed k2 _ Hv Hm). now destruct k2.
  - rewrite (close_when_closed k2 _ Hv Hm). destruct k2.
    + apply history_emit.
    + now rewrite app_nil_r.
Qed.

(** *** The two paths of a job *)

Lemma lower_ascii_upper (c : ascii) :
  PyStr.is_upper c = true -> PyStr.lower_ascii c <> c.
Proof.
  unfold PyStr.is_upper, PyStr.lower_ascii. intros H. rewrite H.
  apply andb_true_iff in H. destruct H as [H1 H2].
  apply Nat.leb_le in H1, H2. intros E.
  apply (f_equal nat_of_ascii) in E.
  rewrite nat_ascii_embedding in E by lia. lia.
Qed.

Lemma lower_changes_upper (s : string) :
  PyStr.has_upper s = true -> PyStr.lower s <> s.
Proof.
  induction s as [|c r IH]; cbn; [discriminate|].
  intros H E. inversion E as [[Ec Er]].
  apply orb_true_iff in H. destruct H as [H|H].
  - exact (lower_ascii_upper H Ec).
  - exact (IH H Er).
Qed.

Lemma lower_ascii_slash (c : ascii) :
  Ascii.eqb (PyStr.lower_ascii c) PyStr.slash = Ascii.eqb c PyStr.slash.
Proof.
  destruct c as [[] [] [] [] [] [] [] []]; reflexivity.
Qed.

Lemma app_inj_left (a b c : string) : (a ++ b = a ++ c)%string -> b = c.
Proof.
  induction a as [|x a IH]; cbn; [auto|]. intros H. inversion H. auto.
Qed.

(** Joining one directory with two names gives one path only for one
    name, when the names start alike. *)
Lemma join_lower_inj (d f : string) :
  PyStr.join d (PyStr.lower f) = PyStr.join d f -> PyStr.lower f = f.
Proof.
  unfold PyStr.join.
  assert (E : PyStr.startswith_slash (PyStr.lower f)
              = PyStr.startswith_slash f).
  { destruct f as [|c r]; [reflexivity|]. cbn. apply lower_ascii_slash. }
  rewrite E. destruct (PyStr.startswith_slash f); [auto|].
  destruct (String.eqb d "" || PyStr.endswith_slash d)%bool.
  - apply app_inj_left.
  - intros H. apply app_inj_left in H. cbn in H. injection H as H. exact H.
Qed.

Lemma lower_ascii_idem (c : ascii) :
  PyStr.lower_ascii (PyStr.lower_ascii c) = PyStr.lower_ascii c.
Proof.
  destruct c as [[] [] [] [] [] [] [] []]; reflexivity.
Qed.

Lemma lower_idem (s : string) : PyStr.lower (PyStr.lower s) = PyStr.lower s.
Proof.
  induction s as [|c r IH]; cbn; [reflexivity|].
  now rewrite lower_ascii_idem, IH.
Qed.

(** C10.  A mover whose move fails hands the callback its directory path
    joined with the file name as it is, while [addFileToDb] commits, and a
    move that works writes, under the lower-cased file name; the
    directory path a rollover sets is lower-cased.  So whenever the file
    name has an upper-case letter, the path given to the callback is not
    the path committed. *)
Theorem failed_path_differs_from_committed (t : ThreadedFileMover) :
  PyStr.has_upper (m_curFilename t) = true ->
  failed_path t <> committed_path t
  /\ failed_path t = PyStr.join (m_curDirPath t) (m_curFilename t)
  /\ committed_path t
     = PyStr.join (m_curDirPath t) (PyStr.lower (m_curFilename t))
  /\ (moves t = true -> m_moveFailedFn t = true ->
      In (MoveFailedFn (failed_path t)) (run t false))
  /\ (moves t = true ->
      In (MoveFile (m_recordInMemory t)
            (PyStr.join (m_recordDir t) (m_curFilename t))
            (PyStr.join (PyStr.join (m_storageDir t) (m_curDirPath t))
               (PyStr.lower (m_curFilename t)))
            true)
         (run t true))
  /\ (exists l s a b w h, addFileToDb t = AddClip (committed_path t) l s a b w h)
  /\ (forall f s,
        PyStr.lower (_curDirPath (vars (self (rollover f s))))
        = _curDirPath (vars (self (rollover f s)))).
Proof.
  intros H. split; [|split; [reflexivity|split; [reflexivity|]]].
  - unfold failed_path, committed_path. intros E. symmetry in E.
    apply join_lower_inj in E. exact (lower_changes_upper H E).
  - split; [|split; [|split]].
    + unfold moves, run. intros Hm Hf.
      apply andb_true_iff in Hm. destruct Hm as [-> ->]. rewrite Hf.
      cbn. auto.
    + unfold moves, run. intros Hm.
      apply andb_true_iff in Hm. destruct Hm as [-> ->]. cbn. auto.
    + unfold addFileToDb. repeat eexists.
    + intros f s. unfold rollover. cbn. apply lower_idem.
Qed.

(** The theorem on C10 at the job of [Clip001.mp4]. *)
Lemma failed_path_differs_from_committed_witness :
  failed_path job1 = "cam/clip0/Clip001.mp4"%string
  /\ committed_path job1 = "cam/clip0/clip001.mp4"%string
  /\ failed_path job1 <> committed_path job1.
Proof.
  split; [reflexivity|]. split; [reflexivity|].
  apply (@failed_path_differs_from_committed job1). reflexivity.
Defined.

(** *** Finalizing a job *)

(** [_finalizeMoverThread] in one equation per case: with no job it does
    nothing; with a job still running and no order to block it leaves the
    job in the slot; else the thread's steps, the join if it had to wait,
    and the commit enter the history and the slot is emptied. *)
Lemma finalize_effect (b : bool) (s : State) :
  match _moverThread (self s) with
  | None => _finalizeMoverThread b s = s
  | Some t =>
      if seen_alive s && negb b
      then self (_finalizeMoverThread b s) = self s
           /\ history (_finalizeMoverThread b s) = history s
      else self (_finalizeMoverThread b s) = set_moverThread None (self s)
           /\ history (_finalizeMoverThread b s)
              = history s ++ run t (move_outcome t s)
                ++ (if seen_alive s then [ThreadJoin] else [])
                ++ [addFileToDb t]
  end.
Proof.
  unfold _finalizeMoverThread, seen_alive, move_outcome.
  destruct (_moverThread (self s)) as [t|]; [|reflexivity].
  destruct (ask_alive (world s)) as [alive w1] eqn:Ea. cbn [fst snd].
  destruct (alive && negb b)%bool.
  - split; [reflexivity|]. unfold history. cbn.
    change w1 with (snd (alive, w1)). rewrite <- Ea. now rewrite ask_alive_log.
  - split; [reflexivity|].
    assert (Hw1 : rev (log w1) = history s).
    { unfold history. change w1 with (snd (alive, w1)). rewrite <- Ea.
      now rewrite ask_alive_log. }
    unfold thread_ran.
    destruct (moves t).
    + destruct (ask_move w1) as [moved w2] eqn:Em. cbn [fst].
      assert (Hw2 : rev (log w2) = history s).
      { rewrite <- Hw1. change w2 with (snd (moved, w2)). rewrite <- Em.
        now rewrite ask_move_log. }
      unfold history in *. destruct alive; cbn [world log emit];
        rewrite ?rev_app_distr, ?rev_involutive, Hw2, <- ?app_assoc;
        reflexivity.
    + unfold history in *. destruct alive; cbn [world log emit];
        rewrite ?rev_app_distr, ?rev_involutive, Hw1, <- ?app_assoc;
        reflexivity.
Qed.

Lemma run_calls_back (t : ThreadedFileMover) (moved : bool) :
  moves t = true ->
  (In (MoveFailedFn (failed_path t)) (run t moved)
   <-> moved = false /\ m_moveFailedFn t = true).
Proof.
  unfold moves, run. intros H. apply andb_true_iff in H.
  destruct H as [-> ->]. cbn.
  destruct moved, (m_moveFailedFn t); cbn; split;
    try (intros [H|[H|[H|[H|H]]]]; try discriminate H; try contradiction);
    try (intros [H1 H2]; discriminate);
    try (intros [H|[H|[H|H]]]; try discriminate H; try contradiction);
    auto.
Qed.

Lemma run_commits_nothing (t : ThreadedFileMover) (moved : bool) :
  count is_commit (run t moved) = 0%nat.
Proof.
  unfold run.
  destruct (negb (PyStr.truthy (m_curFilename t)) || negb (m_clipManager t))%bool;
    [reflexivity|].
  destruct moved; [reflexivity|]. now destruct (m_moveFailedFn t).
Qed.

(** C1, as the code has it.  When the session finalizes a job, because it
    waits for the thread or because it finds the thread ended, the
    thread's steps and then the commit of the job enter the history, and
    the slot is emptied.  The failure callback is among the thread's steps
    exactly when the move failed (and a callback was given); its argument
    is the directory path joined with the file name.  The commit is made
    once, by the session and not by the thread, whether the move worked or
    not. *)
Theorem finalize_commits_whether_moved_or_not
    (b : bool) (s : State) (t : ThreadedFileMover) :
  _moverThread (self s) = Some t ->
  moves t = true ->
  (seen_alive s && negb b)%bool = false ->
  history (_finalizeMoverThread b s)
  = history s ++ run t (move_outcome t s)
    ++ (if seen_alive s then [ThreadJoin] else []) ++ [addFileToDb t]
  /\ (In (MoveFailedFn (PyStr.join (m_curDirPath t) (m_curFilename t)))
         (run t (move_outcome t s))
      <-> move_outcome t s = false /\ m_moveFailedFn t = true)
  /\ count is_commit (run t (move_outcome t s)) = 0%nat
  /\ is_commit (addFileToDb t) = true
  /\ _moverThread (self (_finalizeMoverThread b s)) = None.
Proof.
  intros Ht Hm Hb. pose proof (finalize_effect b s) as H.
  rewrite Ht, Hb in H. destruct H as [Hself Hh].
  split; [exact Hh|]. split; [now apply run_calls_back|].
  split; [apply run_commits_nothing|]. split; [reflexivity|].
  now rewrite Hself.
Qed.

(** The theorem on C1 at that job. *)
Lemma finalize_commits_whether_moved_or_not_witness :
  history (_terminateMoverThread job1_started)
  = history job1_started
    ++ run job1 false ++ [] ++ [addFileToDb job1]
  /\ In (MoveFailedFn "cam/clip0/Clip001.mp4"%string) (run job1 false).
Proof.
  destruct (@finalize_commits_whether_moved_or_not true job1_started job1
              eq_refl eq_refl eq_refl) as (H1 & H2 & _).
  split; [exact H1|]. apply H2. split; reflexivity.
Defined.

(** C1 as stated fails.  The move of [Clip001.mp4] fails and the callback
    is called with its path, yet the clip is committed to the index. *)
Lemma failed_move_is_committed :
  history after_rollover
  = [ ThreadStart job1;
      EnsureDir "/store/cam/clip0"%string;
      MoveFile false "/rec/Cam/Clip001.mp4"%string
               "/store/cam/clip0/clip001.mp4"%string false;
      MoveFailedFn "cam/clip0/Clip001.mp4"%string;
      ThreadEnd;
      AddClip "cam/clip0/clip001.mp4"%string "Cam"%string 0 100 ""%string
              320 240 ].
Proof. reflexivity. Qed.

(** *** One job at a time *)

Lemma slot_after_app (h es : list Event) :
  slot_after (h ++ es) = fold_left slot_step es (slot_after h).
Proof. unfold slot_after. apply fold_left_app. Qed.

Lemma slot_step_stuck (es : list Event) : fold_left slot_step es None = None.
Proof. induction es as [|e es IH]; [reflexivity|exact IH]. Qed.

Lemma run_ends (t : ThreadedFileMover) (moved : bool) :
  fold_left slot_step (run t moved) (Some Running) = Some Ended.
Proof.
  unfold run.
  destruct (negb (PyStr.truthy (m_curFilename t)) || negb (m_clipManager t))%bool;
    [reflexivity|].
  destruct moved; [reflexivity|]. now destruct (m_moveFailedFn t).
Qed.

Lemma agrees_frame (s s' : State) :
  Agrees s ->
  history s' = history s ->
  _moverThread (self s') = _moverThread (self s) ->
  Agrees s'.
Proof.
  unfold Agrees, slot_of. intros H Hh Hm. now rewrite Hh, Hm.
Qed.

Lemma agrees_aside (s : State) (e : Event) :
  aside e = true -> Agrees s ->
  Agrees (mkState (self s) (emit [e] (world s))).
Proof.
  unfold Agrees. intros He H.
  rewrite (history_emit _ (self s)). destruct s as [o w]. cbn [self world] in *.
  rewrite slot_after_app, H. cbn.
  destruct e; try discriminate He; reflexivity.
Qed.

Lemma agrees_finalize (b : bool) (s : State) :
  Agrees s -> Agrees (_finalizeMoverThread b s).
Proof.
  unfold Agrees. intros H. pose proof (finalize_effect b s) as E.
  unfold slot_of in H.
  destruct (_moverThread (self s)) as [t|] eqn:Et.
  - destruct (seen_alive s && negb b)%bool; destruct E as [Es Eh].
    + rewrite Eh, Es. unfold slot_of. now rewrite Et.
    + rewrite Eh, Es, slot_after_app, H, !fold_left_app, run_ends.
      now destruct (seen_alive s).
  - rewrite E. unfold slot_of. now rewrite Et.
Qed.

Lemma getProcSize_frame (s : State) :
  world (snd (getProcSize s)) = world s
  /\ _moverThread (self (snd (getProcSize s))) = _moverThread (self s)
  /\ vars (self (snd (getProcSize s))) = vars (self s)
  /\ _clipManager (self (snd (getProcSize s))) = _clipManager (self s)
  /\ locationName (self (snd (getProcSize s))) = locationName (self s).
Proof.
  unfold getProcSize.
  destruct (isRunning (vars (self s))); [|cbn; auto].
  destruct (_stream (vars (self s))); cbn; auto.
Qed.

Lemma agrees_addFileToDb (s : State) : Agrees s -> Agrees (_addFileToDb s).
Proof.
  intros H. unfold _addFileToDb.
  destruct (negb (PyStr.truthy (_curFilename (vars (self s))))
            || negb (_clipManager (self s)))%bool; [exact H|].
  pose proof (agrees_finalize true H) as H1.
  pose proof (finalize_blocking_empties s) as Hn.
  fold (_terminateMoverThread s) in H1, Hn. unfold _terminateMoverThread at 1.
  fold (_terminateMoverThread s).
  set (s1 := _terminateMoverThread s) in *.
  unfold mover_init.
  destruct (getProcSize_frame s1) as (Hw & Hm & _).
  destruct (getProcSize s1) as [p s2]. cbn [snd] in Hw, Hm.
  unfold Agrees in *. rewrite (history_emit _ (self s2)). cbn [self].
  rewrite slot_after_app.
  replace (history (mkState (self s2) (world s2))) with (history s1)
    by (unfold history; cbn; now rewrite Hw).
  rewrite H1. unfold slot_of. rewrite Hn. reflexivity.
Qed.

Lemma agrees_flush (m : option Z) (s : State) : Agrees s -> Agrees (flush m s).
Proof.
  intros H. unfold flush.
  destruct (_stream (vars (self s))); [|exact H].
  destruct (isRunning (vars (self s)) && _)%bool; [|exact H].
  now apply agrees_aside.
Qed.

Lemma agrees_close (k : bool) (s : State) : Agrees s -> Agrees (close k s).
Proof.
  intros H. unfold close. cbv zeta.
  set (s1 := flush None s).
  assert (H1 : Agrees s1) by now apply agrees_flush.
  clearbody s1.
  set (s2 := mkState (set_vars (set_isRunning false (vars (self s1))) (self s1))
                     (world s1)).
  assert (H2 : Agrees s2)
    by (apply agrees_frame with (s := s1); [exact H1|reflexivity..]).
  clearbody s2.
  set (s3 := match _stream (vars (self s2)) with
             | Some _ => mkState (self s2) (emit [FreeStreamData] (world s2))
             | None => s2
             end).
  assert (H3 : Agrees s3).
  { unfold s3. destruct (_stream (vars (self s2))); [|exact H2].
    now apply (@agrees_aside s2 FreeStreamData). }
  clearbody s3.
  set (s4 := if PyStr.truthy (_curFilename (vars (self s3)))
             then _addFileToDb s3 else s3).
  assert (H4 : Agrees s4).
  { unfold s4. destruct (PyStr.truthy _);
      [now apply agrees_addFileToDb|exact H3]. }
  clearbody s4.
  pose proof (agrees_finalize true H4) as H5.
  fold (_terminateMoverThread s4) in H5.
  set (s5 := _terminateMoverThread s4) in *. clearbody s5.
  set (s6 := if k then mkState (self s5) (emit [KillableCallback] (world s5))
             else s5).
  assert (H6 : Agrees s6).
  { unfold s6. destruct k; [|exact H5].
    now apply (@agrees_aside s5 KillableCallback). }
  clearbody s6.
  apply agrees_frame with (s := s6); [exact H6|reflexivity..].
Qed.

Lemma agrees_rollover (f : StreamFrameStruct) (s : State) :
  Agrees s -> Agrees (rollover f s).
Proof.
  intros H. unfold rollover. cbv zeta.
  set (s1 := mkState (set_vars (set_curFilePath (sf_filename f) (vars (self s)))
                               (self s)) (world s)).
  assert (H1 : Agrees s1)
    by (apply agrees_frame with (s := s); [exact H|reflexivity..]).
  clearbody s1.
  pose proof (agrees_addFileToDb H1) as H2.
  set (s2 := _addFileToDb s1) in *. clearbody s2.
  apply agrees_frame with (s := s2); [exact H2|reflexivity..].
Qed.

Lemma agrees_getNewFrame (p : Poll) (s : State) :
  Agrees s -> Agrees (snd (getNewFrame p s)).
Proof.
  intros H. unfold getNewFrame. cbv zeta.
  destruct (_stream (vars (self s))); [|exact H].
  destruct (negb (isRunning (vars (self s)))); [exact H|].
  destruct (_ =? 0)%Z.
  - cbn [snd]. pose proof (agrees_close false H) as Hc.
    destruct p; [exact Hc|].
    now apply (@agrees_aside (close false s) FreeFrameData).
  - destruct p as [r|f]; [exact H|]. cbn [snd].
    apply agrees_finalize.
    set (s1 := if (_clipManager (self s)
                   && negb (String.eqb (sf_filename f)
                                       (_curFilePath (vars (self s)))))%bool
               then rollover f s else s).
    assert (H1 : Agrees s1).
    { unfold s1. destruct (_ && _)%bool; [now apply agrees_rollover|exact H]. }
    clearbody s1.
    apply agrees_frame with (s := s1); [exact H1|reflexivity..].
Qed.

Lemma agrees_open (m : bool) (n : option Stream) (s : State) :
  Agrees s -> Agrees (snd (open m n s)).
Proof.
  intros H. unfold open. cbv zeta. cbn [snd].
  set (s1 := match _stream (vars (self s)) with
             | Some _ => close false s
             | None => s
             end).
  assert (H1 : Agrees s1).
  { unfold s1. destruct (_stream _); [now apply agrees_close|exact H]. }
  clearbody s1.
  apply agrees_frame with (s := s1); [exact H1|reflexivity|].
  destruct n; reflexivity.
Qed.

Lemma agrees_exec (op : Op) (s : State) : Agrees s -> Agrees (exec op s).
Proof.
  intros H. destruct op; cbn [exec].
  - now apply agrees_open.
  - now apply agrees_close.
  - now apply agrees_getNewFrame.
  - now apply agrees_flush.
  - destruct (getProcSize_frame s) as (Hw & Hm & _).
    apply agrees_frame with (s := s); [exact H| |exact Hm].
    unfold history. now rewrite Hw.
Qed.

Lemma agrees_execs (ops : list Op) (s : State) :
  Agrees s -> Agrees (execs ops s).
Proof.
  revert s. induction ops as [|op ops IH]; intros s H; [exact H|].
  cbn. apply IH. now apply agrees_exec.
Qed.

Lemma count_app_one (p : Event -> bool) (h : list Event) (e : Event) :
  count p (h ++ [e]) = (count p h + if p e then 1 else 0)%nat.
Proof.
  unfold count. rewrite filter_app, length_app. cbn.
  now destruct (p e).
Qed.

(** The slot a history ends in tells how many jobs were started and ended
    beyond those committed. *)
Lemma slot_counts (h : list Event) (q : Slot) :
  slot_after h = Some q ->
  count is_start h
  = (count is_commit h + match q with Idle => 0 | _ => 1 end)%nat
  /\ count is_end h
     = (count is_commit h + match q with Ended => 1 | _ => 0 end)%nat.
Proof.
  revert q. induction h as [|e h IH] using rev_ind; intros q H.
  - cbn in H. inversion H. subst. split; reflexivity.
  - rewrite slot_after_app in H. cbn in H.
    destruct (slot_after h) as [q0|]; [|discriminate H].
    destruct (IH q0 eq_refl) as [Hs He].
    rewrite !count_app_one, Hs, He.
    destruct e, q0; cbn in H; try discriminate H; inversion H; subst; cbn;
      split; lia.
Qed.

Lemma slot_after_prefix (h1 h2 : list Event) (q : Slot) :
  slot_after (h1 ++ h2) = Some q -> exists q1, slot_after h1 = Some q1.
Proof.
  rewrite slot_after_app. destruct (slot_after h1) as [q1|].
  - intros _. now exists q1.
  - rewrite slot_step_stuck. discriminate.
Qed.

(** When a session has been closed, every job it ever started has been
    committed, whatever became of the moves. *)
Lemma every_job_committed_at_close
    (name : string) (clipManager : bool) (recordDir storageDir configDir : string)
    (record moveFailedCallback : bool) (w : World) (ops : list Op) (k : bool) :
  log w = [] ->
  count is_commit
    (history (close k (execs ops (init name clipManager recordDir storageDir
                                       configDir record moveFailedCallback w))))
  = count is_start
      (history (close k (execs ops (init name clipManager recordDir storageDir
                                         configDir record moveFailedCallback w)))).
Proof.
  intros Hw.
  set (s := execs ops _).
  assert (H : Agrees (close k s)).
  { apply agrees_close. apply agrees_execs.
    unfold Agrees, history, init. cbn. now rewrite Hw. }
  destruct (close_resets k s) as [_ Hm].
  unfold Agrees, slot_of in H. rewrite Hm in H.
  destruct (@slot_counts _ _ H) as [Hs _]. lia.
Qed.

(** C4.  In every run of a session from its construction, under every
    timing of the mover thread and every outcome of the moves: at each
    point of the history the jobs started are at most one more than the
    jobs committed, none is committed before its thread ended, and a job
    is started only when every job started before has ended and has been
    committed. *)
Theorem at_most_one_job_in_flight
    (name : string) (clipManager : bool) (recordDir storageDir configDir : string)
    (record moveFailedCallback : bool) (w : World) (ops : list Op)
    (h1 h2 : list Event) :
  log w = [] ->
  history (execs ops (init name clipManager recordDir storageDir configDir
                           record moveFailedCallback w)) = h1 ++ h2 ->
  (count is_commit h1 <= count is_end h1)%nat
  /\ (count is_end h1 <= count is_start h1)%nat
  /\ (count is_start h1 <= count is_commit h1 + 1)%nat
  /\ (forall t h3, h2 = ThreadStart t :: h3 ->
        count is_end h1 = count is_start h1
        /\ count is_commit h1 = count is_start h1).
Proof.
  intros Hw Hh.
  assert (H0 : Agrees (init name clipManager recordDir storageDir configDir
                            record moveFailedCallback w)).
  { unfold Agrees, history, init. cbn. now rewrite Hw. }
  pose proof (agrees_execs ops H0) as H. unfold Agrees in H.
  rewrite Hh in H.
  destruct (slot_after_prefix _ _ H) as [q1 Hq1].
  destruct (@slot_counts h1 q1 Hq1) as [Hs He].
  repeat split; try (destruct q1; lia).
  - rewrite slot_after_app, Hq1 in H. subst h2. cbn in H.
    destruct q1; cbn in H; try (rewrite slot_step_stuck in H; discriminate H).
    lia.
  - rewrite slot_after_app, Hq1 in H. subst h2. cbn in H.
    destruct q1; cbn in H; try (rewrite slot_step_stuck in H; discriminate H).
    lia.
Qed.

(** The theorem on C4 at the session with the slow mover, at the point
    where its second job is started. *)
Lemma at_most_one_job_in_flight_witness :
  (count is_start (firstn 7 (history slow_mover_run))
   <= count is_commit (firstn 7 (history slow_mover_run)) + 1)%nat
  /\ count is_end (firstn 7 (history slow_mover_run))
     = count is_start (firstn 7 (history slow_mover_run))
  /\ count is_commit (firstn 7 (history slow_mover_run))
     = count is_start (firstn 7 (history slow_mover_run)).
Proof.
  destruct (@at_most_one_job_in_flight
              "Cam" true "/rec/Cam/" "/store/" "/cfg" true true
              (mkWorld [] [true; true; true; true; true] [false])
              [OOpen false (Some (mkStream 320 240));
               OGetNewFrame (clip1 0); OGetNewFrame (clip1 100);
               OGetNewFrame (clip2 200); OGetNewFrame (clip2 300);
               OGetNewFrame (clip1 400); OClose false]
              (firstn 7 (history slow_mover_run))
              (skipn 7 (history slow_mover_run))
              eq_refl
              (eq_sym (firstn_skipn 7 (history slow_mover_run))))
    as (_ & _ & H3 & H4).
  split; [exact H3|].
  eapply H4. vm_compute. reflexivity.
Defined.

(** *** Jobs and segments *)

Lemma submitted_app (h es : list Event) :
  submitted (h ++ es) = submitted h ++ submitted es.
Proof.
  induction h as [|e h IH]; [reflexivity|].
  destruct e; cbn; rewrite ?IH; reflexivity.
Qed.

Lemma run_submits_nothing (t : ThreadedFileMover) (moved : bool) :
  submitted (run t moved) = [].
Proof.
  unfold run.
  destruct (negb (PyStr.truthy (m_curFilename t)) || negb (m_clipManager t))%bool;
    [reflexivity|].
  destruct moved; [reflexivity|]. now destruct (m_moveFailedFn t).
Qed.

Lemma jobs_emit (o o' : StreamReader) (es : list Event) (w : World) :
  jobs_of (mkState o (emit es w)) = jobs_of (mkState o' w) ++ submitted es.
Proof.
  unfold jobs_of. now rewrite (history_emit o o'), submitted_app.
Qed.

Lemma truthy_true (x : string) : PyStr.truthy x = true <-> x <> ""%string.
Proof.
  unfold PyStr.truthy. rewrite negb_true_iff. apply String.eqb_neq.
Qed.

(** Finalizing touches neither the segment fields nor the list of jobs. *)
Lemma finalize_frame (b : bool) (s : State) :
  vars (self (_finalizeMoverThread b s)) = vars (self s)
  /\ _clipManager (self (_finalizeMoverThread b s)) = _clipManager (self s)
  /\ locationName (self (_finalizeMoverThread b s)) = locationName (self s)
  /\ jobs_of (_finalizeMoverThread b s) = jobs_of s.
Proof.
  pose proof (finalize_effect b s) as E. unfold jobs_of.
  destruct (_moverThread (self s)) as [t|].
  - destruct (seen_alive s && negb b)%bool; destruct E as [Es Eh];
      rewrite Es, Eh; [auto|].
    repeat split.
    rewrite !submitted_app, run_submits_nothing.
    destruct (seen_alive s); cbn; now rewrite app_nil_r.
  - rewrite E. auto.
Qed.

(** With a file name and a clip manager, [_addFileToDb] submits one job,
    which carries the file name and the stamps of the segment fields. *)
Lemma addFileToDb_submits (s : State) :
  PyStr.truthy (_curFilename (vars (self s))) = true ->
  _clipManager (self s) = true ->
  exists t,
    jobs_of (_addFileToDb s) = jobs_of s ++ [t]
    /\ job_key t = (_curFilename (vars (self s)), _curStartMs (vars (self s)),
                    _curLastMs (vars (self s)))
    /\ vars (self (_addFileToDb s)) = vars (self s)
    /\ _clipManager (self (_addFileToDb s)) = true
    /\ locationName (self (_addFileToDb s)) = locationName (self s).
Proof.
  intros Hf Hc. unfold _addFileToDb. rewrite Hf, Hc. cbn [negb orb].
  destruct (finalize_frame true s) as (Fv & Fc & Fl & Fj).
  fold (_terminateMoverThread s) in Fv, Fc, Fl, Fj.
  set (s1 := _terminateMoverThread s) in *. clearbody s1.
  unfold mover_init.
  destruct (getProcSize_frame s1) as (Gw & _ & Gv & Gc & Gl).
  destruct (getProcSize s1) as [p s2]. cbn [snd] in Gw, Gv, Gc, Gl.
  eexists. split; [|split; [|split; [|split]]].
  - rewrite (jobs_emit _ (self s2)). cbn [submitted].
    replace (jobs_of (mkState (self s2) (world s2))) with (jobs_of s1)
      by (unfold jobs_of, history; cbn; now rewrite Gw).
    rewrite Fj. reflexivity.
  - unfold job_key. cbn. now rewrite Gv, Fv.
  - cbn. now rewrite Gv.
  - cbn. now rewrite Gc, Fc.
  - cbn. now rewrite Gl.
Qed.

(** A job the session starts has a file name and a clip manager, so its
    thread does go on to the move. *)
Lemma started_job_moves (s : State) (t : ThreadedFileMover) :
  PyStr.truthy (_curFilename (vars (self s))) = true ->
  _clipManager (self s) = true ->
  _moverThread (self (_addFileToDb s)) = Some t ->
  moves t = true.
Proof.
  intros Hf Hc. unfold _addFileToDb. rewrite Hf, Hc. cbn [negb orb].
  destruct (finalize_frame true s) as (Fv & Fc & _).
  fold (_terminateMoverThread s) in Fv, Fc.
  set (s1 := _terminateMoverThread s) in *. clearbody s1.
  unfold mover_init.
  destruct (getProcSize_frame s1) as (_ & _ & Gv & Gc & _).
  destruct (getProcSize s1) as [p s2]. cbn [snd] in Gv, Gc.
  cbn. intros H. inversion H. subst t. unfold moves. cbn.
  now rewrite Gv, Fv, Hf, Gc, Fc, Hc.
Qed.

Lemma addFileToDb_skips (s : State) :
  PyStr.truthy (_curFilename (vars (self s))) = false ->
  _addFileToDb s = s.
Proof. intros H. unfold _addFileToDb. now rewrite H. Qed.

Lemma split_tail_empty_path (p : string) :
  PyStr.split_tail p <> ""%string -> p <> ""%string.
Proof. intros H E. subst p. now apply H. Qed.

(** The rollover branch: the superseded segment, if there is one, is
    submitted, and a segment for the frame's file is opened. *)
Lemma rollover_step (s : State) (cur : option (string * Z * Z))
    (f : StreamFrameStruct) :
  Tracking s cur ->
  names_file f ->
  exists js,
    Tracking (mkState (set_vars (set_curLastMs (sf_ms f)
                                   (vars (self (rollover f s))))
                                (self (rollover f s)))
                      (world (rollover f s)))
             (Some (sf_filename f, sf_ms f, sf_ms f))
    /\ jobs_of (rollover f s) = jobs_of s ++ js
    /\ map job_key js
       = map segment_key (match cur with Some g => [g] | None => [] end).
Proof.
  intros (Hc & Hs & Hr & Hcur) Hf. unfold rollover. cbv zeta.
  set (s1 := mkState (set_vars (set_curFilePath (sf_filename f) (vars (self s)))
                               (self s)) (world s)).
  assert (J1 : jobs_of s1 = jobs_of s) by reflexivity.
  assert (C1 : _clipManager (self s1) = true) by exact Hc.
  assert (V1 : vars (self s1) = set_curFilePath (sf_filename f) (vars (self s)))
    by reflexivity.
  clearbody s1.
  destruct cur as [[[p a] b]|].
  - destruct Hcur as (Hp & Hn & Hne & Ha & Hb).
    destruct (@addFileToDb_submits s1) as (t & Tj & Tk & Tv & Tc & Tl).
    { rewrite V1. cbn. rewrite Hn. now apply truthy_true. }
    { exact C1. }
    exists [t]. split; [|split].
    + unfold Tracking. cbn. rewrite Tv, V1. cbn.
      repeat split; auto.
    + rewrite <- J1, <- Tj. reflexivity.
    + cbn. rewrite Tk, V1. cbn. now rewrite Hn, Ha, Hb.
  - destruct Hcur as (Hp & Hn).
    rewrite (@addFileToDb_skips s1)
      by (rewrite V1; cbn; rewrite Hn; reflexivity).
    exists []. split; [|split].
    + unfold Tracking. cbn. rewrite V1. cbn. repeat split; auto.
    + rewrite app_nil_r, <- J1. reflexivity.
    + reflexivity.
Qed.

(** One delivered frame: either it extends the open segment, or it rolls
    over.  Either way the segments still to come, and the jobs submitted,
    add up to the segments of the frames from here on. *)
Lemma frame_step (s : State) (cur : option (string * Z * Z))
    (f : StreamFrameStruct) :
  Tracking s cur ->
  stops (Frame f) = false ->
  names_file f ->
  exists js cur',
    Tracking (snd (getNewFrame (Frame f) s)) (Some cur')
    /\ jobs_of (snd (getNewFrame (Frame f) s)) = jobs_of s ++ js
    /\ forall r,
         map segment_key (segs_from cur (f :: r))
         = map job_key js ++ map segment_key (segs_from (Some cur') r).
Proof.
  intros HT Hrun Hf. pose proof HT as (Hc & Hs & Hr & Hcur).
  unfold getNewFrame. cbv zeta.
  destruct (_stream (vars (self s))) as [st|] eqn:Est; [|congruence].
  rewrite Hr. cbn [negb]. cbn [stops] in Hrun. rewrite Hrun.
  rewrite Hc. cbn [andb snd].
  destruct (String.eqb (sf_filename f) (_curFilePath (vars (self s)))) eqn:E.
  - cbn [negb]. apply String.eqb_eq in E.
    destruct cur as [[[p a] b]|].
    + destruct Hcur as (Hp & Hn & Hne & Ha & Hb).
      set (s1 := mkState (set_vars (set_curLastMs (sf_ms f) (vars (self s)))
                                   (self s)) (world s)).
      destruct (finalize_frame false s1) as (Fv & Fc & Fl & Fj).
      exists [], (p, a, sf_ms f). split; [|split].
      * unfold Tracking. rewrite Fv, Fc. cbn.
        rewrite Est. repeat split; auto; discriminate.
      * rewrite Fj. unfold jobs_of. cbn. now rewrite app_nil_r.
      * intros r. cbn. rewrite E, Hp, String.eqb_refl. reflexivity.
    + destruct Hcur as (Hp & Hn). exfalso.
      apply (split_tail_empty_path Hf). congruence.
  - cbn [negb].
    destruct (@rollover_step s cur f HT Hf) as (js & RT & Rj & Rk).
    set (s1 := mkState (set_vars (set_curLastMs (sf_ms f)
                                    (vars (self (rollover f s))))
                                 (self (rollover f s)))
                       (world (rollover f s))) in *.
    destruct (finalize_frame false s1) as (Fv & Fc & Fl & Fj).
    destruct RT as (Rc & Rs & Rr & Rcur).
    exists js, (sf_filename f, sf_ms f, sf_ms f). split; [|split].
    + unfold Tracking. rewrite Fv, Fc. auto.
    + rewrite Fj, <- Rj. reflexivity.
    + intros r. rewrite Rk. destruct cur as [[[p a] b]|].
      * destruct Hcur as (Hp & _). cbn. rewrite <- Hp, E. reflexivity.
      * reflexivity.
Qed.

Lemma flush_frame (m : option Z) (s : State) :
  self (flush m s) = self s /\ jobs_of (flush m s) = jobs_of s.
Proof.
  unfold flush. destruct (_stream (vars (self s))); [|auto].
  destruct (isRunning (vars (self s)) && _)%bool; [|auto].
  split; [reflexivity|]. rewrite (jobs_emit _ (self s)). cbn.
  rewrite app_nil_r. now destruct s.
Qed.

(** [close] submits the open segment, if there is one, and nothing else. *)
Lemma close_jobs (k : bool) (s : State) (cur : option (string * Z * Z)) :
  Tracking s cur ->
  exists js,
    jobs_of (close k s) = jobs_of s ++ js
    /\ map job_key js
       = map segment_key (match cur with Some g => [g] | None => [] end).
Proof.
  intros (Hc & Hs & Hr & Hcur). unfold close. cbv zeta.
  destruct (flush_frame None s) as [F1 J1].
  set (s1 := flush None s) in *. clearbody s1.
  set (s2 := mkState (set_vars (set_isRunning false (vars (self s1))) (self s1))
                     (world s1)).
  assert (J2 : jobs_of s2 = jobs_of s) by (rewrite <- J1; reflexivity).
  assert (V2 : vars (self s2) = set_isRunning false (vars (self s)))
    by (unfold s2; cbn; now rewrite F1).
  assert (C2 : _clipManager (self s2) = true)
    by (unfold s2; cbn; now rewrite F1).
  clearbody s2.
  set (s3 := match _stream (vars (self s2)) with
             | Some _ => mkState (self s2) (emit [FreeStreamData] (world s2))
             | None => s2
             end).
  assert (J3 : jobs_of s3 = jobs_of s).
  { unfold s3. destruct (_stream (vars (self s2))); [|exact J2].
    rewrite (jobs_emit _ (self s2)). cbn. rewrite app_nil_r, <- J2.
    now destruct s2. }
  assert (V3 : vars (self s3) = set_isRunning false (vars (self s)))
    by (unfold s3; destruct (_stream (vars (self s2))); exact V2).
  assert (C3 : _clipManager (self s3) = true)
    by (unfold s3; destruct (_stream (vars (self s2))); exact C2).
  clearbody s3.
  set (s4 := if PyStr.truthy (_curFilename (vars (self s3)))
             then _addFileToDb s3 else s3).
  assert (J4 : exists js, jobs_of s4 = jobs_of s ++ js
            /\ map job_key js
               = map segment_key (match cur with Some g => [g] | None => [] end)).
  { unfold s4. destruct cur as [[[p a] b]|].
    - destruct Hcur as (Hp & Hn & Hne & Ha & Hb).
      assert (T : PyStr.truthy (_curFilename (vars (self s3))) = true)
        by (rewrite V3; cbn; rewrite Hn; now apply truthy_true).
      rewrite T.
      destruct (addFileToDb_submits s3 T C3) as (t & Tj & Tk & _).
      exists [t]. split; [now rewrite Tj, J3|].
      cbn. rewrite Tk, V3. cbn. now rewrite Hn, Ha, Hb.
    - destruct Hcur as (Hp & Hn).
      replace (PyStr.truthy (_curFilename (vars (self s3)))) with false
        by (rewrite V3; cbn; now rewrite Hn).
      exists []. split; [now rewrite app_nil_r|reflexivity]. }
  clearbody s4. destruct J4 as (js & J4 & K4).
  destruct (finalize_frame true s4) as (_ & _ & _ & J5).
  fold (_terminateMoverThread s4) in J5.
  set (s5 := _terminateMoverThread s4) in *. clearbody s5.
  exists js. split; [|exact K4].
  rewrite <- J4, <- J5. unfold _initVariables.
  destruct k; cbn [self world].
  - rewrite (jobs_emit _ (self s5)). cbn. rewrite app_nil_r. now destruct s5.
  - reflexivity.
Qed.

Lemma getNewFrame_closed (x : Poll) (s : State) :
  _stream (vars (self s)) = None -> getNewFrame x s = (None, s).
Proof. intros H. unfold getNewFrame. now rewrite H. Qed.

Lemma polls_closed (ps : list Poll) (s : State) :
  _stream (vars (self s)) = None -> polls ps s = s.
Proof.
  intros H. induction ps as [|x ps IH]; [reflexivity|].
  cbn. rewrite (getNewFrame_closed x s H). exact IH.
Qed.

(** A poll that finds the stream stopped closes the session. *)
Lemma stop_step (s : State) (cur : option (string * Z * Z)) (x : Poll) :
  Tracking s cur ->
  stops x = true ->
  vars (self (snd (getNewFrame x s))) = initial_vars
  /\ _moverThread (self (snd (getNewFrame x s))) = None
  /\ jobs_of (snd (getNewFrame x s)) = jobs_of (close false s).
Proof.
  intros (Hc & Hs & Hr & Hcur) Hx. unfold getNewFrame. cbv zeta.
  destruct (_stream (vars (self s))) as [st|] eqn:Est; [|congruence].
  rewrite Hr. cbn [negb].
  destruct (close_resets false s) as [Cv Cm].
  destruct x as [r|f]; cbn [stops] in Hx; rewrite Hx; cbn [snd].
  - auto.
  - cbn [self]. repeat split; auto.
    rewrite (jobs_emit _ (self (close false s))). cbn.
    rewrite app_nil_r. reflexivity.
Qed.

Lemma idle_step (s : State) (cur : option (string * Z * Z)) (r : Z) :
  Tracking s cur ->
  stops (NoFrame r) = false ->
  snd (getNewFrame (NoFrame r) s) = s.
Proof.
  intros (Hc & Hs & Hr & Hcur) Hx. unfold getNewFrame. cbv zeta.
  destruct (_stream (vars (self s))) as [st|] eqn:Est; [|congruence].
  rewrite Hr. cbn [negb]. cbn [stops] in Hx. now rewrite Hx.
Qed.

(** A closed session submits nothing more. *)
Lemma closed_session_jobs (k : bool) (ps : list Poll) (s : State) :
  vars (self s) = initial_vars ->
  _moverThread (self s) = None ->
  jobs_of (close k (polls ps s)) = jobs_of s.
Proof.
  intros Hv Hm.
  rewrite polls_closed by (rewrite Hv; reflexivity).
  rewrite (close_when_closed k s Hv Hm). destruct k; [|reflexivity].
  rewrite (jobs_emit _ (self s)). cbn. rewrite app_nil_r. reflexivity.
Qed.



Lemma segs_length (fs : list StreamFrameStruct) :
  forall (p : string) (a b : Z),
  List.length (segs p a b fs) = S (changes p fs).
Proof.
  induction fs as [|f r IH]; intros p a b; [reflexivity|].
  cbn. destruct (String.eqb (sf_filename f) p) eqn:E.
  - apply String.eqb_eq in E. rewrite IH, E. reflexivity.
  - cbn. now rewrite IH.
Qed.

Lemma segments_length (fs : list StreamFrameStruct) :
  List.length (segments fs)
  = (transitions fs + match fs with [] => 0 | _ => 1 end)%nat.
Proof.
  destruct fs as [|f r]; [reflexivity|].
  cbn. rewrite segs_length. lia.
Qed.




End StreamReaderFacts.

(* ================================================================== *)
(** ** Facts about whole sessions of a clip reader *)

Unset Implicit Arguments.

Module ClipSessionFacts.

Import ClipReader_py ClipSession ClipReaderFacts.
Local Open Scope Z_scope.

Section Facts.

Context {L : ClipLib}.

(** *** The two positions never part *)

(** What [open] leaves: a freshly reset reader with the arguments stored
    and the new reader, if the native open worked, in the first slot.  The
    handles of the clip open before are freed. *)
Lemma open_shape (f : string) (w h m : Z) (ex : option Extras) (s : State) :
  exists r,
    self (snd (open f w h m ex s))
    = mkClipReader None None r (Some f) w h m ex (-1) (-1) false None None
    /\ fst (open f w h m ex s) = (match r with Some _ => true | None => false end)
    /\ holds_handle r
    /\ handles_opened (lib (snd (open f w h m ex s)))
       = (handles_opened (lib s) + filled r)%nat
    /\ handles_freed (lib (snd (open f w h m ex s)))
       = handles_freed (lib (close s)).
Proof.
  unfold open, close, _reset, _allocReader, ff_open. cbn.
  rewrite !close_slot_opened.
  match goal with
  | |- context [open_clip ?a ?b ?c ?d ?e ?g] =>
      destruct (open_clip a b c d e g) as [c0|]
  end; cbn; eexists; repeat split; cbn; try lia.
  unfold ff_setMute. cbn. discriminate.
Qed.

Lemma resync_when_synced (s : State) : Synced s -> resync s = s.
Proof.
  unfold Synced, resync. intros ->. now rewrite Z.eqb_refl.
Qed.

Lemma seek_synced (m : Z) (s : State) : Synced s -> Synced (snd (seek m s)).
Proof.
  intros H. pose proof (getSeqReader_untouched s) as G. unfold Synced in *.
  unfold seek. destruct (_getSeqReader s) as [[r|] s1]; cbn in *.
  - destruct (ff_seek m r) as [[f|] r']; reflexivity.
  - intuition congruence.
Qed.

Lemma call_synced (c : Call) (s : State) :
  Synced s -> Synced (snd (call c s)).
Proof.
  intros H. destruct c; cbn [call snd].
  - unfold getNextFrame. rewrite (resync_when_synced s H).
    pose proof (getSeqReader_untouched s) as G. unfold Synced in *.
    destruct (_getSeqReader s) as [[r|] s1]; cbn in *; [|intuition congruence].
    destruct (ff_getNextFrame r) as [[f|] r']; reflexivity.
  - unfold getPrevFrame. rewrite (resync_when_synced s H).
    pose proof (getSeqReader_untouched s) as G. unfold Synced in *.
    destruct (_getSeqReader s) as [[r|] s1]; cbn in *; [|intuition congruence].
    destruct (ff_getPrevFrame r) as [[f|] r']; reflexivity.
  - now apply seek_synced.
  - unfold Synced in *.
    destruct (getFrameAt_frame msOffset s) as (_ & Hp & Hr & _). congruence.
  - unfold Synced in *. unfold getDuration.
    destruct (_duration (self s)); [exact H|].
    destruct (_getAnyReader (self s)); exact H.
  - pose proof (getRandReader_untouched s) as G. unfold Synced in *.
    unfold getMsList. destruct (msList_falsy _); [|exact H].
    destruct (_getRandReader s) as [[r|] s1]; cbn in *; [|intuition congruence].
    destruct (ff_getMsList r) as [l r']; cbn. intuition congruence.
  - pose proof (getSeqReader_untouched s) as G. unfold Synced in *.
    unfold getNextFrameOffset.
    destruct (_getSeqReader s) as [[r|] s1]; cbn in *; intuition congruence.
  - exact H.
  - exact H.
  - exact H.
Qed.

Lemma request_synced (r : Request) (s : State) :
  Synced s -> Synced (request r s).
Proof.
  intros H. destruct r as [f w h m ex| |c]; cbn [request].
  - destruct (open_shape f w h m ex s) as (r0 & E & _). unfold Synced.
    now rewrite E.
  - reflexivity.
  - now apply call_synced.
Qed.

Lemma requests_synced (l : list Request) (s : State) :
  Synced s -> Synced (requests l s).
Proof.
  revert s. induction l as [|r l IH]; intros s H; [exact H|].
  cbn. apply IH. now apply request_synced.
Qed.

(** X1.  Whatever a client asks of a reader through its methods, the
    position of the last delivered frame and the position tracked for the
    sequential reader stay equal; so the re-seek at the head of
    [getNextFrame] and [getPrevFrame] is never taken. *)
Theorem positions_stay_synced (l : list Request) :
  _readerPrevMs (self (requests l init)) = prevMs (self (requests l init))
  /\ resync (requests l init) = requests l init.
Proof.
  assert (H : Synced (requests l init)) by (now apply requests_synced).
  split; [exact H|now apply resync_when_synced].
Qed.

(** *** Handles are accounted for *)

Lemma close_slot_freed (r : option FfMpegClipReader) (u : LibUse) :
  holds_handle r ->
  handles_freed (close_slot r u) = (handles_freed u + filled r)%nat.
Proof.
  destruct r as [x|]; cbn; [|lia]. intros H.
  destruct (_clip x); [cbn; lia|congruence].
Qed.

Lemma close_slot_freed_le (r : option FfMpegClipReader) (u : LibUse) :
  handles_freed (close_slot r u) = handles_freed u
  \/ handles_freed (close_slot r u) = S (handles_freed u).
Proof.
  destruct r as [x|]; cbn; [|now left]. destruct (_clip x); cbn; auto.
Qed.

Lemma close_accounted (s : State) :
  Accounted s ->
  Accounted (close s)
  /\ handles_opened (lib (close s)) = handles_freed (lib (close s)).
Proof.
  intros (Hf & Hr & Hs & Hn & _). unfold close, _reset. cbn.
  assert (E : handles_freed
                (close_slot (_seqReader (self s))
                   (close_slot (_randReader (self s))
                      (close_slot (_firstReader (self s)) (lib s))))
              = handles_opened (lib s)).
  { rewrite !close_slot_freed by assumption. unfold live in Hn. lia. }
  split.
  - unfold Accounted. cbn. rewrite !close_slot_opened, E.
    repeat split; auto; congruence.
  - rewrite !close_slot_opened, E. reflexivity.
Qed.

(** An allocation: the object is as before, nothing is freed, and a handle
    is opened exactly when a reader comes back. *)
Lemma allocReader_accounting (s : State) :
  self (snd (_allocReader s)) = self s
  /\ handles_freed (lib (snd (_allocReader s))) = handles_freed (lib s)
  /\ handles_opened (lib (snd (_allocReader s)))
     = (handles_opened (lib s) + filled (fst (_allocReader s)))%nat
  /\ holds_handle (fst (_allocReader s)).
Proof.
  unfold _allocReader, ff_open. cbn.
  match goal with
  | |- context [open_clip ?a ?b ?c ?d ?e ?g] =>
      destruct (open_clip a b c d e g) as [c0|]
  end; cbn; repeat split; try lia.
  unfold ff_setMute. cbn. discriminate.
Qed.

Lemma getSeqReader_accounted (s : State) :
  Accounted s ->
  Accounted (snd (_getSeqReader s))
  /\ _seqReader (self (snd (_getSeqReader s))) = fst (_getSeqReader s)
  /\ _firstReader (self (snd (_getSeqReader s))) = None.
Proof.
  intros (Hf & Hr & Hs & Hn & Hx). unfold _getSeqReader.
  destruct (_seqReader (self s)) as [r|] eqn:Es.
  - cbn. split; [|split; [exact Es|]].
    + unfold Accounted. rewrite Es. auto.
    + destruct (_firstReader (self s)) eqn:Ef; [|reflexivity].
      destruct Hx as [_ Hx]; congruence.
  - destruct (_firstReader (self s)) as [f|] eqn:Ef.
    + cbn. split; [|auto]. unfold Accounted, live in *. cbn.
      rewrite Ef, Es in *. cbn in *.
      repeat split; auto; try lia; congruence.
    + destruct (allocReader_accounting s) as (A1 & A2 & A3 & A4).
      destruct (_allocReader s) as [r s1]. cbn in *.
      split; [|split; [reflexivity|now rewrite A1]].
      unfold Accounted, live in *. cbn. rewrite A1, A2, A3, Ef, Es in *.
      cbn in *. repeat split; auto; try lia; congruence.
Qed.

Lemma getRandReader_accounted (s : State) :
  Accounted s ->
  Accounted (snd (_getRandReader s))
  /\ _randReader (self (snd (_getRandReader s))) = fst (_getRandReader s)
  /\ _firstReader (self (snd (_getRandReader s))) = None.
Proof.
  intros (Hf & Hr & Hs & Hn & Hx). unfold _getRandReader.
  destruct (_randReader (self s)) as [r|] eqn:Er.
  - cbn. split; [|split; [exact Er|]].
    + unfold Accounted. rewrite Er. auto.
    + destruct (_firstReader (self s)) eqn:Ef; [|reflexivity].
      destruct Hx as [Hx _]; congruence.
  - destruct (_firstReader (self s)) as [f|] eqn:Ef.
    + cbn. split; [|auto]. unfold Accounted, live in *. cbn.
      rewrite Ef, Er in *. cbn in *.
      repeat split; auto; try lia; congruence.
    + destruct (allocReader_accounting s) as (A1 & A2 & A3 & A4).
      destruct (_allocReader s) as [r s1]. cbn in *.
      split; [|split; [reflexivity|now rewrite A1]].
      unfold Accounted, live in *. cbn. rewrite A1, A2, A3, Ef, Er in *.
      cbn in *. repeat split; auto; try lia; congruence.
Qed.

Lemma ff_frame_holds (g : Clip -> option Z * Clip) (r : FfMpegClipReader) :
  _clip r <> None -> _clip (snd (ff_frame g r)) <> None.
Proof.
  unfold ff_frame. destruct (_clip r) as [c|]; [|congruence]. intros _.
  destruct (g c) as [[t|] c']; cbn; discriminate.
Qed.

(** Putting a reader with a handle back into the slot it came from. *)
Lemma put_back_seq (s : State) (r' : FfMpegClipReader) (o : ClipReader) :
  Accounted s ->
  _seqReader (self s) <> None ->
  _clip r' <> None ->
  _seqReader o = Some r' ->
  _randReader o = _randReader (self s) ->
  _firstReader o = _firstReader (self s) ->
  Accounted (mkState o (lib s)).
Proof.
  intros (Hf & Hr & Hs & Hn & Hx) Hne Hc E1 E2 E3.
  unfold Accounted, live in *. cbn. rewrite E1, E2, E3.
  destruct (_seqReader (self s)); [|congruence]. cbn in *.
  repeat split; auto; try lia;
    match goal with
    | H : _firstReader _ <> None |- _ => destruct (Hx H); congruence
    end.
Qed.

Lemma put_back_rand (s : State) (r' : FfMpegClipReader) (o : ClipReader) :
  Accounted s ->
  _randReader (self s) <> None ->
  _clip r' <> None ->
  _randReader o = Some r' ->
  _seqReader o = _seqReader (self s) ->
  _firstReader o = _firstReader (self s) ->
  Accounted (mkState o (lib s)).
Proof.
  intros (Hf & Hr & Hs & Hn & Hx) Hne Hc E1 E2 E3.
  unfold Accounted, live in *. cbn. rewrite E1, E2, E3.
  destruct (_randReader (self s)); [|congruence]. cbn in *.
  repeat split; auto; try lia;
    match goal with
    | H : _firstReader _ <> None |- _ => destruct (Hx H); congruence
    end.
Qed.

(** Changing fields other than the slots. *)
Lemma accounted_frame (s : State) (o : ClipReader) :
  Accounted s ->
  _seqReader o = _seqReader (self s) ->
  _randReader o = _randReader (self s) ->
  _firstReader o = _firstReader (self s) ->
  Accounted (mkState o (lib s)).
Proof.
  intros H E1 E2 E3. unfold Accounted, live in *. cbn.
  now rewrite E1, E2, E3.
Qed.

Lemma seq_handle (s : State) (r : FfMpegClipReader) :
  Accounted s -> _seqReader (self s) = Some r -> _clip r <> None.
Proof. intros (_ & _ & Hs & _) E. rewrite E in Hs. exact Hs. Qed.

Lemma rand_handle (s : State) (r : FfMpegClipReader) :
  Accounted s -> _randReader (self s) = Some r -> _clip r <> None.
Proof. intros (_ & Hr & _) E. rewrite E in Hr. exact Hr. Qed.

(** A frame getter run on the sequential reader, whatever is then done to
    the fields that are not slots. *)
Lemma seq_getter_accounted (g : Clip -> option Z * Clip)
    (k : option ClipFrame -> ClipReader -> ClipReader) (s : State) :
  (forall f o, _seqReader (k f o) = _seqReader o
               /\ _randReader (k f o) = _randReader o
               /\ _firstReader (k f o) = _firstReader o) ->
  Accounted s ->
  Accounted
    (let '(reader, s1) := _getSeqReader s in
     match reader with
     | None => s1
     | Some r =>
         let '(f, r') := ff_frame g r in
         mkState (k f (set_seqReader (Some r') (self s1))) (lib s1)
     end).
Proof.
  intros Hk H. destruct (getSeqReader_accounted s H) as (H1 & E & _).
  destruct (_getSeqReader s) as [[r|] s1]; cbn in *; [|exact H1].
  pose proof (ff_frame_holds g r (seq_handle s1 r H1 E)) as Hc.
  destruct (ff_frame g r) as [f r']. cbn in Hc.
  destruct (Hk f (set_seqReader (Some r') (self s1))) as (K1 & K2 & K3).
  apply (put_back_seq s1 r' _ H1); rewrite ?K1, ?K2, ?K3; cbn;
    congruence.
Qed.

Lemma seek_accounted (m : Z) (s : State) :
  Accounted s -> Accounted (snd (seek m s)).
Proof.
  intros H.
  pose proof (seq_getter_accounted (fun c => get_frame_at c m)
                (fun f o => match f with
                            | None => set_position (-1) (-1) o
                            | Some x => set_position (ms x) (ms x) o
                            end) s) as G.
  unfold seek, ff_seek, ff_getFrameAt.
  destruct (_getSeqReader s) as [[r|] s1]; cbn in *.
  - destruct (ff_frame (fun c => get_frame_at c m) r) as [[f|] r']; cbn;
      apply G; auto; intros [x|] o; auto.
  - apply G; auto. intros [x|] o; auto.
Qed.

Lemma resync_accounted (s : State) : Accounted s -> Accounted (resync s).
Proof.
  intros H. unfold resync. destruct (negb _); [|exact H].
  now apply seek_accounted.
Qed.

Lemma getNextFrame_accounted (s : State) :
  Accounted s -> Accounted (snd (getNextFrame s)).
Proof.
  intros H. apply resync_accounted in H.
  pose proof (seq_getter_accounted get_next_frame
                (fun f o => match f with
                            | None => set_isDone true (set_position (-1) (-1) o)
                            | Some x => set_position (ms x) (ms x) o
                            end) (resync s)) as G.
  unfold getNextFrame, ff_getNextFrame.
  destruct (_getSeqReader (resync s)) as [[r|] s1]; cbn in *.
  - destruct (ff_frame get_next_frame r) as [[f|] r']; cbn;
      apply G; auto; intros [x|] o; auto.
  - apply G; auto. intros [x|] o; auto.
Qed.

Lemma getPrevFrame_accounted (s : State) :
  Accounted s -> Accounted (snd (getPrevFrame s)).
Proof.
  intros H. apply resync_accounted in H.
  pose proof (seq_getter_accounted get_prev_frame
                (fun f o => match f with
                            | None => set_position (-1) (-1) o
                            | Some x =>
                                set_position (ms x) (ms x) (set_isDone false o)
                            end) (resync s)) as G.
  unfold getPrevFrame, ff_getPrevFrame.
  destruct (_getSeqReader (resync s)) as [[r|] s1]; cbn in *.
  - destruct (ff_frame get_prev_frame r) as [[f|] r']; cbn;
      apply G; auto; intros [x|] o; auto.
  - apply G; auto. intros [x|] o; auto.
Qed.

Lemma getFrameAt_accounted (m : Z) (s : State) :
  Accounted s -> Accounted (snd (getFrameAt m s)).
Proof.
  intros H. destruct (getRandReader_accounted s H) as (H1 & E & _).
  unfold getFrameAt, ff_getFrameAt.
  destruct (_getRandReader s) as [[r|] s1]; cbn in *; [|exact H1].
  pose proof (ff_frame_holds (fun c => get_frame_at c m) r
                (rand_handle s1 r H1 E)) as Hc.
  destruct (ff_frame (fun c => get_frame_at c m) r) as [f r']. cbn in *.
  apply (put_back_rand s1 r' _ H1); cbn; congruence.
Qed.

Lemma getMsList_accounted (s : State) :
  Accounted s -> Accounted (snd (getMsList s)).
Proof.
  intros H. unfold getMsList. destruct (msList_falsy _); [|exact H].
  destruct (getRandReader_accounted s H) as (H1 & E & _).
  destruct (_getRandReader s) as [[r|] s1]; cbn in *; [|exact H1].
  pose proof (rand_handle s1 r H1 E) as Hc. unfold ff_getMsList.
  destruct (_clip r) as [c|] eqn:Ec; [|congruence].
  destruct (get_ms_list c) as [res c']. cbn.
  apply (put_back_rand s1
           (mkFfReader (Some c') (_mute r) (_width r) (_height r)) _ H1);
    cbn; congruence.
Qed.

Lemma ff_setMute_holds (b : bool) (r : option FfMpegClipReader) :
  holds_handle r -> holds_handle (option_map (ff_setMute b) r)
  /\ filled (option_map (ff_setMute b) r) = filled r
  /\ (option_map (ff_setMute b) r = None <-> r = None).
Proof.
  destruct r as [x|]; cbn; [|intuition congruence]. unfold ff_setMute.
  intros H. destruct (_clip x); [|congruence]. cbn.
  repeat split; try discriminate.
Qed.

Lemma ff_setOutputSize_holds (w h : Z) (r : option FfMpegClipReader) :
  holds_handle r -> holds_handle (option_map (ff_setOutputSize w h) r)
  /\ filled (option_map (ff_setOutputSize w h) r) = filled r
  /\ (option_map (ff_setOutputSize w h) r = None <-> r = None).
Proof.
  destruct r as [x|]; cbn; [|intuition congruence]. unfold ff_setOutputSize.
  intros H. destruct (_clip x); [|congruence]. cbn.
  repeat split; try discriminate.
Qed.

Lemma call_accounted (c : Call) (s : State) :
  Accounted s -> Accounted (snd (call c s)).
Proof.
  intros H. destruct c; cbn [call snd].
  - now apply getNextFrame_accounted.
  - now apply getPrevFrame_accounted.
  - now apply seek_accounted.
  - now apply getFrameAt_accounted.
  - unfold getDuration. destruct (_duration (self s)); [exact H|].
    destruct (_getAnyReader (self s)); [|exact H].
    now apply accounted_frame.
  - now apply getMsList_accounted.
  - destruct (getSeqReader_accounted s H) as (H1 & _).
    unfold getNextFrameOffset.
    destruct (_getSeqReader s) as [[r|] s1]; exact H1.
  - destruct H as (Hf & Hr & Hs & Hn & Hx).
    destruct (ff_setMute_holds mute _ Hr) as (R1 & R2 & R3).
    destruct (ff_setMute_holds mute _ Hs) as (S1 & S2 & S3).
    unfold setMute, Accounted, live in *. cbn. rewrite R2, S2.
    repeat split; auto; destruct (Hx ltac:(assumption)); [apply R3|apply S3];
      assumption.
  - now apply accounted_frame.
  - destruct H as (Hf & Hr & Hs & Hn & Hx).
    destruct (ff_setOutputSize_holds w h _ Hf) as (F1 & F2 & F3).
    destruct (ff_setOutputSize_holds w h _ Hr) as (R1 & R2 & R3).
    destruct (ff_setOutputSize_holds w h _ Hs) as (S1 & S2 & S3).
    unfold setOutputSize, Accounted, live in *. cbn. rewrite F2, R2, S2.
    repeat split; auto;
      match goal with
      | G : option_map _ (_firstReader _) <> None |- _ =>
          assert (G' : _firstReader (self s) <> None)
            by (intros E; apply G; now apply F3);
          destruct (Hx G')
      end; [apply R3|apply S3]; assumption.
Qed.

Lemma request_accounted (r : Request) (s : State) :
  Accounted s -> Accounted (request r s).
Proof.
  intros H. destruct r as [f w h m ex| |c]; cbn [request].
  - destruct (close_accounted s H) as [_ Hc].
    destruct (open_shape f w h m ex s) as (r0 & E & _ & Hh & Ho & Hf).
    unfold Accounted, live. rewrite E, Ho, Hf, <- Hc.
    unfold close, _reset. cbn. rewrite !close_slot_opened.
    repeat split; auto; try lia; discriminate.
  - now apply close_accounted.
  - now apply call_accounted.
Qed.

Lemma requests_accounted (l : list Request) (s : State) :
  Accounted s -> Accounted (requests l s).
Proof.
  revert s. induction l as [|r l IH]; intros s H; [exact H|].
  cbn. apply IH. now apply request_accounted.
Qed.

Lemma init_accounted : Accounted init.
Proof. unfold Accounted, init. cbn. repeat split; auto; congruence. Qed.

(** X2.  In every session the native handles opened and not yet freed are
    exactly the readers in the three slots, there are never more than two
    of them, and [close] frees them all. *)
Theorem handles_never_leak (l : list Request) :
  handles_opened (lib (requests l init))
  = (handles_freed (lib (requests l init)) + live (self (requests l init)))%nat
  /\ (live (self (requests l init)) <= 2)%nat
  /\ handles_opened (lib (close (requests l init)))
     = handles_freed (lib (close (requests l init)))
  /\ live (self (close (requests l init))) = 0%nat.
Proof.
  pose proof (requests_accounted l init init_accounted) as H.
  destruct (close_accounted _ H) as [_ Hc].
  destruct H as (_ & _ & _ & Hn & Hx).
  split; [exact Hn|]. split; [|split; [exact Hc|reflexivity]].
  unfold live, filled.
  destruct (_firstReader (self (requests l init))) as [f|].
  - destruct Hx as [-> ->]; [discriminate|]. cbn. lia.
  - destruct (_randReader _), (_seqReader _); cbn; lia.
Qed.

(** *** Memoized answers *)

(** X3.  [getDuration] never opens or frees a handle and leaves the three
    slots alone.  With no reader and nothing cached it answers -1 and
    caches nothing; otherwise its answer is cached, so that asking again
    gives the same answer and changes nothing. *)
Theorem getDuration_is_memoized (s : State) :
  lib (snd (getDuration s)) = lib s
  /\ _seqReader (self (snd (getDuration s))) = _seqReader (self s)
  /\ _randReader (self (snd (getDuration s))) = _randReader (self s)
  /\ _firstReader (self (snd (getDuration s))) = _firstReader (self s)
  /\ match _duration (self s), _getAnyReader (self s) with
     | None, None => getDuration s = (-1, s)
     | _, _ =>
         getDuration (snd (getDuration s))
         = (fst (getDuration s), snd (getDuration s))
     end.
Proof.
  unfold getDuration.
  destruct (_duration (self s)) as [d|] eqn:Ed.
  - cbn. rewrite Ed. auto.
  - destruct (_getAnyReader (self s)) as [r|] eqn:Er; cbn; auto.
Qed.

(** X4.  [getMsList] works on the random reader: the sequential slot, the
    two positions and the done flag are as before.  An answer that is not
    empty is cached, so that asking again gives the same list and changes
    nothing; an empty answer leaves the cache falsy, so that the next call
    asks the native reader again. *)
Theorem getMsList_is_memoized (s : State) :
  _seqReader (self (snd (getMsList s))) = _seqReader (self s)
  /\ prevMs (self (snd (getMsList s))) = prevMs (self s)
  /\ _readerPrevMs (self (snd (getMsList s))) = _readerPrevMs (self s)
  /\ isDone (self (snd (getMsList s))) = isDone (self s)
  /\ match fst (getMsList s) with
     | [] => msList_falsy (_msList (self (snd (getMsList s)))) = true
     | _ :: _ =>
         getMsList (snd (getMsList s))
         = (fst (getMsList s), snd (getMsList s))
     end.
Proof.
  pose proof (getRandReader_untouched s) as G. unfold getMsList.
  destruct (msList_falsy (_msList (self s))) eqn:Em.
  - destruct (_getRandReader s) as [[r|] s1]; cbn in *.
    + destruct (ff_getMsList r) as [l r']. cbn.
      destruct G as (G1 & G2 & G3 & G4 & _).
      repeat split; auto. destruct l; reflexivity.
    + destruct G as (G1 & G2 & G3 & G4 & _ & G6).
      repeat split; auto. now rewrite G6.
  - cbn. repeat split.
    destruct (_msList (self s)) as [[|x l]|]; try discriminate Em.
    cbn. reflexivity.
Qed.

(** *** What [None] from [getNextFrame] means *)

Lemma resync_without_reader (s : State) :
  fst (_getSeqReader (resync s)) = None ->
  prevMs (self (snd (_getSeqReader (resync s)))) = prevMs (self s)
  /\ isDone (self (snd (_getSeqReader (resync s)))) = isDone (self s)
  /\ _seqReader (self (snd (_getSeqReader (resync s)))) = None.
Proof.
  intros H.
  assert (Hslot : forall t : State,
             fst (_getSeqReader t) = None ->
             _seqReader (self (snd (_getSeqReader t))) = None).
  { intros t. unfold _getSeqReader.
    destruct (_seqReader (self t)); [discriminate|].
    destruct (_firstReader (self t)); [discriminate|].
    destruct (_allocReader t) as [r t1]. cbn. auto. }
  destruct (getSeqReader_untouched (resync s)) as (_ & Hp & _ & Hd & _).
  split; [|split; [|now apply Hslot]].
  - rewrite Hp. unfold resync. destruct (negb _); [|reflexivity].
    unfold seek.
    destruct (getSeqReader_untouched s) as (_ & Hp' & _).
    destruct (_getSeqReader s) as [[r|] s1] eqn:E; cbn in *; [|exact Hp'].
    exfalso. unfold resync in H.
    destruct (negb _) in H; unfold seek in H; rewrite ?E in H; cbn in H;
      try discriminate H.
    destruct (ff_seek (prevMs (self s)) r) as [[f|] r'] in H; cbn in H;
      unfold _getSeqReader in H; cbn in H; discriminate H.
  - rewrite Hd. apply resync_keeps_done.
Qed.

(** X5.  A frame from [getNextFrame] becomes the position and leaves the
    done flag as it was.  [None] has two meanings that the flag and the
    slot tell apart: the native reader had no frame, and then the flag is
    set and the position cleared; or there is no sequential reader because
    the clip could not be opened, and then flag and position are as
    before. *)
Theorem getNextFrame_none_is_end_or_no_reader (s : State) :
  match fst (getNextFrame s) with
  | Some f =>
      prevMs (self (snd (getNextFrame s))) = ms f
      /\ _readerPrevMs (self (snd (getNextFrame s))) = ms f
      /\ isDone (self (snd (getNextFrame s))) = isDone (self s)
  | None =>
      (_seqReader (self (snd (getNextFrame s))) <> None
       /\ isDone (self (snd (getNextFrame s))) = true
       /\ prevMs (self (snd (getNextFrame s))) = -1)
      \/ (_seqReader (self (snd (getNextFrame s))) = None
          /\ isDone (self (snd (getNextFrame s))) = isDone (self s)
          /\ prevMs (self (snd (getNextFrame s))) = prevMs (self s))
  end.
Proof.
  pose proof (resync_without_reader s) as N.
  pose proof (getSeqReader_after_resync_done s) as D.
  unfold getNextFrame.
  destruct (_getSeqReader (resync s)) as [[r|] s1]; cbn in *.
  - destruct (ff_getNextFrame r) as [[f|] r']; cbn.
    + auto.
    + left. repeat split. discriminate.
  - right. destruct (N eq_refl) as (N1 & N2 & N3). auto.
Qed.

End Facts.

End ClipSessionFacts.

(* ================================================================== *)
(** ** Facts about the jobs of a stream session *)

Module StreamSessionFacts.

Import StreamReader_py StreamSession StreamReaderFacts.
Local Open Scope Z_scope.

(** *** Any property of history and slot that the mover protocol keeps *)

Section Protocol.

Variable P : list Event -> option ThreadedFileMover -> Prop.

Hypothesis P_aside :
  forall h m e, aside e = true -> P h m -> P (h ++ [e]) m.

Hypothesis P_finalize :
  forall h t moved (alive : bool),
    P h (Some t) ->
    P (h ++ run t moved ++ (if alive then [ThreadJoin] else [])
         ++ [addFileToDb t]) None.

Hypothesis P_start :
  forall h t, P h None -> P (h ++ [ThreadStart t]) (Some t).

Definition Holds (s : State) : Prop :=
  P (history s) (_moverThread (self s)).

Lemma holds_frame (s s' : State) :
  Holds s ->
  history s' = history s ->
  _moverThread (self s') = _moverThread (self s) ->
  Holds s'.
Proof. unfold Holds. intros H Hh Hm. now rewrite Hh, Hm. Qed.

Lemma holds_aside (s : State) (e : Event) :
  aside e = true -> Holds s ->
  Holds (mkState (self s) (emit [e] (world s))).
Proof.
  unfold Holds. intros He H. rewrite (history_emit _ (self s)).
  cbn [self]. apply P_aside; [exact He|]. exact H.
Qed.

Lemma holds_finalize (b : bool) (s : State) :
  Holds s -> Holds (_finalizeMoverThread b s).
Proof.
  unfold Holds. intros H. pose proof (finalize_effect b s) as E.
  destruct (_moverThread (self s)) as [t|] eqn:Et.
  - destruct (seen_alive s && negb b)%bool; destruct E as [Es Eh].
    + now rewrite Eh, Es, Et.
    + rewrite Eh, Es. cbn. now apply P_finalize.
  - rewrite E. now rewrite Et.
Qed.

Lemma holds_addFileToDb (s : State) : Holds s -> Holds (_addFileToDb s).
Proof.
  intros H. unfold _addFileToDb.
  destruct (negb (PyStr.truthy (_curFilename (vars (self s))))
            || negb (_clipManager (self s)))%bool; [exact H|].
  pose proof (holds_finalize true s H) as H1.
  pose proof (finalize_blocking_empties s) as Hn.
  fold (_terminateMoverThread s) in H1, Hn. unfold _terminateMoverThread at 1.
  fold (_terminateMoverThread s).
  set (s1 := _terminateMoverThread s) in *.
  unfold mover_init.
  destruct (getProcSize_frame s1) as (Hw & Hm & _).
  destruct (getProcSize s1) as [p s2]. cbn [snd] in Hw, Hm.
  unfold Holds in *. rewrite (history_emit _ (self s2)). cbn [self].
  replace (history (mkState (self s2) (world s2))) with (history s1)
    by (unfold history; cbn; now rewrite Hw).
  cbn. apply P_start. now rewrite <- Hn.
Qed.

Lemma holds_flush (m : option Z) (s : State) : Holds s -> Holds (flush m s).
Proof.
  intros H. unfold flush.
  destruct (_stream (vars (self s))); [|exact H].
  destruct (isRunning (vars (self s)) && _)%bool; [|exact H].
  now apply holds_aside.
Qed.

Lemma holds_close (k : bool) (s : State) : Holds s -> Holds (close k s).
Proof.
  intros H. unfold close. cbv zeta.
  set (s1 := flush None s).
  assert (H1 : Holds s1) by now apply holds_flush.
  clearbody s1.
  set (s2 := mkState (set_vars (set_isRunning false (vars (self s1))) (self s1))
                     (world s1)).
  assert (H2 : Holds s2)
    by (apply holds_frame with (s := s1); [exact H1|reflexivity..]).
  clearbody s2.
  set (s3 := match _stream (vars (self s2)) with
             | Some _ => mkState (self s2) (emit [FreeStreamData] (world s2))
             | None => s2
             end).
  assert (H3 : Holds s3).
  { unfold s3. destruct (_stream (vars (self s2))); [|exact H2].
    now apply (holds_aside s2 FreeStreamData). }
  clearbody s3.
  set (s4 := if PyStr.truthy (_curFilename (vars (self s3)))
             then _addFileToDb s3 else s3).
  assert (H4 : Holds s4).
  { unfold s4. destruct (PyStr.truthy _);
      [now apply holds_addFileToDb|exact H3]. }
  clearbody s4.
  pose proof (holds_finalize true s4 H4) as H5.
  fold (_terminateMoverThread s4) in H5.
  set (s5 := _terminateMoverThread s4) in *. clearbody s5.
  set (s6 := if k then mkState (self s5) (emit [KillableCallback] (world s5))
             else s5).
  assert (H6 : Holds s6).
  { unfold s6. destruct k; [|exact H5].
    now apply (holds_aside s5 KillableCallback). }
  clearbody s6.
  apply holds_frame with (s := s6); [exact H6|reflexivity..].
Qed.

Lemma holds_rollover (f : StreamFrameStruct) (s : State) :
  Holds s -> Holds (rollover f s).
Proof.
  intros H. unfold rollover. cbv zeta.
  set (s1 := mkState (set_vars (set_curFilePath (sf_filename f) (vars (self s)))
                               (self s)) (world s)).
  assert (H1 : Holds s1)
    by (apply holds_frame with (s := s); [exact H|reflexivity..]).
  clearbody s1.
  pose proof (holds_addFileToDb s1 H1) as H2.
  set (s2 := _addFileToDb s1) in *. clearbody s2.
  apply holds_frame with (s := s2); [exact H2|reflexivity..].
Qed.

Lemma holds_getNewFrame (p : Poll) (s : State) :
  Holds s -> Holds (snd (getNewFrame p s)).
Proof.
  intros H. unfold getNewFrame. cbv zeta.
  destruct (_stream (vars (self s))); [|exact H].
  destruct (negb (isRunning (vars (self s)))); [exact H|].
  destruct (_ =? 0)%Z.
  - cbn [snd]. pose proof (holds_close false s H) as Hc.
    destruct p; [exact Hc|].
    now apply (holds_aside (close false s) FreeFrameData).
  - destruct p as [r|f]; [exact H|]. cbn [snd].
    apply holds_finalize.
    set (s1 := if (_clipManager (self s)
                   && negb (String.eqb (sf_filename f)
                                       (_curFilePath (vars (self s)))))%bool
               then rollover f s else s).
    assert (H1 : Holds s1).
    { unfold s1. destruct (_ && _)%bool; [now apply holds_rollover|exact H]. }
    clearbody s1.
    apply holds_frame with (s := s1); [exact H1|reflexivity..].
Qed.

Lemma holds_open (m : bool) (n : option Stream) (s : State) :
  Holds s -> Holds (snd (open m n s)).
Proof.
  intros H. unfold open. cbv zeta. cbn [snd].
  set (s1 := match _stream (vars (self s)) with
             | Some _ => close false s
             | None => s
             end).
  assert (H1 : Holds s1).
  { unfold s1. destruct (_stream _); [now apply holds_close|exact H]. }
  clearbody s1.
  apply holds_frame with (s := s1); [exact H1|reflexivity|].
  destruct n; reflexivity.
Qed.

Lemma holds_exec (op : Op) (s : State) : Holds s -> Holds (exec op s).
Proof.
  intros H. destruct op; cbn [exec].
  - now apply holds_open.
  - now apply holds_close.
  - now apply holds_getNewFrame.
  - now apply holds_flush.
  - destruct (getProcSize_frame s) as (Hw & Hm & _).
    apply holds_frame with (s := s); [exact H| |exact Hm].
    unfold history. now rewrite Hw.
Qed.

Lemma holds_execs (ops : list Op) (s : State) :
  Holds s -> Holds (execs ops s).
Proof.
  revert s. induction ops as [|op ops IH]; intros s H; [exact H|].
  cbn. apply IH. now apply holds_exec.
Qed.

End Protocol.

(** *** Commits follow submissions *)

Lemma commits_app (h es : list Event) :
  commits (h ++ es) = commits h ++ commits es.
Proof. apply filter_app. Qed.

Lemma run_has_no_commit (t : ThreadedFileMover) (moved : bool) :
  commits (run t moved) = [].
Proof.
  unfold run.
  destruct (negb (PyStr.truthy (m_curFilename t)) || negb (m_clipManager t))%bool;
    [reflexivity|].
  destruct moved; [reflexivity|]. now destruct (m_moveFailedFn t).
Qed.

(** The commits made so far, and the one still due, are those of the jobs
    submitted, in the order of submission. *)
Definition InOrder (h : list Event) (m : option ThreadedFileMover) : Prop :=
  commits h ++ map addFileToDb (match m with Some t => [t] | None => [] end)
  = map addFileToDb (submitted h).

Lemma in_order_aside (h : list Event) (m : option ThreadedFileMover)
    (e : Event) :
  aside e = true -> InOrder h m -> InOrder (h ++ [e]) m.
Proof.
  unfold InOrder. intros He H. rewrite commits_app, submitted_app.
  destruct e; try discriminate He; cbn; now rewrite !app_nil_r.
Qed.

Lemma in_order_finalize (h : list Event) (t : ThreadedFileMover)
    (moved alive : bool) :
  InOrder h (Some t) ->
  InOrder (h ++ run t moved ++ (if alive then [ThreadJoin] else [])
             ++ [addFileToDb t]) None.
Proof.
  unfold InOrder. intros H.
  rewrite !commits_app, !submitted_app, run_has_no_commit,
    run_submits_nothing.
  destruct alive; cbn in *; now rewrite !app_nil_r.
Qed.

Lemma in_order_start (h : list Event) (t : ThreadedFileMover) :
  InOrder h None -> InOrder (h ++ [ThreadStart t]) (Some t).
Proof.
  unfold InOrder. intros H. rewrite commits_app, submitted_app, map_app.
  cbn in *. rewrite app_nil_r in *. now rewrite H.
Qed.

(** X6.  In every run of a session from its construction, under every
    timing of the mover and every outcome of the moves, the index is
    committed to in the order in which the jobs were submitted, once per
    job and with the data of that job; only the job still in the slot is
    without its commit, and after [close] none is. *)
Theorem commits_follow_submissions
    (name : string) (clipManager : bool) (recordDir storageDir configDir : string)
    (record moveFailedCallback : bool) (w : World) (ops : list Op) (k : bool) :
  log w = [] ->
  commits (history (execs ops (init name clipManager recordDir storageDir
                                    configDir record moveFailedCallback w)))
  ++ map addFileToDb
       (pending (self (execs ops (init name clipManager recordDir storageDir
                                       configDir record moveFailedCallback w))))
  = map addFileToDb
      (submitted (history (execs ops (init name clipManager recordDir
                                           storageDir configDir record
                                           moveFailedCallback w))))
  /\ commits (history (close k (execs ops (init name clipManager recordDir
                                               storageDir configDir record
                                               moveFailedCallback w))))
     = map addFileToDb
         (submitted (history (close k (execs ops (init name clipManager
                                                       recordDir storageDir
                                                       configDir record
                                                       moveFailedCallback w))))).
Proof.
  intros Hw.
  set (s0 := init name clipManager recordDir storageDir configDir record
                  moveFailedCallback w).
  assert (H0 : Holds InOrder s0).
  { unfold Holds, InOrder, history, s0, init. cbn. now rewrite Hw. }
  pose proof (holds_execs InOrder in_order_aside in_order_finalize
                in_order_start ops s0 H0) as H.
  split; [exact H|].
  pose proof (holds_close InOrder in_order_aside in_order_finalize
                in_order_start k _ H) as Hc.
  unfold Holds, InOrder in Hc.
  destruct (close_resets k (execs ops s0)) as [_ Hm]. rewrite Hm in Hc.
  cbn in Hc. now rewrite app_nil_r in Hc.
Qed.

(** The theorem on X6 at the session with the slow mover. *)
Lemma commits_follow_submissions_witness :
  commits (history (close false slow_mover_polls))
  = map addFileToDb (submitted (history (close false slow_mover_polls))).
Proof.
  destruct (commits_follow_submissions
              "Cam" true "/rec/Cam/" "/store/" "/cfg" true true
              (mkWorld [] [true; true; true; true; true] [false])
              [OOpen false (Some (mkStream 320 240));
               OGetNewFrame (clip1 0); OGetNewFrame (clip1 100);
               OGetNewFrame (clip2 200); OGetNewFrame (clip2 300);
               OGetNewFrame (clip1 400)] false eq_refl) as [_ H].
  exact H.
Defined.

(** *** The snapshot a job is *)

Lemma same_config_refl (o : StreamReader) : same_config o o.
Proof. unfold same_config. repeat split. Qed.

Lemma same_config_trans (a b c : StreamReader) :
  same_config a b -> same_config b c -> same_config a c.
Proof. unfold same_config. intuition congruence. Qed.

Lemma snapshot_ext (o o' : StreamReader) :
  same_config o o' ->
  vars o' = vars o ->
  _cachedProcSize o' = _cachedProcSize o ->
  snapshot o' = snapshot o.
Proof.
  unfold same_config, snapshot, proc_size_now.
  intros (-> & -> & _ & -> & -> & _ & -> & ->) -> ->. reflexivity.
Qed.

Lemma finalize_keeps (b : bool) (s : State) :
  same_config (self s) (self (_finalizeMoverThread b s))
  /\ vars (self (_finalizeMoverThread b s)) = vars (self s)
  /\ _cachedProcSize (self (_finalizeMoverThread b s))
     = _cachedProcSize (self s).
Proof.
  pose proof (finalize_effect b s) as E.
  destruct (_moverThread (self s)) as [t|].
  - destruct (seen_alive s && negb b)%bool; destruct E as [-> _];
      cbn; repeat split.
  - rewrite E. repeat split.
Qed.

Lemma getProcSize_keeps (s : State) :
  same_config (self s) (self (snd (getProcSize s)))
  /\ vars (self (snd (getProcSize s))) = vars (self s)
  /\ _cachedProcSize (self (snd (getProcSize s))) = proc_size_now (self s)
  /\ fst (getProcSize s) = proc_size_now (self s)
  /\ jobs_of (snd (getProcSize s)) = jobs_of s.
Proof.
  unfold getProcSize, proc_size_now.
  destruct (isRunning (vars (self s))); [|cbn; repeat split].
  destruct (_stream (vars (self s))); cbn; repeat split.
Qed.

(** With a file name and a clip manager, [_addFileToDb] submits the
    snapshot of the object. *)
Lemma addFileToDb_snapshot (s : State) :
  PyStr.truthy (_curFilename (vars (self s))) = true ->
  _clipManager (self s) = true ->
  jobs_of (_addFileToDb s) = jobs_of s ++ [snapshot (self s)]
  /\ same_config (self s) (self (_addFileToDb s))
  /\ vars (self (_addFileToDb s)) = vars (self s)
  /\ _cachedProcSize (self (_addFileToDb s)) = proc_size_now (self s).
Proof.
  intros Hf Hc. unfold _addFileToDb. rewrite Hf, Hc. cbn [negb orb].
  destruct (finalize_keeps true s) as (Fc & Fv & Fp).
  destruct (finalize_frame true s) as (_ & _ & _ & Fj).
  fold (_terminateMoverThread s) in Fc, Fv, Fp, Fj.
  set (s1 := _terminateMoverThread s) in *. clearbody s1.
  unfold mover_init.
  destruct (getProcSize_keeps s1) as (Gc & Gv & Gp & Gf & Gj).
  destruct (getProcSize s1) as [p s2]. cbn [fst snd] in *.
  assert (Es : snapshot (self s1) = snapshot (self s))
    by (now apply snapshot_ext).
  assert (Ep : proc_size_now (self s1) = proc_size_now (self s)).
  { unfold proc_size_now. now rewrite Fv, Fp. }
  split; [|split; [|split]].
  - rewrite (jobs_emit _ (self s2)). cbn [submitted].
    replace (jobs_of (mkState (self s2) (world s2))) with (jobs_of s2)
      by reflexivity.
    rewrite Gj, Fj. f_equal. f_equal. rewrite <- Es. subst p.
    unfold snapshot. destruct Gc as (-> & -> & _ & -> & -> & _ & -> & ->).
    now rewrite Gv.
  - cbn. apply (same_config_trans _ _ _ Fc) in Gc. exact Gc.
  - cbn. now rewrite Gv.
  - cbn. now rewrite Gp.
Qed.

(** [close] on a session with an open segment submits the snapshot of
    the stopped object, and leaves a session in its reset state. *)
Lemma close_snapshot (k : bool) (s : State) (g : string * Z * Z) :
  Tracking s (Some g) ->
  jobs_of (close k s) = jobs_of s ++ [snapshot (stopped (self s))]
  /\ same_config (self s) (self (close k s)).
Proof.
  destruct g as [[p a] b].
  intros (Hc & Hs & Hr & Hp & Hn & Hne & Ha & Hb). unfold close. cbv zeta.
  destruct (flush_frame None s) as [F1 J1].
  set (s1 := flush None s) in *. clearbody s1.
  set (s2 := mkState (set_vars (set_isRunning false (vars (self s1))) (self s1))
                     (world s1)).
  assert (J2 : jobs_of s2 = jobs_of s) by (rewrite <- J1; reflexivity).
  assert (O2 : self s2 = stopped (self s))
    by (unfold s2, stopped; cbn; now rewrite F1).
  clearbody s2.
  set (s3 := match _stream (vars (self s2)) with
             | Some _ => mkState (self s2) (emit [FreeStreamData] (world s2))
             | None => s2
             end).
  assert (J3 : jobs_of s3 = jobs_of s).
  { unfold s3. destruct (_stream (vars (self s2))); [|exact J2].
    rewrite (jobs_emit _ (self s2)). cbn. now rewrite app_nil_r, <- J2. }
  assert (O3 : self s3 = stopped (self s))
    by (unfold s3; destruct (_stream (vars (self s2))); exact O2).
  clearbody s3.
  assert (T : PyStr.truthy (_curFilename (vars (self s3))) = true)
    by (rewrite O3; cbn; rewrite Hn; now apply truthy_true).
  rewrite T.
  destruct (addFileToDb_snapshot s3 T) as (Aj & Ac & Av & Ap).
  { rewrite O3. exact Hc. }
  set (s4 := _addFileToDb s3) in *. clearbody s4.
  destruct (finalize_frame true s4) as (_ & _ & _ & J5).
  destruct (finalize_keeps true s4) as (K5 & _).
  fold (_terminateMoverThread s4) in J5, K5.
  set (s5 := _terminateMoverThread s4) in *. clearbody s5.
  split.
  - rewrite <- O3, <- J3, <- Aj, <- J5. unfold _initVariables.
    destruct k; cbn [self world]; [|reflexivity].
    rewrite (jobs_emit _ (self s5)). cbn. now rewrite app_nil_r.
  - apply (same_config_trans _ (self s3)).
    + rewrite O3. unfold same_config, stopped. cbn. repeat split.
    + apply (same_config_trans _ _ _ Ac).
      unfold _initVariables. destruct k; exact K5.
Qed.

(** One delivered frame, in full: a frame of the file being written only
    moves the end stamp; a frame of another file submits the snapshot of
    the object, if a segment was open, and opens the next segment. *)
Lemma frame_effect (s : State) (cur : option (string * Z * Z))
    (f : StreamFrameStruct) :
  Tracking s cur ->
  stops (Frame f) = false ->
  same_config (self s) (self (snd (getNewFrame (Frame f) s)))
  /\ if String.eqb (sf_filename f) (_curFilePath (vars (self s)))
     then vars (self (snd (getNewFrame (Frame f) s)))
          = set_curLastMs (sf_ms f) (vars (self s))
          /\ jobs_of (snd (getNewFrame (Frame f) s)) = jobs_of s
          /\ _cachedProcSize (self (snd (getNewFrame (Frame f) s)))
             = _cachedProcSize (self s)
     else vars (self (snd (getNewFrame (Frame f) s)))
          = mkVars (_stream (vars (self s))) (isRunning (vars (self s)))
              (_curFilename (vars (self s))) (_curDirPath (vars (self s)))
              (sf_filename f) (PyStr.split_tail (sf_filename f))
              (PyStr.lower
                 (PyStr.join (locationName (self s))
                    (PyStr.take 5 (PyStr.split_tail (sf_filename f)))))
              (sf_ms f) (sf_ms f)
              (_isMmapLargeView (vars (self s))) (_mmapViewWidth (vars (self s)))
              (_mmapViewHeight (vars (self s))) (_mmapViewFps (vars (self s)))
          /\ jobs_of (snd (getNewFrame (Frame f) s))
             = jobs_of s
               ++ (if PyStr.truthy (_curFilename (vars (self s)))
                   then [snapshot (self s)] else [])
          /\ _cachedProcSize (self (snd (getNewFrame (Frame f) s)))
             = (if PyStr.truthy (_curFilename (vars (self s)))
                then proc_size_now (self s) else _cachedProcSize (self s)).
Proof.
  intros (Hc & Hs & Hr & Hcur) Hrun.
  unfold getNewFrame. cbv zeta.
  destruct (_stream (vars (self s))) as [st|] eqn:Est; [|congruence].
  rewrite Hr. cbn [negb]. cbn [stops] in Hrun. rewrite Hrun.
  rewrite Hc. cbn [andb snd].
  destruct (String.eqb (sf_filename f) (_curFilePath (vars (self s)))) eqn:E;
    cbn [negb].
  - set (s1 := mkState (set_vars (set_curLastMs (sf_ms f) (vars (self s)))
                                 (self s)) (world s)).
    destruct (finalize_frame false s1) as (_ & _ & _ & Fj).
    destruct (finalize_keeps false s1) as (Kc & Kv & Kp).
    split; [exact Kc|]. rewrite Kv, Fj, Kp. repeat split.
  - unfold rollover. cbv zeta.
    set (s1 := mkState (set_vars (set_curFilePath (sf_filename f)
                                    (vars (self s))) (self s)) (world s)).
    assert (V1 : vars (self s1)
                 = set_curFilePath (sf_filename f) (vars (self s)))
      by reflexivity.
    assert (S1 : snapshot (self s1) = snapshot (self s)) by reflexivity.
    assert (P1 : proc_size_now (self s1) = proc_size_now (self s))
      by reflexivity.
    assert (J1 : jobs_of s1 = jobs_of s) by reflexivity.
    assert (C1 : same_config (self s) (self s1))
      by (unfold same_config; cbn; repeat split).
    assert (Q1 : _cachedProcSize (self s1) = _cachedProcSize (self s))
      by reflexivity.
    assert (M1 : _clipManager (self s1) = true) by exact Hc.
    assert (L1 : locationName (self s1) = locationName (self s))
      by reflexivity.
    clearbody s1.
    assert (A : jobs_of (_addFileToDb s1)
                = jobs_of s
                  ++ (if PyStr.truthy (_curFilename (vars (self s)))
                      then [snapshot (self s)] else [])
                /\ same_config (self s) (self (_addFileToDb s1))
                /\ vars (self (_addFileToDb s1)) = vars (self s1)
                /\ _cachedProcSize (self (_addFileToDb s1))
                   = (if PyStr.truthy (_curFilename (vars (self s)))
                      then proc_size_now (self s)
                      else _cachedProcSize (self s))).
    { destruct (PyStr.truthy (_curFilename (vars (self s)))) eqn:T.
      - destruct (addFileToDb_snapshot s1) as (Aj & Ac & Av & Ap).
        { rewrite V1. exact T. }
        { exact M1. }
        rewrite Aj, J1, S1, Ap, P1.
        split; [reflexivity|].
        split; [exact (same_config_trans _ _ _ C1 Ac)|].
        split; [exact Av|reflexivity].
      - rewrite (addFileToDb_skips s1) by (rewrite V1; exact T).
        rewrite J1, app_nil_r. auto. }
    destruct A as (Aj & Ac & Av & Ap).
    set (s2 := _addFileToDb s1) in *. clearbody s2.
    match goal with
    | |- context [_finalizeMoverThread false ?x] => set (s3 := x)
    end.
    destruct (finalize_frame false s3) as (_ & _ & _ & Fj).
    destruct (finalize_keeps false s3) as (Kc & Kv & Kp).
    split; [|split; [|split]].
    + apply (same_config_trans _ (self s3)); [|exact Kc].
      unfold s3. cbn. exact Ac.
    + rewrite Kv. unfold s3. cbn. rewrite Av, V1. cbn.
      destruct Ac as (-> & _). unfold set_curLastMs, PyStr.take. cbn.
      rewrite ?Est, ?Hr. reflexivity.
    + rewrite Fj, <- Aj. reflexivity.
    + rewrite Kp, <- Ap. reflexivity.
Qed.

(** *** The predecessor links *)

Lemma linked_prev_file (s : State) (last : option ThreadedFileMover) :
  Linked s last ->
  prev_file (snapshot (self s))
  = match last with None => ""%string | Some t0 => failed_path t0 end
  /\ prev_file (snapshot (stopped (self s)))
     = match last with None => ""%string | Some t0 => failed_path t0 end.
Proof.
  unfold Linked, prev_file, snapshot, stopped, failed_path. cbn.
  destruct last as [t0|].
  - intros (-> & -> & Hne).
    apply truthy_true in Hne. rewrite Hne. auto.
  - intros ->. auto.
Qed.

Lemma session_chain (k : bool) (ps : list Poll) :
  forall (s : State) (cur : option (string * Z * Z))
         (last : option ThreadedFileMover),
  Tracking s cur ->
  match cur with None => last = None | Some _ => Linked s last end ->
  Forall names_file (delivered ps) ->
  exists js,
    jobs_of (close k (polls ps s)) = jobs_of s ++ js /\ chain last js.
Proof.
  assert (Hclose : forall k' s cur last,
             Tracking s cur ->
             match cur with None => last = None | Some _ => Linked s last end ->
             exists js, jobs_of (close k' s) = jobs_of s ++ js /\ chain last js).
  { intros k' s cur last HT HL. destruct cur as [g|].
    - destruct (close_snapshot k' s g HT) as [Hj _].
      exists [snapshot (stopped (self s))]. split; [exact Hj|].
      cbn. split; [|exact I]. now apply linked_prev_file.
    - destruct (@close_jobs k' s None HT) as (js & Hj & Hk).
      destruct js; [|discriminate Hk].
      exists []. split; [exact Hj|exact I]. }
  induction ps as [|x ps IH]; intros s cur last HT HL Hf.
  - now apply (Hclose k s cur last).
  - cbn [polls fold_left]. fold (polls ps (snd (getNewFrame x s))).
    cbn [delivered] in Hf. destruct (stops x) eqn:Ex.
    + destruct (@stop_step s cur x HT Ex) as (Hv & Hm & Hj).
      destruct (Hclose false s cur last HT HL) as (js & Cj & Cc).
      exists js. split; [|exact Cc].
      rewrite (@closed_session_jobs k ps _ Hv Hm), Hj. exact Cj.
    + destruct x as [r|f].
      * rewrite (@idle_step s cur r HT Ex). now apply (IH s cur last).
      * inversion Hf as [|f' fs' Hf1 Hf2]; subst.
        destruct (@frame_step s cur f HT Ex Hf1) as (_ & cur' & HT' & _ & _).
        destruct (frame_effect s cur f HT Ex) as (_ & HE).
        destruct HT as (Hc & Hs & Hr & Hcur).
        destruct (String.eqb (sf_filename f) (_curFilePath (vars (self s))))
          eqn:E.
        -- destruct HE as (Ev & Ej & _).
           destruct cur as [[[p a] b]|].
           ++ destruct (IH _ (Some cur') last HT') as (js & Hj & Hch);
                [|exact Hf2|].
              ** unfold Linked in *. rewrite Ev. exact HL.
              ** exists js. split; [|exact Hch]. now rewrite Hj, Ej.
           ++ exfalso. destruct Hcur as (Hp & _).
              apply String.eqb_eq in E. rewrite Hp in E.
              apply Hf1. now rewrite E.
        -- destruct HE as (Ev & Ej & _).
           destruct cur as [[[p a] b]|].
           ++ destruct Hcur as (Hp & Hn & Hne & _).
              pose proof Hne as Ht. rewrite <- Hn in Ht.
              apply truthy_true in Ht. rewrite Ht in Ej.
              destruct (IH _ (Some cur') (Some (snapshot (self s))) HT')
                as (js & Hj & Hch); [|exact Hf2|].
              ** unfold Linked. rewrite Ev. cbn. rewrite Hn. auto.
              ** exists (snapshot (self s) :: js). split.
                 --- rewrite Hj, Ej. now rewrite <- app_assoc.
                 --- cbn. split; [|exact Hch]. now apply linked_prev_file.
           ++ destruct Hcur as (Hp & Hn). subst last.
              rewrite Hn in Ej. cbn in Ej. rewrite app_nil_r in Ej.
              destruct (IH _ (Some cur') None HT') as (js & Hj & Hch);
                [|exact Hf2|].
              ** unfold Linked. rewrite Ev. cbn. exact Hn.
              ** exists js. split; [|exact Hch]. now rewrite Hj, Ej.
Qed.

(** X7.  Over a whole session in which every delivered frame names a
    file, each job names as its predecessor the path of the job submitted
    before it, and the first names none.  That path
    is spelled with the file name as the adapter reported it, while the
    predecessor itself was committed under the lower-cased name: the two
    differ whenever the name has an upper-case letter. *)
Theorem predecessor_links_are_chained (s : State) (ps : list Poll) (k : bool) :
  Tracking s None ->
  Forall names_file (delivered ps) ->
  (exists js,
     submitted (history (close k (polls ps s))) = submitted (history s) ++ js
     /\ chain None js)
  /\ (forall t0 t,
        prev_file t = failed_path t0 ->
        PyStr.has_upper (m_curFilename t0) = true ->
        prev_file t <> committed_path t0).
Proof.
  intros HT Hf. split.
  - now apply (session_chain k ps s None None).
  - intros t0 t E Hu. rewrite E. unfold failed_path, committed_path.
    intros E'. symmetry in E'. apply join_lower_inj in E'.
    exact (@lower_changes_upper _ Hu E').
Qed.

(** The theorem on X7 at the camera session handed [two_files]. *)
Lemma predecessor_links_are_chained_witness :
  exists js,
    submitted (history (close false (polls two_files (cam [])))) = js
    /\ chain None js.
Proof.
  destruct (predecessor_links_are_chained (cam []) two_files false)
    as [(js & H1 & H2) _].
  - unfold Tracking. cbn. repeat split; discriminate.
  - repeat constructor; unfold names_file; cbn; discriminate.
  - exists js. split; [exact H1|exact H2].
Defined.

(** *** The size a job carries *)

Lemma stopped_proc_size (o : StreamReader) :
  m_procSize (snapshot (stopped o)) = _cachedProcSize o.
Proof. reflexivity. Qed.

Lemma one_file_session (k : bool) (ps : list Poll) :
  forall (s : State) (cur : option (string * Z * Z)),
  Tracking s cur ->
  Forall names_file (delivered ps) ->
  match cur with
  | None => transitions (delivered ps) = 0%nat
  | Some (p, _, _) => changes p (delivered ps) = 0%nat
  end ->
  exists js,
    jobs_of (close k (polls ps s)) = jobs_of s ++ js
    /\ Forall (fun t => m_procSize t = _cachedProcSize (self s)) js
    /\ List.length js = List.length (segs_from cur (delivered ps)).
Proof.
  assert (Hclose : forall k' s cur,
             Tracking s cur ->
             exists js, jobs_of (close k' s) = jobs_of s ++ js
               /\ Forall (fun t => m_procSize t = _cachedProcSize (self s)) js
               /\ List.length js = List.length (segs_from cur [])).
  { intros k' s cur HT. destruct cur as [g|].
    - destruct (close_snapshot k' s g HT) as [Hj _].
      exists [snapshot (stopped (self s))]. split; [exact Hj|].
      split; [repeat constructor|]. now destruct g as [[p a] b].
    - destruct (@close_jobs k' s None HT) as (js & Hj & Hk).
      destruct js; [|discriminate Hk].
      exists []. split; [exact Hj|]. split; [constructor|reflexivity]. }
  induction ps as [|x ps IH]; intros s cur HT Hf Hone.
  - now apply Hclose.
  - cbn [polls fold_left]. fold (polls ps (snd (getNewFrame x s))).
    cbn [delivered] in *. destruct (stops x) eqn:Ex.
    + destruct (@stop_step s cur x HT Ex) as (Hv & Hm & Hj).
      destruct (Hclose false s cur HT) as (js & Cj & Cp & Cl).
      exists js. split; [|split; [exact Cp|exact Cl]].
      rewrite (@closed_session_jobs k ps _ Hv Hm), Hj. exact Cj.
    + destruct x as [r|f].
      * rewrite (@idle_step s cur r HT Ex). now apply IH.
      * inversion Hf as [|f' fs' Hf1 Hf2]; subst.
        destruct (@frame_step s cur f HT Ex Hf1) as (_ & cur' & HT' & _ & _).
        destruct (frame_effect s cur f HT Ex) as (_ & HE).
        pose proof HT as (Hc & Hs & Hr & Hcur).
        pose proof HT' as (_ & _ & _ & Hcur').
        destruct cur' as [[p' a'] b']. destruct Hcur' as (Hp' & _).
        destruct cur as [[[p a] b]|].
        -- destruct Hcur as (Hp & _). cbn [changes] in Hone.
           rewrite Hp in HE.
           destruct (String.eqb (sf_filename f) p) eqn:E;
             [|cbn in Hone; discriminate Hone].
           destruct HE as (Ev & Ej & Eq). cbn in Hone.
           apply String.eqb_eq in E.
           assert (Ep : p' = p).
           { rewrite <- Hp', Ev. cbn. exact Hp. }
           destruct (IH _ (Some (p', a', b')) HT' Hf2) as (js & Hj & Hq & Hl).
           { rewrite Ep, <- E. exact Hone. }
           exists js. split; [now rewrite Hj, Ej|]. split.
           ++ rewrite <- Eq. exact Hq.
           ++ rewrite Hl. cbn [segs_from segs]. rewrite Ep, E.
              rewrite String.eqb_refl. rewrite !segs_length. reflexivity.
        -- destruct Hcur as (Hp & Hn). cbn [transitions] in Hone.
           rewrite Hp in HE.
           destruct (String.eqb (sf_filename f) "") eqn:E.
           ++ exfalso. apply String.eqb_eq in E. apply Hf1. now rewrite E.
           ++ destruct HE as (Ev & Ej & Eq). rewrite Hn in Ej, Eq.
              cbn in Ej, Eq. rewrite app_nil_r in Ej.
              assert (Ep : p' = sf_filename f).
              { rewrite <- Hp', Ev. reflexivity. }
              destruct (IH _ (Some (p', a', b')) HT' Hf2)
                as (js & Hj & Hq & Hl).
              { rewrite Ep. exact Hone. }
              exists js. split; [now rewrite Hj, Ej|]. split.
              ** rewrite <- Eq. exact Hq.
              ** rewrite Hl. cbn [segs_from segments]. rewrite Ep.
                 rewrite !segs_length. reflexivity.
Qed.

(** X8.  A job submitted by [close] carries the processing size the
    object has cached, not the size the stream has.  So a session that
    recorded a single file commits it with the size cached before its
    first frame - (0, 0) on a fresh session - unless [getProcSize] was
    called while it ran; a job submitted at a rollover carries the size of
    the stream. *)
Theorem close_commits_the_cached_size (s : State) (ps : list Poll) (k : bool) :
  Tracking s None ->
  Forall names_file (delivered ps) ->
  transitions (delivered ps) = 0%nat ->
  delivered ps <> [] ->
  (exists t,
     submitted (history (close k (polls ps s))) = submitted (history s) ++ [t]
     /\ m_procSize t = _cachedProcSize (self s)
     /\ exists rp ln a b pf,
          addFileToDb t
          = AddClip rp ln a b pf (fst (_cachedProcSize (self s)))
                    (snd (_cachedProcSize (self s))))
  /\ (forall (s' : State) (g : string * Z * Z) (f : StreamFrameStruct)
             (st : Stream),
        Tracking s' (Some g) ->
        _stream (vars (self s')) = Some st ->
        stops (Frame f) = false ->
        String.eqb (sf_filename f) (_curFilePath (vars (self s'))) = false ->
        exists t,
          jobs_of (snd (getNewFrame (Frame f) s')) = jobs_of s' ++ [t]
          /\ m_procSize t = (get_proc_width st, get_proc_height st)).
Proof.
  intros HT Hf Hone Hne. split.
  - destruct (one_file_session k ps s None HT Hf Hone) as (js & Hj & Hq & Hl).
    cbn [segs_from] in Hl. rewrite segments_length, Hone in Hl.
    destruct (delivered ps) as [|f0 r0]; [congruence|]. cbn in Hl.
    destruct js as [|t [|t' js]]; try discriminate Hl.
    exists t. split; [exact Hj|]. inversion Hq as [|? ? Hp _]; subst.
    split; [exact Hp|]. unfold addFileToDb. rewrite Hp.
    repeat eexists.
  - intros s' g f st HT' Est Ex E.
    destruct (frame_effect s' (Some g) f HT' Ex) as (_ & HE).
    rewrite E in HE. destruct HE as (_ & Ej & _).
    destruct g as [[p a] b].
    destruct HT' as (_ & _ & Hr & _ & Hn & Hne' & _).
    rewrite <- Hn in Hne'. apply truthy_true in Hne'. rewrite Hne' in Ej.
    exists (snapshot (self s')). split; [exact Ej|].
    unfold snapshot, proc_size_now. cbn. now rewrite Hr, Est.
Qed.

(** The theorem on X8 at a camera session of one file: the stream is
    320 by 240, the clip is committed as 0 by 0. *)
Lemma close_commits_the_cached_size_witness :
  exists t,
    submitted (history (close false (polls [clip1 0; clip1 100] (cam []))))
    = [t]
    /\ m_procSize t = (0, 0).
Proof.
  destruct (close_commits_the_cached_size (cam []) [clip1 0; clip1 100] false)
    as [(t & H1 & H2 & _) _].
  - unfold Tracking. cbn. repeat split; discriminate.
  - repeat constructor; unfold names_file; cbn; discriminate.
  - reflexivity.
  - discriminate.
  - exists t. split; [exact H1|exact H2].
Defined.

(** *** Opening an open session, and a stream that stops *)

(** X9.  [open] on a session that is recording closes it first: the open
    segment is submitted as by [close], the mover is drained and the
    segment fields start afresh, whether or not the new stream opens; the
    answer is whether it did.  On a session without a stream [open]
    submits nothing. *)
Theorem open_finalizes_the_open_segment
    (m : bool) (n : option Stream) (s : State) (g : string * Z * Z) :
  Tracking s (Some g) ->
  jobs_of (snd (open m n s)) = jobs_of s ++ [snapshot (stopped (self s))]
  /\ _moverThread (self (snd (open m n s))) = None
  /\ _curFilePath (vars (self (snd (open m n s)))) = ""%string
  /\ _curFilename (vars (self (snd (open m n s)))) = ""%string
  /\ _stream (vars (self (snd (open m n s)))) = n
  /\ fst (open m n s) = (match n with Some _ => true | None => false end)
  /\ (forall s0, _stream (vars (self s0)) = None ->
        jobs_of (snd (open m n s0)) = jobs_of s0).
Proof.
  intros HT. pose proof HT as (_ & Hs & _).
  destruct (close_snapshot false s g HT) as [Hj _].
  destruct (close_resets false s) as [Hv Hm].
  unfold open. cbv zeta.
  destruct (_stream (vars (self s))) as [st|] eqn:Est; [|congruence].
  set (s1 := close false s) in *. clearbody s1.
  destruct s1 as [o w]. cbn [self world] in *.
  split; [destruct n; exact Hj|].
  split; [destruct n; exact Hm|].
  destruct n; cbn; rewrite ?Hv; cbn; repeat split;
    intros x E0; rewrite E0; reflexivity.
Qed.

(** The theorem on X9 at the session in its first segment. *)
Lemma open_finalizes_the_open_segment_witness :
  jobs_of (snd (open false None cam_at_100))
  = jobs_of cam_at_100 ++ [snapshot (stopped (self cam_at_100))]
  /\ fst (open false None cam_at_100) = false.
Proof.
  destruct (open_finalizes_the_open_segment false None cam_at_100
              ("/rec/Cam/Clip001.mp4"%string, 100, 120))
    as (H1 & _ & _ & _ & _ & H6 & _).
  - unfold Tracking. cbn. repeat split; discriminate.
  - split; [exact H1|exact H6].
Defined.

(** X10.  A frame that comes with the news that the stream has stopped is
    freed and not handed on: [getNewFrame] answers [None], the session
    is closed, and the job of the open segment ends at the stamp of the
    frame before, whatever file and stamp the dropped frame carries. *)
Theorem stop_frame_is_dropped
    (s : State) (g : string * Z * Z) (f : StreamFrameStruct) :
  Tracking s (Some g) ->
  stops (Frame f) = true ->
  fst (getNewFrame (Frame f) s) = None
  /\ jobs_of (snd (getNewFrame (Frame f) s))
     = jobs_of s ++ [snapshot (stopped (self s))]
  /\ job_key (snapshot (stopped (self s))) = segment_key g
  /\ vars (self (snd (getNewFrame (Frame f) s))) = initial_vars
  /\ _moverThread (self (snd (getNewFrame (Frame f) s))) = None
  /\ history (snd (getNewFrame (Frame f) s))
     = history (close false s) ++ [FreeFrameData].
Proof.
  intros HT Hx. pose proof HT as (_ & Hs & Hr & Hcur).
  destruct (close_snapshot false s g HT) as [Hj _].
  destruct (@stop_step s (Some g) (Frame f) HT Hx) as (Hv & Hm & Hj').
  split; [|split; [|split; [|split; [exact Hv|split; [exact Hm|]]]]].
  - unfold getNewFrame. cbv zeta.
    destruct (_stream (vars (self s))); [|reflexivity].
    rewrite Hr. cbn [negb]. cbn [stops] in Hx. now rewrite Hx.
  - now rewrite Hj'.
  - destruct g as [[p a] b]. destruct Hcur as (_ & Hn & _ & Ha & Hb).
    unfold job_key, snapshot, stopped. cbn. now rewrite Hn, Ha, Hb.
  - unfold getNewFrame. cbv zeta.
    destruct (_stream (vars (self s))); [|congruence].
    rewrite Hr. cbn [negb]. cbn [stops] in Hx. rewrite Hx. cbn [snd].
    apply history_emit.
Qed.

(** The theorem on X10 at the session in its first segment, stopped by a
    frame of another file. *)
Lemma stop_frame_is_dropped_witness :
  fst (getNewFrame (Frame (mkFrame 500 "/rec/Cam/Clip002.mp4" 0)) cam_at_100)
  = None
  /\ job_key (snapshot (stopped (self cam_at_100)))
     = ("Clip001.mp4"%string, 100, 120).
Proof.
  destruct (stop_frame_is_dropped cam_at_100
              ("/rec/Cam/Clip001.mp4"%string, 100, 120)
              (mkFrame 500 "/rec/Cam/Clip002.mp4" 0))
    as (H1 & _ & H3 & _).
  - unfold Tracking. cbn. repeat split; discriminate.
  - reflexivity.
  - split; [exact H1|exact H3].
Defined.

End StreamSessionFacts.

(* ================================================================== *)
(** ** Facts about the timestamp flags and the clip makers *)

Module ClipUtilsFacts.

Import VideoLibUtils_py ClipUtils_py.
Local Open Scope Z_scope.

(** X11.  The timestamp flags are a number below 8 whose bit 0 says
    whether timestamps are enabled, and whose bits 1 and 2 say whether
    12-hour time and US dates are asked for on top of that: without
    ['enableTimestamps'] the other two keys count for nothing, and without
    a dictionary the flags are 0. *)
Theorem timestamp_flags_bits (extras : option Truths) :
  0 <= getTimestampFlags extras < 8
  /\ Z.testbit (getTimestampFlags extras) 0
     = match extras with
       | Some e => get_truth "enableTimestamps"%string e
       | None => false
       end
  /\ Z.testbit (getTimestampFlags extras) 1
     = match extras with
       | Some e => get_truth "enableTimestamps"%string e && get_truth "use12HrTime"%string e
       | None => false
       end
  /\ Z.testbit (getTimestampFlags extras) 2
     = match extras with
       | Some e => get_truth "enableTimestamps"%string e && get_truth "useUSDate"%string e
       | None => false
       end.
Proof.
  unfold getTimestampFlags, ENABLE, USE_12HR_TIME, USE_US_DATE.
  destruct extras as [e|];
    [|cbn; repeat split; first [reflexivity|lia]].
  destruct (get_truth "enableTimestamps"%string e), (get_truth "use12HrTime"%string e),
    (get_truth "useUSDate"%string e); cbn; repeat split; first [reflexivity|lia].
Qed.

Section Clips.

Context {F : Type}.
Variable videolib : @NativeCall F -> Z.

Lemma result_of_range (res : Z) :
  0 <= res < 2 ^ 64 ->
  -1 <= result_of res <= 2 ^ 64 - 2
  /\ (result_of res = -1 <-> res = 2 ^ 64 - 1)
  /\ (result_of res <> -1 -> result_of res = res).
Proof.
  intros H. unfold result_of, _kCreateClipError.
  destruct (Z.eqb_spec res (2 ^ 64 - 1)) as [E|E]; lia.
Qed.

Lemma c_uint64_range (z : Z) : 0 <= c_uint64 z < 2 ^ 64.
Proof. unfold c_uint64. apply Z.mod_pos_bound. lia. Qed.

Lemma createClip_answer (origFiles : list (string * Z)) (newFile : string)
    (firstMs lastMs : Z) (config : CodecConfig F) (extras : ClipExtras) :
  answer (createClip videolib origFiles newFile firstMs lastMs config extras)
  = result_of
      (c_uint64
         (videolib
            (made (createClip videolib origFiles newFile firstMs lastMs
                     config extras)))).
Proof.
  unfold createClip. destruct (maxSize extras) as [[w h]|]; reflexivity.
Qed.

Lemma remuxClip_answer (origFiles : list (string * Z)) (newFile : string)
    (firstMs lastMs : Z) (config : CodecConfig F) (extras : ClipExtras) :
  answer (remuxClip videolib origFiles newFile firstMs lastMs config extras)
  = result_of
      (c_uint64
         (videolib
            (made (remuxClip videolib origFiles newFile firstMs lastMs
                     config extras)))).
Proof.
  unfold remuxClip. destruct (needs_transcoding extras); [|reflexivity].
  apply createClip_answer.
Qed.

(** X12.  Whatever the native library returns, [remuxClip] and
    [createClip] answer -1 or a number from 0 to 2^64 - 2: -1 exactly
    when the native call returned the error value 2^64 - 1 (as an
    unsigned 64-bit number), and the returned value otherwise. *)
Theorem clip_answer_is_minus_one_or_the_offset
    (origFiles : list (string * Z)) (newFile : string)
    (firstMs lastMs : Z) (config : CodecConfig F) (extras : ClipExtras) :
  let c := createClip videolib origFiles newFile firstMs lastMs config extras in
  let r := remuxClip videolib origFiles newFile firstMs lastMs config extras in
  (-1 <= answer c <= 2 ^ 64 - 2
   /\ (answer c = -1 <-> videolib (made c) mod 2 ^ 64 = 2 ^ 64 - 1)
   /\ (answer c <> -1 -> answer c = videolib (made c) mod 2 ^ 64))
  /\ (-1 <= answer r <= 2 ^ 64 - 2
      /\ (answer r = -1 <-> videolib (made r) mod 2 ^ 64 = 2 ^ 64 - 1)
      /\ (answer r <> -1 -> answer r = videolib (made r) mod 2 ^ 64)).
Proof.
  cbv zeta. rewrite createClip_answer, remuxClip_answer.
  split; apply result_of_range; apply c_uint64_range.
Qed.

(** X13.  [remuxSubClip] never transcodes: its one native call is
    [fast_create_clip] on the one file at offset 0 in mp4, and the codec
    configuration plays no part.  [createSubClip] always transcodes, with
    the codec configuration as it was read, no timestamps, no boxes and
    no frame-rate limit. *)
Theorem sub_clips_remux_or_transcode
    (origFile newFile : string) (firstMs lastMs : Z) (config : CodecConfig F) :
  made (remuxSubClip videolib origFile newFile firstMs lastMs config)
  = FastCreateClip (mkFastArgs [(origFile, 0)] firstMs lastMs newFile "mp4"%string)
  /\ made (createSubClip videolib origFile newFile firstMs lastMs config)
     = CreateClip (mkCreateArgs [(origFile, 0)] firstMs lastMs newFile config
                     0 [] "mp4"%string 0).
Proof.
  split; [reflexivity|]. unfold createSubClip, createClip. cbn.
  now destruct config.
Qed.

(** X14.  [remuxClip] remuxes exactly when the extras ask for nothing a
    remux cannot give, and then leaves the dictionary alone.  Otherwise it
    transcodes, with the quality profile of the extras if they have one
    and with profile 5 if not - the profile of the codec configuration is
    never used - and in that case it writes the 5 into the caller's
    dictionary. *)
Theorem remuxClip_falls_back_to_transcoding
    (origFiles : list (string * Z)) (newFile : string)
    (firstMs lastMs : Z) (config : CodecConfig F) (extras : ClipExtras) :
  let r := remuxClip videolib origFiles newFile firstMs lastMs config extras in
  if needs_transcoding extras
  then (exists a, made r = CreateClip a
                  /\ sv_profile (ca_config a) = get (qualityProfile extras) 5
                  /\ ca_files a = origFiles
                  /\ ca_enableTimestamps a
                     = getTimestampFlags (Some (conditions extras)))
       /\ qualityProfile (extras_after r)
          = Some (get (qualityProfile extras) 5)
       /\ set_qualityProfile (get (qualityProfile extras) 5) extras
          = extras_after r
  else made r = FastCreateClip
                  (mkFastArgs origFiles firstMs lastMs newFile
                     (get (format extras) "mp4"%string))
       /\ extras_after r = extras.
Proof.
  cbv zeta. unfold remuxClip.
  destruct (needs_transcoding extras); [|auto].
  unfold createClip.
  destruct (qualityProfile extras) as [q|] eqn:Eq; cbn;
    rewrite ?Eq; destruct (maxSize extras) as [[w h]|]; cbn;
    (split; [eexists; repeat split|]); rewrite ?Eq; cbn;
    try (split; [reflexivity|]);
    destruct extras; unfold set_qualityProfile; cbn in *; congruence.
Qed.

End Clips.

End ClipUtilsFacts.

(* ================================================================== *)
(** ** Facts about the cameras, the devices and the memory-map
       parameters *)

Module StreamControlsFacts.

Import StreamReader_py StreamControls_py.
Local Open Scope Z_scope.

(** The strict order of Python on pairs, as a relation. *)
Definition pair_lt (a b : Z * Z) : Prop := pair_ltb a b = true.

Lemma pair_ltb_spec (a b : Z * Z) :
  pair_ltb a b = true
  <-> fst a < fst b \/ (fst a = fst b /\ snd a < snd b).
Proof.
  unfold pair_ltb.
  rewrite Bool.orb_true_iff, Bool.andb_true_iff, !Z.ltb_lt, Z.eqb_eq.
  tauto.
Qed.

Lemma pair_eqb_spec (a b : Z * Z) : pair_eqb a b = true <-> a = b.
Proof.
  unfold pair_eqb. rewrite Bool.andb_true_iff, !Z.eqb_eq.
  destruct a, b; cbn. split; [intros [-> ->]; reflexivity|].
  intros E; inversion E; auto.
Qed.

Lemma pair_lt_trans (a b c : Z * Z) :
  pair_lt a b -> pair_lt b c -> pair_lt a c.
Proof. unfold pair_lt. rewrite !pair_ltb_spec. lia. Qed.

Lemma pair_lt_irrefl (a : Z * Z) : ~ pair_lt a a.
Proof. unfold pair_lt. rewrite pair_ltb_spec. lia. Qed.

Lemma pair_total (a b : Z * Z) :
  pair_ltb a b = false -> pair_eqb a b = false -> pair_lt b a.
Proof.
  intros H1 H2. unfold pair_lt. rewrite pair_ltb_spec.
  assert (N1 : ~ (fst a < fst b \/ (fst a = fst b /\ snd a < snd b)))
    by (rewrite <- pair_ltb_spec, H1; discriminate).
  assert (N2 : a <> b) by (rewrite <- pair_eqb_spec, H2; discriminate).
  destruct a as [a1 a2], b as [b1 b2]; cbn in *.
  assert (a1 <> b1 \/ a2 <> b2).
  { destruct (Z.eq_dec a1 b1) as [->|]; [|auto].
    destruct (Z.eq_dec a2 b2) as [->|]; [|auto]. now elim N2. }
  lia.
Qed.

Lemma insert_pair_In (p x : Z * Z) (l : list (Z * Z)) :
  In x (insert_pair p l) <-> x = p \/ In x l.
Proof.
  induction l as [|q r IH]; cbn.
  - intuition.
  - destruct (pair_ltb p q) eqn:E1; [cbn; intuition|].
    destruct (pair_eqb p q) eqn:E2.
    + apply pair_eqb_spec in E2. subst q. cbn. intuition.
    + cbn. rewrite IH. intuition.
Qed.

Lemma insert_pair_sorted (p : Z * Z) (l : list (Z * Z)) :
  StronglySorted pair_lt l -> StronglySorted pair_lt (insert_pair p l).
Proof.
  induction 1 as [|q r Hs IH Hq]; cbn.
  - constructor; constructor.
  - destruct (pair_ltb p q) eqn:E1.
    + constructor; [constructor; assumption|].
      constructor; [exact E1|].
      rewrite Forall_forall in *. intros x Hx.
      apply (pair_lt_trans p q x E1 (Hq x Hx)).
    + destruct (pair_eqb p q) eqn:E2; [constructor; assumption|].
      constructor; [exact IH|].
      rewrite Forall_forall in *. intros x Hx.
      apply insert_pair_In in Hx. destruct Hx as [->|Hx].
      * apply pair_total; assumption.
      * apply Hq, Hx.
Qed.

Lemma sorted_set_In (x : Z * Z) (l : list (Z * Z)) :
  In x (sorted_set l) <-> In x l.
Proof.
  induction l as [|p r IH]; cbn; [tauto|].
  rewrite insert_pair_In, IH. intuition.
Qed.

Lemma sorted_set_sorted (l : list (Z * Z)) :
  StronglySorted pair_lt (sorted_set l).
Proof.
  induction l; cbn; [constructor|]. now apply insert_pair_sorted.
Qed.

Lemma strictly_sorted_NoDup (l : list (Z * Z)) :
  StronglySorted pair_lt l -> NoDup l.
Proof.
  induction 1 as [|q r Hs IH Hq]; constructor; [|exact IH].
  intros Hin. rewrite Forall_forall in Hq.
  exact (pair_lt_irrefl q (Hq q Hin)).
Qed.

Lemma collect_pairs_large (pair : nat -> option (Z * Z)) (js : list nat) :
  forall acc, Forall (fun p => large_enough p = true) acc ->
  Forall (fun p => large_enough p = true) (collect_pairs pair js acc).
Proof.
  induction js as [|j r IH]; intros acc Hacc; cbn; [exact Hacc|].
  destruct (pair j) as [p|]; [|constructor].
  apply IH. destruct (large_enough p) eqn:E; [|exact Hacc].
  apply Forall_app. split; [exact Hacc|]. constructor; [exact E|constructor].
Qed.

Lemma collect_pairs_failed (pair : nat -> option (Z * Z)) (js : list nat) :
  forall acc, (exists j, In j js /\ pair j = None) ->
  collect_pairs pair js acc = [].
Proof.
  induction js as [|j r IH]; intros acc [k [Hin Hk]]; [destruct Hin|].
  cbn. destruct Hin as [->|Hin]; [now rewrite Hk|].
  destruct (pair j); [|reflexivity]. apply IH. eauto.
Qed.

Lemma collect_pairs_all (pair : nat -> option (Z * Z)) (js : list nat) :
  forall acc, (forall j, In j js -> pair j <> None) ->
  forall p, In p (collect_pairs pair js acc)
            <-> In p acc
                \/ exists j, In j js /\ pair j = Some p
                             /\ large_enough p = true.
Proof.
  induction js as [|j r IH]; intros acc Hall p; cbn.
  - split; [auto|]. intros [H|[k [[] _]]]. exact H.
  - destruct (pair j) as [q|] eqn:Ej; [|now elim (Hall j (or_introl eq_refl))].
    rewrite IH by (intros k Hk; apply Hall; now right).
    destruct (large_enough q) eqn:El.
    + rewrite in_app_iff. cbn. split.
      * intros [[H|[->|[]]]|[k [Hk Hp]]]; [now left| |right; exists k; tauto].
        right. exists j. auto.
      * intros [H|[k [[->|Hk] [Hp Hl]]]]; [auto| |right; exists k; auto].
        left. right. left. congruence.
    + split.
      * intros [H|[k [Hk Hp]]]; [now left|right; exists k; tauto].
      * intros [H|[k [[->|Hk] [Hp Hl]]]]; [auto| |right; exists k; auto].
        congruence.
Qed.

Lemma large_enough_spec (p : Z * Z) :
  large_enough p = true <-> 320 <= fst p /\ 240 <= snd p.
Proof.
  unfold large_enough. rewrite Bool.andb_true_iff, !Z.geb_le. tauto.
Qed.

Lemma read_all_firstn {A : Type} (arr : list A) (n : nat) :
  (n <= List.length arr)%nat -> read_all arr (seq 0 n) = Some (firstn n arr).
Proof.
  intros Hn.
  assert (G : forall k m, (m + k <= List.length arr)%nat ->
              read_all arr (seq m k) = Some (firstn k (skipn m arr))).
  { induction k as [|k IH]; intros m Hm; [reflexivity|].
    cbn [seq read_all].
    destruct (nth_error arr m) as [x|] eqn:Ex.
    - rewrite IH by lia.
      rewrite <- (firstn_skipn m arr) in Ex.
      rewrite nth_error_app2 in Ex by (rewrite length_firstn; lia).
      rewrite length_firstn, Nat.min_l, Nat.sub_diag in Ex by lia.
      destruct (skipn m arr) as [|y t] eqn:Es; [discriminate|].
      cbn in Ex. injection Ex as ->. cbn [firstn].
      replace (skipn (S m) arr) with t; [reflexivity|].
      change (S m) with (1 + m)%nat. rewrite <- skipn_skipn, Es. reflexivity.
    - apply nth_error_None in Ex. lia. }
  rewrite (G n 0%nat) by lia. reflexivity.
Qed.

Lemma read_all_beyond {A : Type} (arr : list A) (n : nat) :
  (List.length arr < n)%nat -> read_all arr (seq 0 n) = None.
Proof.
  intros Hn.
  assert (G : forall k m, (m <= List.length arr < m + k)%nat ->
              read_all arr (seq m k) = None).
  { induction k as [|k IH]; intros m Hm; [lia|].
    cbn [seq read_all].
    destruct (nth_error arr m) as [x|] eqn:Ex; [|reflexivity].
    assert (m < List.length arr)%nat
      by (apply nth_error_Some; congruence).
    rewrite IH by lia. reflexivity. }
  apply G. lia.
Qed.

(** X15.  Every camera that [getLocalCameraNames] lists comes with its
    resolutions in strictly rising order (by width, then height), so none
    is listed twice, and every listed resolution is at least 320 wide and
    240 high.  There is one entry for each device number below the count
    the library gave, and none at all when both ways of counting raise. *)
Theorem camera_resolutions_sorted_and_large (lib : CameraLib) :
  Forall (fun e => StronglySorted pair_lt (snd e)
                   /\ NoDup (snd e)
                   /\ Forall (fun p => 320 <= fst p /\ 240 <= snd p) (snd e))
         (getLocalCameraNames lib)
  /\ List.length (getLocalCameraNames lib)
     = match get_local_camera_count lib,
             get_local_camera_count_without_resolution_cache lib with
       | Some n, _ => Z.to_nat n
       | None, Some n => Z.to_nat n
       | None, None => 0%nat
       end.
Proof.
  assert (E : forall i,
             StronglySorted pair_lt (snd (camera_entry lib i))
             /\ NoDup (snd (camera_entry lib i))
             /\ Forall (fun p => 320 <= fst p /\ 240 <= snd p)
                       (snd (camera_entry lib i))).
  { intros i. unfold camera_entry. cbn [snd].
    split; [apply sorted_set_sorted|].
    split; [apply strictly_sorted_NoDup, sorted_set_sorted|].
    apply Forall_forall. intros p Hp. rewrite sorted_set_In in Hp.
    apply large_enough_spec.
    pose proof (collect_pairs_large
                  (get_supported_resolution_pair_of_device lib i)
                  (xrange match
                     get_number_of_supported_resolutions_of_local_camera lib i
                   with Some n => n | None => 0 end)
                  [] (Forall_nil _)) as H.
    rewrite Forall_forall in H. exact (H p Hp). }
  unfold getLocalCameraNames, xrange.
  destruct (get_local_camera_count lib) as [n|].
  - split; [|now rewrite length_map, length_seq].
    apply Forall_forall. intros e He. apply in_map_iff in He.
    destruct He as [i [<- _]]. apply E.
  - destruct (get_local_camera_count_without_resolution_cache lib) as [n|].
    + split; [|now rewrite length_map, length_seq].
      apply Forall_forall. intros e He. apply in_map_iff in He.
      destruct He as [i [<- _]]. apply E.
    + split; [constructor|reflexivity].
Qed.

(** X16.  For one camera: when every resolution pair can be read, the
    listed resolutions are exactly the pairs the device reports that are
    at least 320 by 240; when a single pair cannot be read, the camera is
    listed with no resolution at all, whatever was read before.  A count
    of resolutions that cannot be had is a count of zero. *)
Theorem camera_entry_all_or_nothing (lib : CameraLib) (i : nat) :
  let n := match get_number_of_supported_resolutions_of_local_camera lib i
           with Some n => n | None => 0 end in
  let pair := get_supported_resolution_pair_of_device lib i in
  ((exists j, (Z.of_nat j < n) /\ pair j = None)
   -> snd (camera_entry lib i) = [])
  /\ ((forall j, Z.of_nat j < n -> pair j <> None)
      -> forall p, In p (snd (camera_entry lib i))
                   <-> exists j, Z.of_nat j < n /\ pair j = Some p
                                 /\ 320 <= fst p /\ 240 <= snd p).
Proof.
  cbv zeta. unfold camera_entry. cbn [snd].
  set (n := match get_number_of_supported_resolutions_of_local_camera lib i
            with Some n => n | None => 0 end).
  set (pair := get_supported_resolution_pair_of_device lib i).
  assert (R : forall j, In j (xrange n) <-> Z.of_nat j < n).
  { intros j. unfold xrange. rewrite in_seq. lia. }
  split.
  - intros [j [Hj Hp]].
    rewrite (collect_pairs_failed pair (xrange n) []); [reflexivity|].
    exists j. split; [now apply R|exact Hp].
  - intros Hall p. rewrite sorted_set_In.
    rewrite (collect_pairs_all pair (xrange n) [])
      by (intros j Hj; apply Hall, R, Hj).
    split.
    + intros [[]|[j [Hj [Hp Hl]]]]. exists j.
      split; [now apply R|]. split; [exact Hp|]. now apply large_enough_spec.
    + intros [j [Hj [Hp Hl]]]. right. exists j.
      split; [now apply R|]. split; [exact Hp|]. now apply large_enough_spec.
Qed.

(** X17.  [getHardwareDevicesList] hands over an array of 32 entries.  A
    count of zero or less gives the empty list; a count up to 32 gives the
    first [count] entries of the array, in order; a count above 32 does
    not give a list at all, as the read of entry 32 raises. *)
Theorem getHardwareDevicesList_reads_the_first_entries
    (count : Z) (arr : list (option string))
    (Hlen : List.length arr = 32%nat) :
  getHardwareDevicesList count arr
  = if count <=? 0 then Some []
    else if count <=? 32 then Some (firstn (Z.to_nat count) arr)
    else None.
Proof.
  unfold getHardwareDevicesList, xrange.
  destruct (count <=? 0) eqn:E0.
  - apply Z.leb_le in E0.
    destruct (count >? 0) eqn:E1; [|reflexivity].
    apply Z.gtb_lt in E1. lia.
  - apply Z.leb_gt in E0.
    destruct (count >? 0) eqn:E1;
      [|rewrite Z.gtb_ltb in E1; apply Z.ltb_ge in E1; lia].
    destruct (count <=? 32) eqn:E2.
    + apply Z.leb_le in E2. apply read_all_firstn. lia.
    + apply Z.leb_gt in E2. apply read_all_beyond. lia.
Qed.

Lemma getHardwareDevicesList_reads_the_first_entries_witness :
  getHardwareDevicesList 2
    (Some "vaapi"%string :: Some "cuda"%string :: repeat None 30)
  = Some [Some "vaapi"%string; Some "cuda"%string].
Proof.
  exact (getHardwareDevicesList_reads_the_first_entries 2
           (Some "vaapi"%string :: Some "cuda"%string :: repeat None 30)
           eq_refl).
Defined.

(** X18.  Memory-map parameters set while a stream is open do not outlive
    it: [setMmapParams] passes them to the library at once, but the
    [open] that follows closes the stream first, which zeroes the stored
    parameters, so the new stream is given all zeroes.  Parameters set
    while no stream is open are the ones the next stream is given, and are
    not passed to the library before. *)
Theorem mmap_params_do_not_outlive_the_stream
    (isLargeView : bool) (width height fps : Z) (s : State)
    (recordInMemory : bool) (st : Stream) :
  let large := if isLargeView then 1 else 0 in
  let r := setMmapParams isLargeView width height fps s in
  match _stream (vars (self s)) with
  | Some _ =>
      snd r = Some (large, width, height, fps)
      /\ open_set_mmap_params recordInMemory (Some st) (fst r)
         = Some (0, 0, 0, 0)
  | None =>
      snd r = None
      /\ open_set_mmap_params recordInMemory (Some st) (fst r)
         = Some (large, width, height, fps)
  end.
Proof.
  cbv zeta. unfold setMmapParams, open_set_mmap_params.
  destruct s as [o w]. destruct o as [a1 a2 a3 a4 a5 a6 a7 a8 a9 a10 v].
  destruct v as [sm b2 b3 b4 b5 b6 b7 b8 b9 b10 b11 b12 b13].
  destruct sm as [x|]; (split; [reflexivity|]); reflexivity.
Qed.

(** *** The blank password *)

Lemma contains_app (c : ascii) (x y : string) :
  contains c (x ++ y) = (contains c x || contains c y)%bool.
Proof.
  induction x as [|a r IH]; cbn; [reflexivity|].
  now rewrite IH, Bool.orb_assoc.
Qed.

Lemma split_once_app (c : ascii) (x y : string) :
  contains c x = false -> split_once c (x ++ String c y) = (x, y).
Proof.
  induction x as [|a r IH]; cbn.
  - now rewrite Ascii.eqb_refl.
  - intros H. apply Bool.orb_false_iff in H. destruct H as [Ha Hr].
    now rewrite Ha, (IH Hr).
Qed.

Lemma split_once_spec (c : ascii) (s : string) :
  contains c s = true ->
  s = (fst (split_once c s) ++ String c (snd (split_once c s)))%string
  /\ contains c (fst (split_once c s)) = false.
Proof.
  induction s as [|a r IH]; cbn; [discriminate|].
  destruct (Ascii.eqb_spec a c) as [->|N]; cbn.
  - auto.
  - intros H. destruct (IH H) as [E1 E2].
    destruct (split_once c r) as [x y]. cbn in *.
    rewrite <- E1. split; [reflexivity|].
    destruct (Ascii.eqb_spec a c); [contradiction|exact E2].
Qed.

(** X22.  [_avoidBlankPasswordBug] changes a URL in one case only: it is
    not a [device:] URL, its scheme is http or https, and the part of its
    network location before the first [@] is a user name - not empty and
    without a colon.  Then the URL is put together again with [:@] in the
    place of that [@] and nothing else changed; in every other case the
    URL comes back as it was.  A network location whose user part ends
    with a colon is never rewritten, so the function does nothing to a
    URL it has already fixed. *)
Theorem blank_password_gets_a_colon
    (urlsplit : string -> SplitResult) (urlunsplit : SplitResult -> string)
    (url : string) :
  let r := _avoidBlankPasswordBug urlsplit urlunsplit url in
  let u := urlsplit url in
  let fixable (auth host : string) :=
    String.prefix "device:" url = false
    /\ (scheme u = "http" \/ scheme u = "https")%string
    /\ netloc u = (auth ++ "@" ++ host)%string
    /\ contains "@" auth = false
    /\ auth <> ""%string
    /\ contains ":" auth = false in
  (forall auth host,
      fixable auth host ->
      r = urlunsplit (mkSplitResult (scheme u) (auth ++ ":@" ++ host)
                                    (path u) (query u) (fragment u)))
  /\ (r <> url -> exists auth host, fixable auth host)
  /\ (forall auth host split2 unsplit2 u2,
        contains "@" auth = false ->
        netloc (split2 u2) = (auth ++ ":@" ++ host)%string ->
        _avoidBlankPasswordBug split2 unsplit2 u2 = u2).
Proof.
  cbv zeta. unfold _avoidBlankPasswordBug.
  split; [|split].
  - intros auth host (Hd & Hs & Hn & Ha & Hne & Hc).
    rewrite Hd. cbn [negb].
    assert (Es : existsb (String.eqb (scheme (urlsplit url)))
                   ["http"%string; "https"%string] = true).
    { cbn. destruct Hs as [-> | ->]; reflexivity. }
    rewrite Es, Hn. cbn [andb].
    change (auth ++ "@" ++ host)%string
      with (auth ++ String "@" host)%string.
    rewrite contains_app. cbn [contains]. rewrite Ascii.eqb_refl.
    rewrite Bool.orb_true_r, (split_once_app "@" auth host Ha), Hc.
    destruct auth; [now elim Hne|]. reflexivity.
  - intros Hr.
    destruct (String.prefix "device:" url) eqn:Hd; cbn [negb] in Hr;
      [now elim Hr|].
    destruct (existsb _ _) eqn:Es; cbn [andb] in Hr; [|now elim Hr].
    destruct (contains "@" (netloc (urlsplit url))) eqn:Hat;
      [|now elim Hr].
    destruct (split_once_spec "@" _ Hat) as [E1 E2].
    destruct (split_once "@" (netloc (urlsplit url))) as [a h].
    cbn [fst snd] in *.
    destruct (PyStr.truthy a) eqn:Ht; cbn [andb] in Hr; [|now elim Hr].
    destruct (contains ":" a) eqn:Hc; cbn [negb] in Hr; [now elim Hr|].
    exists a, h. split; [reflexivity|]. split.
    { cbn in Es. destruct (String.eqb_spec (scheme (urlsplit url)) "http");
        [now left|].
      destruct (String.eqb_spec (scheme (urlsplit url)) "https");
        [now right|discriminate]. }
    split; [exact E1|]. split; [exact E2|]. split; [|exact Hc].
    intros ->. discriminate Ht.
  - intros auth host split2 unsplit2 u2 Ha Hn.
    destruct (String.prefix "device:" u2); cbn [negb]; [reflexivity|].
    destruct (existsb _ _); cbn [andb]; [|reflexivity].
    rewrite Hn.
    replace (auth ++ ":@" ++ host)%string
      with ((auth ++ ":") ++ String "@" host)%string
      by (clear; induction auth as [|a r IH]; cbn;
          [reflexivity|now rewrite IH]).
    rewrite contains_app. cbn [contains]. rewrite Ascii.eqb_refl.
    rewrite Bool.orb_true_r, split_once_app.
    + rewrite contains_app. cbn [contains]. rewrite Ascii.eqb_refl.
      rewrite Bool.orb_true_r, Bool.andb_false_r. reflexivity.
    + rewrite contains_app, Ha. reflexivity.
Qed.

End StreamControlsFacts.

(* ================================================================== *)
(** ** Facts about the debug configuration *)

Module VideoLibUtilsFacts.

Import VideoLibUtils_py.
Local Open Scope Z_scope.

(** Which branch of the loop a key with its value takes. *)
Inductive Kind := KFfmpeg | KKeep | KTrace | KLevel | KModule | KNone.

Definition kind (key : string) (val : bool) : Kind :=
  if String.eqb key _kEnableFFmpegLogging then KFfmpeg
  else if String.eqb key _kKeepManyLargeLogFilesAround then KKeep
  else if String.eqb key _kLogLevelTrace && val then KTrace
  else if existsb (String.eqb key)
            [_kLogLevelInfo; _kLogLevelError; _kLogLevelWarning;
             _kLogLevelDebug] && val then KLevel
  else if negb (String.eqb key "") then KModule
  else KNone.

(** The names of the five log levels. *)
Definition is_level (k : string) : bool :=
  existsb (String.eqb k)
    [_kLogLevelTrace; _kLogLevelInfo; _kLogLevelError; _kLogLevelWarning;
     _kLogLevelDebug].

Definition module_level (val : bool) : Z := if val then 100 else 0.

Lemma loop_body_kind (a : Locals) (key : string) (val : bool) :
  loop_body a (key, val)
  = match kind key val with
    | KFfmpeg => call (if val then FfmpegLogResume else FfmpegLogPause) a
    | KKeep => mkLocals (logLevel a) 20 (20 * 1024 * 1024)
                        (enableAllTracing a) (called a)
    | KTrace => mkLocals key (logCount a) (logSize a) true (called a)
    | KLevel => mkLocals key (logCount a) (logSize a) (enableAllTracing a)
                         (called a)
    | KModule => if enableAllTracing a then a
                 else call (SetModuleTraceLevel key (module_level val)) a
    | KNone => a
    end.
Proof.
  unfold loop_body, kind, module_level.
  destruct (String.eqb key _kEnableFFmpegLogging);
    [now destruct val|].
  destruct (String.eqb key _kKeepManyLargeLogFilesAround); [reflexivity|].
  destruct (String.eqb key _kLogLevelTrace && val); [reflexivity|].
  destruct (existsb (String.eqb key) _ && val); [reflexivity|].
  destruct (String.eqb key ""); cbn; [reflexivity|].
  now destruct (enableAllTracing a).
Qed.

Lemma kind_ffmpeg (k : string) (v : bool) :
  kind k v = KFfmpeg <-> k = _kEnableFFmpegLogging.
Proof.
  unfold kind. destruct (String.eqb_spec k _kEnableFFmpegLogging) as [->|N].
  - tauto.
  - split; [|intros E; now elim N].
    destruct (String.eqb k _kKeepManyLargeLogFilesAround); [discriminate|].
    destruct (String.eqb k _kLogLevelTrace && v); [discriminate|].
    destruct (existsb (String.eqb k) _ && v); [discriminate|].
    destruct (negb (String.eqb k "")); discriminate.
Qed.

Lemma kind_keep (k : string) (v : bool) :
  kind k v = KKeep <-> k = _kKeepManyLargeLogFilesAround.
Proof.
  unfold kind.
  destruct (String.eqb_spec k _kKeepManyLargeLogFilesAround) as [->|N].
  - cbn. tauto.
  - split; [|intros E; now elim N].
    destruct (String.eqb k _kEnableFFmpegLogging); [discriminate|].
    destruct (String.eqb k _kLogLevelTrace && v); [discriminate|].
    destruct (existsb (String.eqb k) _ && v); [discriminate|].
    destruct (negb (String.eqb k "")); discriminate.
Qed.

Lemma kind_sets_level (k : string) (v : bool) :
  (kind k v = KTrace \/ kind k v = KLevel) <-> (is_level k = true /\ v = true).
Proof.
  unfold kind, is_level.
  destruct (String.eqb_spec k _kEnableFFmpegLogging) as [->|N1];
    [cbn; split; [intros [?|?]; discriminate|intros [? _]; discriminate]|].
  destruct (String.eqb_spec k _kKeepManyLargeLogFilesAround) as [->|N2];
    [cbn; split; [intros [?|?]; discriminate|intros [? _]; discriminate]|].
  cbn [existsb].
  destruct (String.eqb k _kLogLevelTrace); cbn [andb orb].
  - destruct v; [tauto|].
    destruct (_ || _)%bool; cbn;
      (destruct (negb (String.eqb k ""));
       (split; [intros [?|?]; discriminate|intros [_ ?]; discriminate])).
  - destruct (_ || _)%bool; cbn [andb].
    + destruct v; [tauto|].
      destruct (negb (String.eqb k ""));
        (split; [intros [?|?]; discriminate|intros [_ ?]; discriminate]).
    + destruct (negb (String.eqb k ""));
        (split; [intros [?|?]; discriminate|intros [? _]; discriminate]).
Qed.

Lemma kind_trace (k : string) (v : bool) :
  kind k v = KTrace <-> (k = _kLogLevelTrace /\ v = true).
Proof.
  unfold kind.
  destruct (String.eqb_spec k _kLogLevelTrace) as [->|N].
  - cbn. destruct v; cbn; [tauto|].
    split; [discriminate|intros [_ ?]; discriminate].
  - split; [|intros [E _]; now elim N].
    destruct (String.eqb k _kEnableFFmpegLogging); [discriminate|].
    destruct (String.eqb k _kKeepManyLargeLogFilesAround); [discriminate|].
    cbn [andb].
    destruct (existsb (String.eqb k) _ && v); [discriminate|].
    destruct (negb (String.eqb k "")); discriminate.
Qed.

Lemma run_counts (d : list (string * bool)) : forall a,
  (logCount (fold_left loop_body d a), logSize (fold_left loop_body d a))
  = if existsb (fun kv => String.eqb (fst kv) _kKeepManyLargeLogFilesAround) d
    then (20, 20 * 1024 * 1024)
    else (logCount a, logSize a).
Proof.
  induction d as [|[k v] r IH]; intros a; [reflexivity|].
  cbn [fold_left existsb fst]. rewrite IH, loop_body_kind.
  destruct (existsb _ r); [now rewrite Bool.orb_true_r|].
  rewrite Bool.orb_false_r.
  destruct (String.eqb_spec k _kKeepManyLargeLogFilesAround) as [->|N].
  - reflexivity.
  - destruct (kind k v) eqn:E; try reflexivity.
    + apply kind_keep in E. now elim N.
    + now destruct (enableAllTracing a).
Qed.

Lemma run_tracing (d : list (string * bool)) : forall a,
  enableAllTracing (fold_left loop_body d a)
  = (enableAllTracing a
     || existsb (fun kv => String.eqb (fst kv) _kLogLevelTrace && snd kv) d)%bool.
Proof.
  induction d as [|[k v] r IH]; intros a;
    [cbn; now rewrite Bool.orb_false_r|].
  cbn [fold_left existsb fst snd]. rewrite IH, loop_body_kind.
  destruct (kind k v) eqn:E.
  - apply kind_ffmpeg in E. subst k. now destruct v.
  - apply kind_keep in E. subst k. reflexivity.
  - apply kind_trace in E. destruct E as [-> ->]. cbn.
    now rewrite Bool.orb_true_r.
  - assert (N : (String.eqb k _kLogLevelTrace && v)%bool = false).
    { destruct (String.eqb k _kLogLevelTrace && v)%bool eqn:T; [|reflexivity].
      apply Bool.andb_true_iff in T. destruct T as [T ->].
      apply String.eqb_eq in T. subst k. discriminate. }
    rewrite N. reflexivity.
  - assert (N : (String.eqb k _kLogLevelTrace && v)%bool = false).
    { destruct (String.eqb k _kLogLevelTrace && v)%bool eqn:T; [|reflexivity].
      apply Bool.andb_true_iff in T. destruct T as [T ->].
      apply String.eqb_eq in T. subst k. discriminate. }
    rewrite N. destruct (enableAllTracing a) eqn:Ea; cbn;
      rewrite ?Ea; reflexivity.
  - assert (N : (String.eqb k _kLogLevelTrace && v)%bool = false).
    { destruct (String.eqb k _kLogLevelTrace && v)%bool eqn:T; [|reflexivity].
      apply Bool.andb_true_iff in T. destruct T as [T ->].
      apply String.eqb_eq in T. subst k. discriminate. }
    rewrite N. reflexivity.
Qed.

Lemma run_level (d : list (string * bool)) : forall a,
  (In (logLevel (fold_left loop_body d a), true) d
   /\ is_level (logLevel (fold_left loop_body d a)) = true)
  \/ (logLevel (fold_left loop_body d a) = logLevel a
      /\ forall k, In (k, true) d -> is_level k = false).
Proof.
  induction d as [|[k v] r IH]; intros a.
  - right. split; [reflexivity|]. intros k [].
  - cbn [fold_left].
    destruct (IH (loop_body a (k, v))) as [[Hin Hl]|[He Hno]].
    + left. split; [now right|exact Hl].
    + rewrite He.
      destruct (Bool.bool_dec (is_level k && v) true) as [Y|N].
      * apply Bool.andb_true_iff in Y. destruct Y as [Yl ->].
        left. rewrite loop_body_kind.
        destruct (proj2 (kind_sets_level k true) (conj Yl eq_refl)) as [E|E];
          rewrite E; cbn; split; auto.
      * right. split.
        -- rewrite loop_body_kind.
           destruct (kind k v) eqn:E; try reflexivity.
           ++ elim N. apply Bool.andb_true_iff.
              apply kind_sets_level. now left.
           ++ elim N. apply Bool.andb_true_iff.
              apply kind_sets_level. now right.
           ++ now destruct (enableAllTracing a).
        -- intros k' [E|Hin]; [|now apply Hno].
           inversion E; subst k' v.
           destruct (is_level k); [now elim N|reflexivity].
Qed.

Lemma run_keeps_calls (d : list (string * bool)) : forall a c,
  In c (called a) -> In c (called (fold_left loop_body d a)).
Proof.
  induction d as [|[k v] r IH]; intros a c H; [exact H|].
  cbn [fold_left]. apply IH. rewrite loop_body_kind.
  destruct (kind k v); cbn; try exact H.
  - apply in_or_app. now left.
  - destruct (enableAllTracing a); [exact H|].
    cbn. apply in_or_app. now left.
Qed.

Lemma run_calls_from (d : list (string * bool)) : forall a c,
  In c (called (fold_left loop_body d a)) ->
  In c (called a)
  \/ exists k v, In (k, v) d
       /\ ((kind k v = KFfmpeg
            /\ c = if v then FfmpegLogResume else FfmpegLogPause)
           \/ (kind k v = KModule
               /\ c = SetModuleTraceLevel k (module_level v))).
Proof.
  induction d as [|[k v] r IH]; intros a c H; [now left|].
  cbn [fold_left] in H. apply IH in H.
  destruct H as [H|[k' [v' [Hin Hc]]]];
    [|right; exists k', v'; split; [now right|exact Hc]].
  rewrite loop_body_kind in H.
  destruct (kind k v) eqn:E; cbn in H; try (now left).
  - apply in_app_or in H. destruct H as [H|[<-|[]]]; [now left|].
    right. exists k, v. split; [now left|]. left. auto.
  - destruct (enableAllTracing a); [now left|].
    cbn in H. apply in_app_or in H. destruct H as [H|[<-|[]]]; [now left|].
    right. exists k, v. split; [now left|]. right. auto.
Qed.

Lemma run_calls_ffmpeg (d : list (string * bool)) : forall a v,
  In (_kEnableFFmpegLogging, v) d ->
  In (if v then FfmpegLogResume else FfmpegLogPause) (called (fold_left loop_body d a)).
Proof.
  induction d as [|[k v'] r IH]; intros a v H; [destruct H|].
  cbn [fold_left]. destruct H as [E|H]; [|now apply IH].
  inversion E; subst k v'. apply run_keeps_calls.
  unfold loop_body. cbn. destruct v; cbn; apply in_or_app; right; now left.
Qed.

Lemma run_calls_module (d : list (string * bool)) : forall a k v,
  In (k, v) d -> kind k v = KModule ->
  enableAllTracing (fold_left loop_body d a) = false ->
  In (SetModuleTraceLevel k (module_level v))
     (called (fold_left loop_body d a)).
Proof.
  induction d as [|[k' v'] r IH]; intros a k v H Hk Ht; [destruct H|].
  cbn [fold_left] in *. destruct H as [E|H]; [|now apply IH].
  inversion E; subst k' v'. apply run_keeps_calls.
  rewrite run_tracing in Ht. apply Bool.orb_false_iff in Ht.
  destruct Ht as [Ht _]. rewrite loop_body_kind, Hk in *.
  destruct (enableAllTracing a) eqn:Ea; [cbn in Ht; congruence|].
  cbn. apply in_or_app. right. now left.
Qed.

(** X19.  Whatever the dictionary holds and in whatever order the loop
    meets its keys, [SetVideoLibDebugConfig] sets the log parameters
    exactly once, as its last call.  The sizes are 20 files of 20 MiB when
    the keep-many-files key is present (whatever its value) and -1, -1
    when it is absent.  The level is one of the five level names: [Info]
    when no level key has a true value, and otherwise a level key whose
    value is true. *)
Theorem debug_config_sets_log_params_last
    (modules : list string) (dict : list (string * bool)) :
  exists pre level,
    SetVideoLibDebugConfig modules dict
    = (pre ++ [SetLogParams level
                 (if existsb (fun kv => String.eqb (fst kv)
                                _kKeepManyLargeLogFilesAround) dict
                  then 20 * 1024 * 1024 else -1)
                 (if existsb (fun kv => String.eqb (fst kv)
                                _kKeepManyLargeLogFilesAround) dict
                  then 20 else -1)])%list
    /\ (forall l s c, ~ In (SetLogParams l s c) pre)
    /\ is_level level = true
    /\ ((forall k, In (k, true) dict -> is_level k = false)
        -> level = _kLogLevelInfo)
    /\ ((exists k, In (k, true) dict /\ is_level k = true)
        -> In (level, true) dict).
Proof.
  unfold SetVideoLibDebugConfig.
  set (a0 := mkLocals _kLogLevelInfo (-1) (-1) false []).
  set (a := fold_left loop_body dict a0).
  pose proof (run_counts dict a0) as Hc. fold a in Hc.
  pose proof (run_level dict a0) as Hl. fold a in Hl.
  exists (called a
          ++ (if enableAllTracing a
              then map (fun item => SetModuleTraceLevel item 100) modules
              else []))%list, (logLevel a).
  split.
  { rewrite <- app_assoc. do 2 f_equal.
    destruct (existsb _ dict); injection Hc as -> ->; reflexivity. }
  split.
  { intros l s c H. apply in_app_or in H. destruct H as [H|H].
    - apply run_calls_from in H.
      destruct H as [[]|[k [v [_ [[_ E]|[_ E]]]]]];
        [destruct v|]; discriminate.
    - destruct (enableAllTracing a); [|destruct H].
      apply in_map_iff in H. destruct H as [m [E _]]. discriminate. }
  destruct Hl as [[Hin Hl]|[He Hno]].
  - split; [exact Hl|]. split; [|intros _; exact Hin].
    intros Hnone. rewrite (Hnone _ Hin) in Hl. discriminate.
  - rewrite He. split; [reflexivity|]. split; [reflexivity|].
    intros [k [Hin Hk]]. rewrite (Hno k Hin) in Hk. discriminate.
Qed.

(** X20.  When the dictionary has [Trace] with a true value, every module
    the library names is switched to level 100 after the loop and just
    before the log parameters are set - so a module switched off by a key
    of its own that the loop met earlier is on in the end. *)
Theorem trace_switches_every_module_on
    (modules : list string) (dict : list (string * bool))
    (Htrace : In (_kLogLevelTrace, true) dict) :
  exists pre level size count,
    SetVideoLibDebugConfig modules dict
    = (pre ++ map (fun m => SetModuleTraceLevel m 100) modules
           ++ [SetLogParams level size count])%list
    /\ forall m l, In (SetModuleTraceLevel m l) pre ->
                   exists v, In (m, v) dict /\ l = module_level v.
Proof.
  unfold SetVideoLibDebugConfig.
  set (a0 := mkLocals _kLogLevelInfo (-1) (-1) false []).
  set (a := fold_left loop_body dict a0).
  assert (T : enableAllTracing a = true).
  { unfold a. rewrite run_tracing. cbn [enableAllTracing a0 orb].
    apply existsb_exists. exists (_kLogLevelTrace, true).
    split; [exact Htrace|reflexivity]. }
  rewrite T. exists (called a), (logLevel a), (logSize a), (logCount a).
  split; [reflexivity|].
  intros m l H. apply run_calls_from in H.
  destruct H as [[]|[k [v [Hin [[_ E]|[_ E]]]]]].
  - destruct v; discriminate.
  - inversion E; subst. exists v. auto.
Qed.

Lemma trace_switches_every_module_on_witness :
  exists pre level size count,
    SetVideoLibDebugConfig ["rtsp"%string; "mux"%string]
      [("mux"%string, false); (_kLogLevelTrace, true)]
    = (pre ++ map (fun m => SetModuleTraceLevel m 100)
                  ["rtsp"%string; "mux"%string]
           ++ [SetLogParams level size count])%list
    /\ forall m l, In (SetModuleTraceLevel m l) pre ->
         exists v, In (m, v) [("mux"%string, false); (_kLogLevelTrace, true)]
                   /\ l = module_level v.
Proof.
  exact (trace_switches_every_module_on
           ["rtsp"%string; "mux"%string]
           [("mux"%string, false); (_kLogLevelTrace, true)]
           (or_intror (or_introl eq_refl))).
Defined.

(** *** The dictionary of [SetVideoLibDebugConfigSimple] *)

Lemma lowered_not_key (x k : string) :
  PyStr.has_upper k = true -> PyStr.lower x <> k.
Proof.
  intros Hu E. apply (@StreamReaderFacts.lower_changes_upper k Hu).
  rewrite <- E. apply StreamReaderFacts.lower_idem.
Qed.

Ltac lowered_key x :=
  exfalso;
  match goal with
  | H : PyStr.lower x = ?c |- _ => exact (lowered_not_key x c eq_refl H)
  | H : ?c = PyStr.lower x |- _ =>
      exact (lowered_not_key x c eq_refl (eq_sym H))
  end.

Lemma kind_of_lowered (x : string) (v : bool) :
  kind (PyStr.lower x) v
  = if String.eqb (PyStr.lower x) "" then KNone else KModule.
Proof.
  unfold kind. cbn [existsb].
  repeat match goal with
  | |- context [String.eqb (PyStr.lower x) ?c] =>
      lazymatch c with
      | ""%string => fail
      | _ => destruct (String.eqb_spec (PyStr.lower x) c) as [E|_];
             [now elim (lowered_not_key x c eq_refl)|]
      end
  end.
  cbn. now destruct (String.eqb (PyStr.lower x) "").
Qed.

Lemma is_level_lowered (x : string) : is_level (PyStr.lower x) = false.
Proof.
  unfold is_level. cbn [existsb].
  repeat match goal with
  | |- context [String.eqb (PyStr.lower x) ?c] =>
      destruct (String.eqb_spec (PyStr.lower x) c) as [E|_];
      [now elim (lowered_not_key x c eq_refl)|]
  end.
  reflexivity.
Qed.

Lemma dict_set_in (x : string * bool) (k : string) (v : bool)
    (d : list (string * bool)) :
  In x (dict_set k v d) -> x = (k, v) \/ In x d.
Proof.
  induction d as [|[k' v'] r IH]; cbn.
  - intros [<-|[]]. now left.
  - destruct (String.eqb k k'); cbn.
    + intros [<-|H]; auto.
    + intros [<-|H]; auto. destruct (IH H); auto.
Qed.

Lemma dict_set_new (k : string) (v : bool) (d : list (string * bool)) :
  In (k, v) (dict_set k v d).
Proof.
  induction d as [|[k' v'] r IH]; cbn; [now left|].
  destruct (String.eqb k k'); cbn; auto.
Qed.

Lemma dict_set_old (x : string * bool) (k : string) (v : bool)
    (d : list (string * bool)) :
  In x d -> fst x <> k -> In x (dict_set k v d).
Proof.
  induction d as [|[k' v'] r IH]; cbn; [tauto|].
  intros [<-|H] N.
  - destruct (String.eqb_spec k k') as [->|_]; [now elim N|]. now left.
  - destruct (String.eqb k k'); cbn; auto.
Qed.

Lemma requested_entries (existing items : list string) :
  forall d,
  (forall k v, In (k, v) d -> In k existing -> v = true) ->
  forall k v,
    In (k, v)
       (fold_left
          (fun dict item =>
             let item := strip item in
             if existsb (String.eqb item) existing
             then dict_set item true dict else dict)
          items d)
    <-> In (k, v) d
        \/ (v = true /\ In k existing /\ In k (map strip items)).
Proof.
  induction items as [|i r IH]; intros d Inv k v.
  - cbn. tauto.
  - cbn [fold_left map]. cbv zeta.
    assert (Ex : existsb (String.eqb (strip i)) existing = true
                 <-> In (strip i) existing).
    { rewrite existsb_exists. split.
      - intros [y [Hy E]]. apply String.eqb_eq in E. now subst.
      - intros H. exists (strip i). split; [exact H|apply String.eqb_refl]. }
    destruct (existsb (String.eqb (strip i)) existing) eqn:Ei.
    + pose proof (proj1 Ex eq_refl) as Hi.
      rewrite IH.
      * split.
        -- intros [H|[-> [He Hr]]].
           ++ apply dict_set_in in H. destruct H as [E|H]; [|now left].
              inversion E; subst. right. cbn. auto.
           ++ right. cbn. auto.
        -- intros [H|[-> [He [<-|Hr]]]].
           ++ left. destruct (string_dec k (strip i)) as [->|N].
              ** rewrite (Inv _ _ H Hi). apply dict_set_new.
              ** now apply dict_set_old.
           ++ left. apply dict_set_new.
           ++ right. auto.
      * intros k' v' H He. apply dict_set_in in H.
        destruct H as [E|H]; [now inversion E|]. exact (Inv _ _ H He).
    + rewrite IH by exact Inv.
      split.
      * intros [H|[-> [He Hr]]]; [now left|]. right. cbn. auto.
      * intros [H|[-> [He [<-|Hr]]]]; [now left| |right; auto].
        apply Ex in He. discriminate.
Qed.

Lemma simple_dict_entries (e : bool) (modules : option string)
    (libs : list string) (k : string) (v : bool) :
  In (k, v) (simple_dict e modules libs)
  <-> In (k, v)
        [(_kEnableFFmpegLogging, e);
         (_kLogLevelTrace, match modules with None => true | _ => false end);
         (_kLogLevelDebug, match modules with None => false | _ => true end);
         (_kKeepManyLargeLogFilesAround, true)]
      \/ match modules with
         | None => False
         | Some ms =>
             v = true /\ In k (map PyStr.lower libs)
             /\ In k (map strip (split_comma (PyStr.lower ms)))
         end.
Proof.
  unfold simple_dict. destruct modules as [ms|]; [|tauto].
  apply requested_entries.
  intros k' v' H He. apply in_map_iff in He. destruct He as [x [<- _]].
  cbn in H.
  destruct H as [E|[E|[E|[E|[]]]]]; inversion E as [[Ek Ev]];
    lowered_key x.
Qed.

Lemma no_log_params_before (modules : list string) (a0 : Locals)
    (dict : list (string * bool)) (l : string) (s c : Z) :
  called a0 = [] ->
  ~ In (SetLogParams l s c)
       (called (fold_left loop_body dict a0)
        ++ (if enableAllTracing (fold_left loop_body dict a0)
            then map (fun item => SetModuleTraceLevel item 100) modules
            else []))%list.
Proof.
  intros E0 H. apply in_app_or in H. destruct H as [H|H].
  - apply run_calls_from in H. rewrite E0 in H.
    destruct H as [[]|[k [v [_ [[_ E]|[_ E]]]]]];
      [destruct v|]; discriminate.
  - destruct (enableAllTracing _); [|destruct H].
    apply in_map_iff in H. destruct H as [m [E _]]. discriminate.
Qed.

(** X21.  [SetVideoLibDebugConfigSimple], in whatever order the loop of
    [SetVideoLibDebugConfig] meets the keys of its dictionary: the log
    level is [Trace] when no module list is given and [Debug] when one
    is, always with 20 files of 20 MiB; ffmpeg logging is resumed or
    paused as asked, never both.  Without a module list every module of
    the library is set to level 100, and the only other level set is a 0
    for a module called [Debug].  With a module list, level 100 goes
    to exactly the non-empty, stripped, lower-cased items of the list
    that are lower-cased names of library modules - under the lower-cased
    name - and a module called [Trace] is set to 0. *)
Theorem simple_debug_config
    (enableFfmpegLogging : bool) (modules : option string)
    (libs : list string) (dict : list (string * bool))
    (Hdict : Permutation dict
               (simple_dict enableFfmpegLogging modules libs)) :
  let calls := SetVideoLibDebugConfig libs dict in
  (exists pre,
      calls = (pre ++ [SetLogParams
                         (match modules with
                          | None => _kLogLevelTrace
                          | Some _ => _kLogLevelDebug
                          end) (20 * 1024 * 1024) 20])%list
      /\ forall l s c, ~ In (SetLogParams l s c) pre)
  /\ (In FfmpegLogResume calls <-> enableFfmpegLogging = true)
  /\ (In FfmpegLogPause calls <-> enableFfmpegLogging = false)
  /\ match modules with
     | None =>
         (forall m, In m libs -> In (SetModuleTraceLevel m 100) calls)
         /\ forall k l, In (SetModuleTraceLevel k l) calls ->
                        (l = 100 /\ In k libs)
                        \/ (k = _kLogLevelDebug /\ l = 0)
     | Some ms =>
         forall k l,
           In (SetModuleTraceLevel k l) calls
           <-> (k = _kLogLevelTrace /\ l = 0)
               \/ (l = 100 /\ k <> ""%string
                   /\ In k (map strip (split_comma (PyStr.lower ms)))
                   /\ In k (map PyStr.lower libs))
     end.
Proof.
  cbv zeta.
  assert (M : forall k v, In (k, v) dict
                <-> In (k, v) (simple_dict enableFfmpegLogging modules libs)).
  { intros k v. split; apply Permutation_in;
      [exact Hdict|apply Permutation_sym, Hdict]. }
  assert (M' : forall k v, In (k, v) dict <-> _)
    by (intros k v; rewrite M; apply simple_dict_entries).
  clear M Hdict.
  unfold SetVideoLibDebugConfig.
  set (a0 := mkLocals _kLogLevelInfo (-1) (-1) false []).
  set (a := fold_left loop_body dict a0).
  set (tail := if enableAllTracing a
               then map (fun item => SetModuleTraceLevel item 100) libs
               else []).
  (* the sizes *)
  assert (Hc : logCount a = 20 /\ logSize a = 20 * 1024 * 1024).
  { pose proof (run_counts dict a0) as Hc. fold a in Hc.
    assert (K : existsb (fun kv => String.eqb (fst kv)
                           _kKeepManyLargeLogFilesAround) dict = true).
    { apply existsb_exists. exists (_kKeepManyLargeLogFilesAround, true).
      split; [|reflexivity]. apply M'. left. cbn. tauto. }
    rewrite K in Hc. injection Hc as -> ->. split; reflexivity. }
  (* the level *)
  assert (Hl : logLevel a = match modules with
                            | None => _kLogLevelTrace
                            | Some _ => _kLogLevelDebug
                            end).
  { pose proof (run_level dict a0) as R. fold a in R.
    destruct R as [[Hin Hlv]|[_ Hno]].
    - apply M' in Hin. destruct Hin as [Hin|Hin].
      + cbn in Hin.
        destruct Hin as [E|[E|[E|[E|[]]]]];
          pose proof (f_equal fst E) as Ek; pose proof (f_equal snd E) as Ev;
          cbn in Ek, Ev; try (rewrite <- Ek in Hlv; discriminate);
          destruct modules; congruence.
      + destruct modules as [ms|]; [|destruct Hin].
        destruct Hin as [_ [Hin _]]. apply in_map_iff in Hin.
        destruct Hin as [x [Ex _]]. rewrite <- Ex, is_level_lowered in Hlv.
        discriminate.
    - destruct modules as [ms|].
      + assert (H : In (_kLogLevelDebug, true) dict)
          by (apply M'; left; cbn; tauto).
        apply Hno in H. discriminate.
      + assert (H : In (_kLogLevelTrace, true) dict)
          by (apply M'; left; cbn; tauto).
        apply Hno in H. discriminate. }
  (* is everything traced? *)
  assert (Ht : enableAllTracing a
               = match modules with None => true | Some _ => false end).
  { unfold a. rewrite run_tracing. cbn [a0 enableAllTracing orb].
    destruct modules as [ms|].
    - destruct (existsb _ dict) eqn:Ex; [|reflexivity].
      apply existsb_exists in Ex. destruct Ex as [[k v] [Hin Hk]].
      cbn [fst snd] in Hk. apply Bool.andb_true_iff in Hk.
      destruct Hk as [Hk ->]. apply String.eqb_eq in Hk. subst k.
      apply M' in Hin. destruct Hin as [Hin|[_ [Hin _]]].
      + cbn in Hin. destruct Hin as [E|[E|[E|[E|[]]]]]; discriminate.
      + apply in_map_iff in Hin. destruct Hin as [x [Ex _]].
        lowered_key x.
    - apply existsb_exists. exists (_kLogLevelTrace, true).
      split; [|reflexivity]. apply M'. left. cbn. tauto. }
  (* the calls of the loop *)
  assert (Hf : forall v : bool,
                 In (if v then FfmpegLogResume else FfmpegLogPause)
                            (called a)
                         <-> enableFfmpegLogging = v).
  { intros v. split.
    - intros H. apply run_calls_from in H.
      destruct H as [[]|[k [v' [Hin [[Hk E]|[_ E]]]]]];
        [|destruct v; discriminate].
      apply kind_ffmpeg in Hk. subst k.
      assert (v' = v) by (destruct v, v'; congruence). subst v'.
      apply M' in Hin. destruct Hin as [Hin|Hin].
      + cbn in Hin. destruct Hin as [E'|[E'|[E'|[E'|[]]]]];
          inversion E'; reflexivity.
      + destruct modules as [ms|]; [|destruct Hin].
        destruct Hin as [_ [Hin _]]. apply in_map_iff in Hin.
        destruct Hin as [x [Ex _]].
        lowered_key x.
    - intros <-. apply run_calls_ffmpeg. apply M'. left. cbn. tauto. }
  assert (Hcalls : forall c, (forall l s n, c <> SetLogParams l s n) ->
             In c (called a ++ tail
                   ++ [SetLogParams (logLevel a) (logSize a) (logCount a)])
             <-> In c (called a) \/ In c tail).
  { intros c Hc'. rewrite !in_app_iff. cbn. split; [|tauto].
    intros [H|[H|[H|[]]]]; auto. symmetry in H. now elim (Hc' _ _ _ H). }
  split.
  { exists (called a ++ tail)%list. split.
    - rewrite <- app_assoc. destruct Hc as [-> ->]. rewrite Hl. reflexivity.
    - intros l s c. apply no_log_params_before. reflexivity. }
  assert (Hnt : forall c, (forall m, c <> SetModuleTraceLevel m 100) ->
                          ~ In c tail).
  { intros c Hc' H. unfold tail in H.
    destruct (enableAllTracing a); [|destruct H].
    apply in_map_iff in H. destruct H as [m [E _]].
    symmetry in E. now elim (Hc' _ E). }
  split.
  { pose proof (Hf true) as Hr. cbv iota in Hr.
    rewrite Hcalls by discriminate. rewrite <- Hr. split; [|tauto].
    intros [H|H]; [exact H|]. exfalso.
    apply (Hnt FfmpegLogResume); [discriminate|exact H]. }
  split.
  { pose proof (Hf false) as Hr. cbv iota in Hr.
    rewrite Hcalls by discriminate. rewrite <- Hr. split; [|tauto].
    intros [H|H]; [exact H|]. exfalso.
    apply (Hnt FfmpegLogPause); [discriminate|exact H]. }
  destruct modules as [ms|].
  - intros k l. rewrite Hcalls by discriminate.
    unfold tail. rewrite Ht. split.
    + intros [H|[]]. apply run_calls_from in H.
      destruct H as [[]|[k' [v [Hin [[_ E]|[Hk E]]]]]];
        [destruct v; discriminate|].
      inversion E; subst k' l. apply M' in Hin.
      destruct Hin as [Hin|[-> [Hlib Hreq]]].
      * cbn in Hin.
        destruct Hin as [E'|[E'|[E'|[E'|[]]]]]; inversion E'; subst;
          try discriminate.
        left. split; reflexivity.
      * right. split; [reflexivity|]. split; [|tauto].
        intros ->. apply in_map_iff in Hlib. destruct Hlib as [x [Ex _]].
        rewrite <- Ex, kind_of_lowered, Ex in Hk. discriminate.
    + intros [[-> ->]|[-> [Hne [Hreq Hlib]]]]; left.
      * apply (run_calls_module dict a0 _kLogLevelTrace false);
          [apply M'; left; cbn; tauto|reflexivity|exact Ht].
      * apply (run_calls_module dict a0 k true);
          [apply M'; right; tauto| |exact Ht].
        apply in_map_iff in Hlib. destruct Hlib as [x [Ex _]].
        rewrite <- Ex, kind_of_lowered, Ex.
        destruct (String.eqb_spec k ""); [now elim Hne|reflexivity].
  - unfold tail in *. rewrite Ht in *. split.
    + intros m Hm. apply Hcalls; [discriminate|]. right.
      apply in_map_iff. exists m. auto.
    + intros k l H. apply Hcalls in H; [|discriminate].
      destruct H as [H|H].
      * apply run_calls_from in H.
        destruct H as [[]|[k' [v [Hin [[_ E]|[Hk E]]]]]];
          [destruct v; discriminate|].
        inversion E; subst k' l. apply M' in Hin.
        destruct Hin as [Hin|[]]. cbn in Hin.
        destruct Hin as [E'|[E'|[E'|[E'|[]]]]]; inversion E'; subst;
          try discriminate.
        right. split; reflexivity.
      * apply in_map_iff in H. destruct H as [m [E Hm]].
        inversion E; subst. left. auto.
Qed.

Lemma simple_debug_config_witness :
  In (SetModuleTraceLevel "mux" 100)
     (SetVideoLibDebugConfig ["RTSP"%string; "mux"%string]
        (rev (simple_dict true (Some " Mux,rtsp ,x"%string)
                          ["RTSP"%string; "mux"%string])))
  <-> ("mux"%string = _kLogLevelTrace /\ 100 = 0)
      \/ (100 = 100 /\ "mux"%string <> ""%string
          /\ In "mux"%string
                (map strip (split_comma (PyStr.lower " Mux,rtsp ,x")))
          /\ In "mux"%string (map PyStr.lower ["RTSP"%string; "mux"%string])).
Proof.
  exact (proj2 (proj2 (proj2
    (simple_debug_config true (Some " Mux,rtsp ,x"%string)
       ["RTSP"%string; "mux"%string]
       (rev (simple_dict true (Some " Mux,rtsp ,x"%string)
                         ["RTSP"%string; "mux"%string]))
       (Permutation_sym (Permutation_rev _))))) "mux"%string 100).
Defined.

End VideoLibUtilsFacts.
